(** * vod_metadata: the VodPackage document model

    A shallow embedding of [VodPackage.py] (the CableLabs ADI package model:
    load, mutate, rescan, serialize) and of [md5_checksum.py].

    Conventions of the embedding:
    - Python [str] is [string]; comparison of strings is byte-wise
      lexicographic ([String.leb]), which is the code-point order of Python
      on the ASCII names the ADI vocabulary uses.  The string primitives
      ([int], [lower], indexing) are those of Python on ASCII strings.
    - [int] and [str] come with the interpreter's limit on the number of
      digits ([int_limited], [str_limited]) where the program can reach it.
    - A Python [dict] is an insertion-ordered association list with the
      dictionary operations written out ([dict_get], [dict_set], [dict_del]).
      Iteration order is insertion order.
    - A method that mutates [self] is a function from the state to a result
      and the state AFTER the call; a raised exception keeps the mutations
      made before it, as in Python.
    - The XML engine, the file system, hashlib, the media probes and float
      arithmetic are collaborators outside the repository; they are taken as
      an environment record.  [write_xml] returns the tree it hands to
      [etree.tostring]; [overwrite_xml], which only writes those bytes to the
      file, is not modelled. *)

From Stdlib Require Import String Ascii List ZArith Lia Bool.
From Stdlib Require Import Sorted Permutation.
Import ListNotations.
Local Open Scope string_scope.
Local Open Scope Z_scope.

(** ** Exceptions and results *)

Inductive Exn : Type :=
| KeyError (key : string)
| IndexError
| ValueError
| TypeError
| AttributeError
| UnboundLocalError (name : string)
| IOError (path : string)
| ProbeFailure (path : string)
| MissingElement (msg : string)
| InvalidMpeg (msg : string).

Inductive Result (A : Type) : Type :=
| Ok (a : A)
| Raise (e : Exn).
Arguments Ok {A} a.
Arguments Raise {A} e.

Definition rbind {A B} (r : Result A) (k : A -> Result B) : Result B :=
  match r with
  | Ok a => k a
  | Raise e => Raise e
  end.

(** A method on a mutable object of type [S]: the result and the state the
    object is left in. *)
Definition M (S A : Type) : Type := S -> Result A * S.

Definition ret {S A} (a : A) : M S A := fun s => (Ok a, s).
Definition raise {S A} (e : Exn) : M S A := fun s => (Raise e, s).
Definition bind {S A B} (m : M S A) (k : A -> M S B) : M S B :=
  fun s => match m s with
           | (Ok a, s') => k a s'
           | (Raise e, s') => (Raise e, s')
           end.
Definition get {S} : M S S := fun s => (Ok s, s).
Definition put {S} (s : S) : M S unit := fun _ => (Ok tt, s).
Definition modify {S} (f : S -> S) : M S unit := fun s => (Ok tt, f s).
Definition lift {S A} (r : Result A) : M S A := fun s => (r, s).

Declare Scope py_scope.
Delimit Scope py_scope with py.
Notation "x <- m ;; k" := (bind m (fun x => k))
  (at level 61, m at next level, right associativity) : py_scope.
Notation "m ;; k" := (bind m (fun _ => k))
  (at level 61, right associativity) : py_scope.
Notation "x <-- r ;; k" := (rbind r (fun x => k))
  (at level 61, r at next level, right associativity) : py_scope.
Local Open Scope py_scope.

(** [for x in xs: body x] *)
Fixpoint for_each {S A} (xs : list A) (body : A -> M S unit) : M S unit :=
  match xs with
  | [] => ret tt
  | x :: xs' => body x ;; for_each xs' body
  end.

Fixpoint rfor_each {A B} (xs : list A) (acc : B) (body : B -> A -> Result B)
  : Result B :=
  match xs with
  | [] => Ok acc
  | x :: xs' => acc' <-- body acc x ;; rfor_each xs' acc' body
  end.

(** ** Python dictionaries *)

Definition dict (V : Type) : Type := list (string * V).

Fixpoint dict_get {V} (k : string) (d : dict V) : option V :=
  match d with
  | [] => None
  | (k', v) :: d' => if String.eqb k k' then Some v else dict_get k d'
  end.

Definition dict_mem {V} (k : string) (d : dict V) : bool :=
  match dict_get k d with Some _ => true | None => false end.

(** [d[k] = v]: an existing key keeps its position. *)
Fixpoint dict_set {V} (k : string) (v : V) (d : dict V) : dict V :=
  match d with
  | [] => [(k, v)]
  | (k', v') :: d' =>
      if String.eqb k k' then (k', v) :: d' else (k', v') :: dict_set k v d'
  end.

(** [del d[k]]: [None] is Python's KeyError. *)
Fixpoint dict_del {V} (k : string) (d : dict V) : option (dict V) :=
  match d with
  | [] => None
  | (k', v') :: d' =>
      if String.eqb k k' then Some d'
      else match dict_del k d' with
           | Some d'' => Some ((k', v') :: d'')
           | None => None
           end
  end.

Definition dict_keys {V} (d : dict V) : list string := map fst d.

(** [d[k]] *)
Definition subscript {V} (d : dict V) (k : string) : Result V :=
  match dict_get k d with
  | Some v => Ok v
  | None => Raise (KeyError k)
  end.

(** [d.get(k, default)] *)
Definition dict_get_default {V} (d : dict V) (k : string) (default : V) : V :=
  match dict_get k d with Some v => v | None => default end.

Fixpoint mem_string (k : string) (l : list string) : bool :=
  match l with
  | [] => false
  | x :: l' => String.eqb k x || mem_string k l'
  end.

Fixpoint nodup_keys (l : list string) : bool :=
  match l with
  | [] => true
  | x :: l' => negb (mem_string x l') && nodup_keys l'
  end.

(** A dictionary has no repeated key. *)
Definition dict_wf {V} (d : dict V) : bool := nodup_keys (dict_keys d).

(** [sorted(d.items(), key=lambda x: x[0])]: a stable sort on the key. *)
Fixpoint insert_sorted {V} (x : string * V) (l : list (string * V))
  : list (string * V) :=
  match l with
  | [] => [x]
  | y :: l' =>
      if String.leb (fst x) (fst y) then x :: y :: l'
      else y :: insert_sorted x l'
  end.

Fixpoint sorted_items {V} (d : list (string * V)) : list (string * V) :=
  match d with
  | [] => []
  | x :: d' => insert_sorted x (sorted_items d')
  end.

(** ** Python string and integer primitives *)

(** [str(n)] for an integer: decimal digits, most significant first. *)
Definition digit_char (d : Z) : ascii :=
  ascii_of_nat (48 + Z.to_nat d).

Fixpoint digits_of (fuel : nat) (n : Z) : list Z :=
  match fuel with
  | O => [n mod 10]
  | S fuel' =>
      if n <? 10 then [n] else digits_of fuel' (n / 10) ++ [n mod 10]
  end.

Definition string_of_digits (ds : list Z) : string :=
  string_of_list_ascii (map digit_char ds).

Definition str_nonneg (n : Z) : string :=
  string_of_digits (digits_of (Z.to_nat (Z.log2 n)) n).

Definition str (n : Z) : string :=
  if n <? 0 then String "-" (str_nonneg (- n)) else str_nonneg n.

(** [int(s)] on an ASCII string: surrounding white space is ignored (tab,
    line feed, vertical tab, form feed, carriage return and space; the
    separators 0x1c to 0x1f are white space for [str.strip] but not for
    [int]), one optional sign, then decimal digits, where single underscores
    may separate digits.  A string with a character outside ASCII is outside
    the model: [int] also reads the decimal digits and the spaces of other
    scripts, which are not modelled, so a statement that [int] REFUSES a
    string is made for ASCII strings only ([is_ascii]). *)
Definition is_space (c : ascii) : bool :=
  let n := nat_of_ascii c in
  ((9 <=? n)%nat && (n <=? 13)%nat) || (n =? 32)%nat.

Fixpoint lstrip (s : string) : string :=
  match s with
  | EmptyString => EmptyString
  | String c s' => if is_space c then lstrip s' else s
  end.

Fixpoint rstrip (s : string) : string :=
  match s with
  | EmptyString => EmptyString
  | String c s' =>
      match rstrip s' with
      | EmptyString => if is_space c then EmptyString else String c EmptyString
      | r => String c r
      end
  end.

Definition strip (s : string) : string := rstrip (lstrip s).

Definition digit_of (c : ascii) : option Z :=
  let n := nat_of_ascii c in
  if ((48 <=? n)%nat && (n <=? 57)%nat) then Some (Z.of_nat n - 48) else None.

(** [after_digit] says that the previous character was a digit, which is
    where an underscore or the end of the literal is allowed. *)
Fixpoint parse_digits (acc : Z) (after_digit : bool) (s : string) : option Z :=
  match s with
  | EmptyString => if after_digit then Some acc else None
  | String c s' =>
      if Ascii.eqb c "_"
      then (if after_digit then parse_digits acc false s' else None)
      else match digit_of c with
           | Some d => parse_digits (10 * acc + d) true s'
           | None => None
           end
  end.

Definition int_opt (s : string) : option Z :=
  match strip s with
  | String "-" s' => option_map Z.opp (parse_digits 0 false s')
  | String "+" s' => parse_digits 0 false s'
  | s' => parse_digits 0 false s'
  end.

Definition int (s : string) : Result Z :=
  match int_opt s with
  | Some z => Ok z
  | None => Raise ValueError
  end.

(** The interpreter limits the conversions between [str] and [int]: a
    decimal string of more than [sys.int_max_str_digits] digits is not
    converted to an integer, and an integer of more than that many digits
    is not converted to a string; both raise ValueError.  The limit is 4300
    unless the interpreter is configured otherwise.  [int_limited] and
    [str_limited] are [int(s)] and [str(n)] with this limit; the model uses
    them wherever a string or an integer of any size can reach the
    conversion.  A file size and a rounded float are far below the limit,
    and are printed with [str]. *)
Definition int_max_str_digits : nat := 4300.

Definition digit_count (s : string) : nat :=
  length (filter (fun c => match digit_of c with
                           | Some _ => true
                           | None => false
                           end)
                 (list_ascii_of_string s)).

Definition int_limited (s : string) : Result Z :=
  if (int_max_str_digits <? digit_count s)%nat then Raise ValueError
  else int s.

Definition str_limited (n : Z) : Result string :=
  if (int_max_str_digits <? digit_count (str n))%nat then Raise ValueError
  else Ok (str n).

(** [format(n, "02")] *)
Definition format02 (n : Z) : string :=
  if (0 <=? n) && (n <? 10) then String "0" (str n) else str n.

(** [s.find(c)] for a one-character needle: the first index, or -1. *)
Fixpoint find_char_from (c : ascii) (s : string) (i : Z) : Z :=
  match s with
  | EmptyString => -1
  | String c' s' => if Ascii.eqb c' c then i else find_char_from c s' (i + 1)
  end.

Definition find_char (c : ascii) (s : string) : Z := find_char_from c s 0.

Fixpoint string_drop (n : nat) (s : string) : string :=
  match n, s with
  | O, _ => s
  | S n', EmptyString => EmptyString
  | S n', String _ s' => string_drop n' s'
  end.

(** [s[i:]]: a negative index counts from the end, and is clipped at 0. *)
Definition slice_from (i : Z) (s : string) : string :=
  let len := Z.of_nat (String.length s) in
  let start := if i <? 0 then Z.max 0 (len + i) else Z.min i len in
  string_drop (Z.to_nat start) s.

(** [s.replace(c, "")] for a one-character [c]. *)
Fixpoint remove_char (c : ascii) (s : string) : string :=
  match s with
  | EmptyString => EmptyString
  | String c' s' =>
      if Ascii.eqb c' c then remove_char c s' else String c' (remove_char c s')
  end.

(** [s[0]] *)
Definition first_char (s : string) : Result string :=
  match s with
  | EmptyString => Raise IndexError
  | String c _ => Ok (String c EmptyString)
  end.

(** [s.lower()] on ASCII letters. *)
Definition lower_ascii (c : ascii) : ascii :=
  let n := nat_of_ascii c in
  if ((65 <=? n)%nat && (n <=? 90)%nat) then ascii_of_nat (n + 32) else c.

Fixpoint lower (s : string) : string :=
  match s with
  | EmptyString => EmptyString
  | String c s' => String (lower_ascii c) (lower s')
  end.

(** The characters of a string, for [for v in value] over a [str]. *)
Fixpoint chars (s : string) : list string :=
  match s with
  | EmptyString => []
  | String c s' => String c EmptyString :: chars s'
  end.

(** ** The XML tree (the part of lxml.etree the package model uses) *)

(** An element: its tag, its attributes in document order, its children in
    document order. *)
#[warnings="-register-all"]
Inductive Element : Type :=
| Elem (tag : string) (attrib : dict string) (children : list Element).

Definition tag_of (e : Element) : string :=
  match e with Elem t _ _ => t end.
Definition attrib_of (e : Element) : dict string :=
  match e with Elem _ a _ => a end.
Definition children_of (e : Element) : list Element :=
  match e with Elem _ _ c => c end.

(** [e.findall(tag)]: the direct children with that tag. *)
Definition findall (tag : string) (e : Element) : list Element :=
  filter (fun c => String.eqb (tag_of c) tag) (children_of e).

(** [e.find(tag)]: the first such child, or [None]. *)
Definition find (tag : string) (e : Element) : option Element :=
  match findall tag e with
  | [] => None
  | c :: _ => Some c
  end.

(** Using the result of [find] as an element: Python's [None] has no
    [find] and no [attrib]. *)
Definition deref (o : option Element) : Result Element :=
  match o with
  | Some e => Ok e
  | None => Raise AttributeError
  end.

(** [e.set(key, value)], for a name and a value that are XML compatible, as
    the strings of a parsed document are.  On another string (one with a
    control character, say) lxml raises ValueError; this is not modelled, so
    the statements about a write are about the tree it builds and about the
    errors of the program's own statements. *)
Definition elem_set (e : Element) (key value : string) : Element :=
  match e with Elem t a c => Elem t (dict_set key value a) c end.

(** [etree.SubElement(parent, child)], once the child is complete: the
    child is appended after the children the parent already has. *)
Definition append_child (parent child : Element) : Element :=
  match parent with Elem t a c => Elem t a (c ++ [child]) end.

(** ** The package *)

(** An App_Data value: a plain string, or the list kept for a name that may
    occur more than once. *)
Inductive AppValue : Type :=
| Single (v : string)
| Multiple (vs : list string).

Record VodPackage : Type := mkVodPackage {
  xml_path : string;
  D_ams : dict (dict string);
  D_app : dict (dict AppValue);
  D_content : dict string;
  has_preview : bool;
  has_poster : bool;
  is_update : bool;
  is_delete : bool
}.

Definition set_D_ams (d : dict (dict string)) (s : VodPackage) : VodPackage :=
  mkVodPackage (xml_path s) d (D_app s) (D_content s)
               (has_preview s) (has_poster s) (is_update s) (is_delete s).
Definition set_D_app (d : dict (dict AppValue)) (s : VodPackage) : VodPackage :=
  mkVodPackage (xml_path s) (D_ams s) d (D_content s)
               (has_preview s) (has_poster s) (is_update s) (is_delete s).
Definition set_D_content (d : dict string) (s : VodPackage) : VodPackage :=
  mkVodPackage (xml_path s) (D_ams s) (D_app s) d
               (has_preview s) (has_poster s) (is_update s) (is_delete s).
Definition set_has_preview (b : bool) (s : VodPackage) : VodPackage :=
  mkVodPackage (xml_path s) (D_ams s) (D_app s) (D_content s)
               b (has_poster s) (is_update s) (is_delete s).
Definition set_has_poster (b : bool) (s : VodPackage) : VodPackage :=
  mkVodPackage (xml_path s) (D_ams s) (D_app s) (D_content s)
               (has_preview s) b (is_update s) (is_delete s).
Definition set_is_update (b : bool) (s : VodPackage) : VodPackage :=
  mkVodPackage (xml_path s) (D_ams s) (D_app s) (D_content s)
               (has_preview s) (has_poster s) b (is_delete s).
Definition set_is_delete (b : bool) (s : VodPackage) : VodPackage :=
  mkVodPackage (xml_path s) (D_ams s) (D_app s) (D_content s)
               (has_preview s) (has_poster s) (is_update s) b.

(** The App_Data names that can appear more than once. *)
Definition _multiples : list string :=
  ["Provider_Content_Tier"; "Subscriber_View_Limit"; "Rating";
   "MSORating"; "Advisories"; "Audience"; "Actors"; "Director";
   "Producers"; "Category"; "Genre"; "Chapter"; "Recording_Artist";
   "Song_Title"; "Languages"; "Subtitle_Languages";
   "Dubbed_Languages"].

(** *** Loading: [_parse_App_Data] and [__init__] *)

Definition parse_App_Data_step (D : dict AppValue) (App_Data : Element)
  : Result (dict AppValue) :=
  key <-- subscript (attrib_of App_Data) "Name" ;;
  value <-- subscript (attrib_of App_Data) "Value" ;;
  if mem_string key _multiples then
    match dict_get key D with
    | Some (Multiple vs) => Ok (dict_set key (Multiple (vs ++ [value])) D)
    | Some (Single _) => Raise AttributeError
    | None => Ok (dict_set key (Multiple [value]) D)
    end
  else Ok (dict_set key (Single value) D).

Definition _parse_App_Data (ae_Metadata : Element) : Result (dict AppValue) :=
  rfor_each (findall "App_Data" ae_Metadata) [] parse_App_Data_step.

(** The three dictionaries while the asset elements are read. *)
Definition Maps : Type :=
  (dict (dict string) * dict (dict AppValue) * dict string)%type.

Definition init_asset_step (maps : Maps) (ae_Asset : Element) : Result Maps :=
  let '(ams, app, content) := maps in
  ae_Metadata <-- deref (find "Metadata" ae_Asset) ;;
  ae_AMS <-- deref (find "AMS" ae_Metadata) ;;
  ae_type <-- subscript (attrib_of ae_AMS) "Asset_Class" ;;
  let ams := dict_set ae_type (attrib_of ae_AMS) ams in
  parsed <-- _parse_App_Data ae_Metadata ;;
  let app := dict_set ae_type parsed app in
  match find "Content" ae_Asset with
  | Some c =>
      value <-- subscript (attrib_of c) "Value" ;;
      Ok (ams, app, dict_set ae_type value content)
  | None => Ok (ams, app, content)
  end.

(** [VodPackage(xml_path)], on the tree that [etree.parse] returned. *)
Definition __init__ (path : string) (ADI : Element) : Result VodPackage :=
  package_Metadata <-- deref (find "Metadata" ADI) ;;
  package_AMS <-- deref (find "AMS" package_Metadata) ;;
  let ams := dict_set "package" (attrib_of package_AMS) [] in
  parsed <-- _parse_App_Data package_Metadata ;;
  let app := dict_set "package" parsed [] in
  title_Asset <-- deref (find "Asset" ADI) ;;
  title_Metadata <-- deref (find "Metadata" title_Asset) ;;
  title_AMS <-- deref (find "AMS" title_Metadata) ;;
  let ams := dict_set "title" (attrib_of title_AMS) ams in
  parsed <-- _parse_App_Data title_Metadata ;;
  let app := dict_set "title" parsed app in
  maps <-- rfor_each (findall "Asset" title_Asset) (ams, app, [])
                     init_asset_step ;;
  let '(ams, app, content) := maps in
  package <-- subscript ams "package" ;;
  version <-- subscript package "Version_Major" ;;
  Ok {| xml_path := path;
        D_ams := ams;
        D_app := app;
        D_content := content;
        has_preview := dict_mem "preview" ams;
        has_poster := dict_mem "poster" ams;
        is_update := negb (String.eqb version "1");
        is_delete :=
          String.eqb (dict_get_default (attrib_of package_AMS) "Verb" "")
                     "DELETE" |}.

(** *** Mutations: [_remove_ae], [remove_preview], [remove_poster],
    [make_update], [make_delete] *)

(** The three [del] statements run in order; the first missing key raises
    KeyError, which is re-raised as MissingElement.  What was deleted before
    stays deleted. *)
Definition _remove_ae (ae_type : string) : M VodPackage unit :=
  fun s =>
    let missing :=
      MissingElement ("Package does not content a " ++ ae_type ++ " element") in
    match dict_del ae_type (D_ams s) with
    | None => (Raise missing, s)
    | Some ams =>
        let s := set_D_ams ams s in
        match dict_del ae_type (D_app s) with
        | None => (Raise missing, s)
        | Some app =>
            let s := set_D_app app s in
            match dict_del ae_type (D_content s) with
            | None => (Raise missing, s)
            | Some content => (Ok tt, set_D_content content s)
            end
        end
    end.

Definition remove_preview : M VodPackage unit :=
  _remove_ae "preview" ;;
  modify (set_has_preview false).

Definition remove_poster : M VodPackage unit :=
  _remove_ae "poster" ;;
  modify (set_has_poster false).

(** [self.D_ams[ae_type][key] = value] *)
Definition set_ams (ae_type key value : string) : M VodPackage unit :=
  fun s =>
    match dict_get ae_type (D_ams s) with
    | None => (Raise (KeyError ae_type), s)
    | Some a =>
        (Ok tt, set_D_ams (dict_set ae_type (dict_set key value a) (D_ams s)) s)
    end.

(** [self.D_app[ae_type][key] = value] *)
Definition set_app (ae_type key : string) (value : AppValue)
  : M VodPackage unit :=
  fun s =>
    match dict_get ae_type (D_app s) with
    | None => (Raise (KeyError ae_type), s)
    | Some a =>
        (Ok tt, set_D_app (dict_set ae_type (dict_set key value a) (D_app s)) s)
    end.

Definition make_update_step (ae_type : string) : M VodPackage unit :=
  s <- get ;;
  a <- lift (subscript (D_ams s) ae_type) ;;
  old <- lift (subscript a "Version_Major") ;;
  n <- lift (int_limited old) ;;
  let new_version := n + 1 in
  new <- lift (str_limited new_version) ;;
  set_ams ae_type "Version_Major" new.

Definition make_update : M VodPackage unit :=
  s <- get ;;
  for_each (dict_keys (D_ams s)) make_update_step ;;
  modify (set_D_content []) ;;
  modify (set_is_update true).

Definition make_delete : M VodPackage unit :=
  s <- get ;;
  for_each (dict_keys (D_ams s))
           (fun ae_type => set_ams ae_type "Verb" "DELETE") ;;
  modify (set_is_delete true).

(** *** Queries: [list_files] *)

Definition list_files (s : VodPackage) : Result (list string) :=
  package <-- subscript (D_ams s) "package" ;;
  package_pid <-- subscript package "Provider_ID" ;;
  package <-- subscript (D_ams s) "package" ;;
  package_paid <-- subscript package "Asset_ID" ;;
  title <-- subscript (D_ams s) "title" ;;
  title_pid <-- subscript title "Provider_ID" ;;
  title <-- subscript (D_ams s) "title" ;;
  title_paid <-- subscript title "Asset_ID" ;;
  movie_pid <-- (if dict_mem "movie" (D_ams s)
                 then a <-- subscript (D_ams s) "movie" ;;
                      subscript a "Provider_ID"
                 else Ok "") ;;
  movie_paid <-- (if dict_mem "movie" (D_ams s)
                  then a <-- subscript (D_ams s) "movie" ;;
                       subscript a "Asset_ID"
                  else Ok "") ;;
  movie_file <-- (if dict_mem "movie" (D_content s)
                  then subscript (D_content s) "movie"
                  else Ok "") ;;
  preview_pid <-- (if has_preview s
                   then a <-- subscript (D_ams s) "preview" ;;
                        subscript a "Provider_ID"
                   else Ok "") ;;
  preview_paid <-- (if has_preview s
                    then a <-- subscript (D_ams s) "preview" ;;
                         subscript a "Asset_ID"
                    else Ok "") ;;
  preview_file <-- (if has_preview s
                    then subscript (D_content s) "preview"
                    else Ok "") ;;
  poster_pid <-- (if has_poster s
                  then a <-- subscript (D_ams s) "poster" ;;
                       subscript a "Provider_ID"
                  else Ok "") ;;
  poster_paid <-- (if has_poster s
                   then a <-- subscript (D_ams s) "poster" ;;
                        subscript a "Asset_ID"
                   else Ok "") ;;
  poster_file <-- (if has_poster s
                   then subscript (D_content s) "poster"
                   else Ok "") ;;
  Ok [package_pid; package_paid;
      title_pid; title_paid;
      movie_pid; movie_paid; movie_file;
      preview_pid; preview_paid; preview_file;
      poster_pid; poster_paid; poster_file].

(** ** The collaborators *)

(** What the package model imports and calls but does not define: the
    configured skip list ([param_skip]), path arithmetic ([os.path.split] and
    [os.path.join]), the file system, [hashlib.md5], the two media probes
    ([check_video], [check_picture]) and float arithmetic. *)
Record Env : Type := mkEnv {
  param_skip : list string;
  (** [os.path.join(os.path.split(xml_path)[0], ae_name)] *)
  sibling_path : string -> string -> string;
  (** the bytes of a regular file, [None] where there is no file *)
  fs : string -> option (list Byte.byte);
  (** [hashlib.md5(data).hexdigest()] *)
  md5_hexdigest : list Byte.byte -> string;
  (** the probes: [None] where the probe itself fails *)
  check_video : string -> option (dict (dict string));
  check_picture : string -> option (dict (dict string));
  (** [round(float(s))]: [None] where [float] rejects the string *)
  round_float : string -> option Z;
  (** [round(float(s) / 1000)] *)
  round_float_div_1000 : string -> option Z
}.

(** The result of a collaborator that may fail with its own error. *)
Definition or_raise {A} (o : option A) (e : Exn) : Result A :=
  match o with
  | Some a => Ok a
  | None => Raise e
  end.

(** A call of a media probe, as seen from outside. *)
Inductive Probe : Type :=
| VideoProbe (path : string)
| ImageProbe (path : string).

(** The package together with the probe calls made so far. *)
Record World : Type := mkWorld {
  self : VodPackage;
  probes : list Probe
}.

(** Run a method of the package inside the world. *)
Definition on_self {A} (m : M VodPackage A) : M World A :=
  fun w => let '(r, s) := m (self w) in (r, mkWorld s (probes w)).

Definition log_probe (p : Probe) : M World unit :=
  modify (fun w => mkWorld (self w) (probes w ++ [p])).

Section WithEnv.

Variable env : Env.

(** *** [md5_checksum.py] *)

(** [infile.read(n)]: the bytes read and the bytes left. *)
Definition read (n : Z) (rest : list Byte.byte)
  : list Byte.byte * list Byte.byte :=
  if n <? 0 then (rest, [])
  else (firstn (Z.to_nat n) rest, skipn (Z.to_nat n) rest).

(** The [while 1] loop; [checksum] is what has been fed to the hash.  Every
    round but the last consumes a byte at least, so a fuel of the length of
    the file plus one is never used up. *)
Fixpoint md5_loop (fuel : nat) (chunk_bytes : Z)
         (rest checksum : list Byte.byte) : option (list Byte.byte) :=
  match fuel with
  | O => None
  | S fuel' =>
      let '(data, rest') := read chunk_bytes rest in
      match data with
      | [] => Some checksum
      | _ => md5_loop fuel' chunk_bytes rest' (checksum ++ data)
      end
  end.

Definition md5_checksum_chunked (file_path : string) (chunk_bytes : Z)
  : Result string :=
  match fs env file_path with
  | None => Raise (IOError file_path)
  | Some content =>
      match md5_loop (S (length content)) chunk_bytes content [] with
      | Some fed => Ok (md5_hexdigest env fed)
      | None => Raise (IOError file_path)
      end
  end.

Definition md5_checksum (file_path : string) : Result string :=
  md5_checksum_chunked file_path 163840.

Definition isfile (path : string) : bool :=
  match fs env path with Some _ => true | None => false end.

Definition getsize (path : string) : Result Z :=
  match fs env path with
  | Some content => Ok (Z.of_nat (length content))
  | None => Raise (IOError path)
  end.

(** *** Rescan: [files_present], [_scan_video], [_scan_image],
    [check_files] *)

Definition files_present (s : VodPackage) : bool :=
  forallb (fun item => isfile (sibling_path env (xml_path s) (snd item)))
          (D_content s).

(** Lines 237-247 of [_scan_video]: the codec. *)
Definition scan_codec (ae_type commercial_name format_profile : string)
  : M VodPackage unit :=
  if String.eqb commercial_name "MPEG-2 Video" then
    set_app ae_type "Codec" (Single "MPEG2")
  else if String.eqb commercial_name "AVC" then
    avc_profile <- lift (first_char format_profile) ;;
    let avc_level :=
      remove_char "." (slice_from (find_char "@" format_profile)
                                  format_profile) in
    set_app ae_type "Codec" (Single ("AVC " ++ avc_profile ++ "P" ++ avc_level))
  else
    s <- get ;;
    name <- lift (subscript (D_content s) ae_type) ;;
    raise (InvalidMpeg ("Could not determine codec for " ++ name)).

(** The body of [_scan_video] after the probe has answered: from here on
    only the package changes. *)
Definition scan_video_info (ae_type : string) (mpeg_info : dict (dict string))
  : M VodPackage unit :=
  (* run time *)
  general <- lift (subscript mpeg_info "General") ;;
  duration <- lift (subscript general "Duration") ;;
  duration_s <- lift (or_raise (round_float_div_1000 env duration)
                               ValueError) ;;
  let duration_h := duration_s / 3600 in
  let duration_s := duration_s mod 3600 in
  let duration_m := duration_s / 60 in
  let duration_s := duration_s mod 60 in
  let duration_h := format02 duration_h in
  let duration_m := format02 duration_m in
  let duration_s := format02 duration_s in
  (if String.eqb ae_type "movie" then
     set_app "title" "Run_Time"
             (Single (duration_h ++ ":" ++ duration_m ++ ":" ++ duration_s)) ;;
     set_app "title" "Display_Run_Time"
             (Single (duration_h ++ ":" ++ duration_m))
   else if String.eqb ae_type "preview" then
     set_app "preview" "Run_Time"
             (Single (duration_h ++ ":" ++ duration_m ++ ":" ++ duration_s))
   else ret tt) ;;
  (* codec *)
  video <- lift (subscript mpeg_info "Video") ;;
  commercial_name <- lift (subscript video "Commercial name") ;;
  video <- lift (subscript mpeg_info "Video") ;;
  format_profile <- lift (subscript video "Format profile") ;;
  scan_codec ae_type commercial_name format_profile ;;
  (* audio type *)
  audio <- lift (subscript mpeg_info "Audio") ;;
  audio_type <- lift (match dict_get "Channel(s)" audio with
                      | Some c => int_limited c
                      | None => Ok 0
                      end) ;;
  set_app ae_type "Audio_Type"
          (Single (if 1 <? audio_type then "Stereo" else "Mono")) ;;
  (* geometry *)
  video <- lift (subscript mpeg_info "Video") ;;
  movie_resolution_height <- lift (subscript video "Height") ;;
  video <- lift (subscript mpeg_info "Video") ;;
  scan_type <- lift (subscript video "Scan type") ;;
  scan_initial <- lift (first_char scan_type) ;;
  let move_resolution_scan := lower scan_initial in
  set_app ae_type "Resolution"
          (Single (movie_resolution_height ++ move_resolution_scan)) ;;
  (* frame rate and bit rate *)
  video <- lift (subscript mpeg_info "Video") ;;
  frame_rate <- lift (subscript video "Frame rate") ;;
  frame_rate <- lift (or_raise (round_float env frame_rate) ValueError) ;;
  set_app ae_type "Frame_Rate" (Single (str frame_rate)) ;;
  general <- lift (subscript mpeg_info "General") ;;
  bit_rate <- lift (subscript general "Overall bit rate") ;;
  bit_rate <- lift (or_raise (round_float_div_1000 env bit_rate) ValueError) ;;
  set_app ae_type "Bit_Rate" (Single (str bit_rate)).

(** [_scan_video]: the call of [check_video], then the body. *)
Definition _scan_video (ae_type ae_path : string) : M World unit :=
  log_probe (VideoProbe ae_path) ;;
  mpeg_info <- lift (or_raise (check_video env ae_path)
                              (ProbeFailure ae_path)) ;;
  on_self (scan_video_info ae_type mpeg_info).

Definition scan_image_info (img_info : dict (dict string))
  : M VodPackage unit :=
  image <- lift (subscript img_info "Image") ;;
  img_width <- lift (subscript image "Width") ;;
  image <- lift (subscript img_info "Image") ;;
  img_height <- lift (subscript image "Height") ;;
  set_app "poster" "Image_Aspect_Ratio"
          (Single (img_width ++ "x" ++ img_height)).

(** [_scan_image]: the call of [check_picture], then the body. *)
Definition _scan_image (ae_path : string) : M World unit :=
  log_probe (ImageProbe ae_path) ;;
  img_info <- lift (or_raise (check_picture env ae_path)
                             (ProbeFailure ae_path)) ;;
  on_self (scan_image_info img_info).

(** The body of the [for] loop of [check_files]; it returns the value the
    loop variable [ae_path] is left with. *)
Definition check_files_step (ae_type ae_name : string)
  : M VodPackage string :=
  s <- get ;;
  let ae_path := sibling_path env (xml_path s) ae_name in
  if negb (isfile ae_path) then
    raise (MissingElement
             ("Package's " ++ ae_type ++ " element is missing - " ++ ae_path))
  else
    size <- lift (getsize ae_path) ;;
    set_app ae_type "Content_FileSize" (Single (str size)) ;;
    checksum <- lift (md5_checksum ae_path) ;;
    set_app ae_type "Content_CheckSum" (Single checksum) ;;
    ret ae_path.

(** The loop, threading [ae_path]: [None] while the name is unbound. *)
Fixpoint check_files_loop (items : list (string * string))
         (ae_path : option string) : M VodPackage (option string) :=
  match items with
  | [] => ret ae_path
  | (ae_type, ae_name) :: items' =>
      p <- check_files_step ae_type ae_name ;;
      check_files_loop items' (Some p)
  end.

Definition check_files : M World unit :=
  ae_path <- on_self (s <- get ;;
                      check_files_loop (D_content s) None) ;;
  match ae_path with
  | None => raise (UnboundLocalError "ae_path")
  | Some ae_path =>
      _scan_video "movie" ae_path ;;
      w <- get ;;
      (if has_preview (self w) then _scan_video "preview" ae_path
       else ret tt) ;;
      w <- get ;;
      (if has_poster (self w) then _scan_image ae_path else ret tt)
  end.

(** *** Serializing: [_write_App_Data], [write_xml] *)

(** One [App_Data] element appended to [parent_Metadata]. *)
Definition write_App_Data_element (s : VodPackage) (key : string)
           (value : Result string) (parent_Metadata : Element)
  : Result Element :=
  let ae_App_Data := Elem "App_Data" [] [] in
  package <-- subscript (D_ams s) "package" ;;
  product <-- subscript package "Product" ;;
  let ae_App_Data := elem_set ae_App_Data "App" product in
  let ae_App_Data := elem_set ae_App_Data "Name" key in
  v <-- value ;;
  let ae_App_Data := elem_set ae_App_Data "Value" v in
  Ok (append_child parent_Metadata ae_App_Data).

Definition write_App_Data_item (s : VodPackage) (parent_Metadata : Element)
           (item : string * AppValue) : Result Element :=
  let '(key, value) := item in
  if mem_string key (param_skip env) then Ok parent_Metadata
  else if mem_string key _multiples then
    (* [for v in value]: the entries of a list, the characters of a str *)
    let vs := match value with
              | Multiple vs => vs
              | Single v => chars v
              end in
    rfor_each vs parent_Metadata
              (fun parent v => write_App_Data_element s key (Ok v) parent)
  else
    (* [set("Value", value)] takes a str only *)
    write_App_Data_element s key
      (match value with
       | Single v => Ok v
       | Multiple _ => Raise TypeError
       end) parent_Metadata.

Definition _write_App_Data (s : VodPackage) (ae_type : string)
           (parent_Metadata : Element) : Result Element :=
  app <-- subscript (D_app s) ae_type ;;
  rfor_each (sorted_items app) parent_Metadata (write_App_Data_item s).

(** An [AMS] element with the attributes of a section set in sorted order. *)
Definition write_AMS (attrs : dict string) : Element :=
  fold_left (fun ams kv => elem_set ams (fst kv) (snd kv))
            (sorted_items attrs) (Elem "AMS" [] []).

(** [Metadata] with its [AMS] child and its [App_Data] children. *)
Definition write_Metadata (s : VodPackage) (ae_type : string)
  : Result Element :=
  let Metadata := Elem "Metadata" [] [] in
  attrs <-- subscript (D_ams s) ae_type ;;
  let Metadata := append_child Metadata (write_AMS attrs) in
  _write_App_Data s ae_type Metadata.

Definition write_asset_element (s : VodPackage) (title_Asset : Element)
           (ae_type : string) : Result Element :=
  if negb (dict_mem ae_type (D_ams s)) then Ok title_Asset
  else
    let ae_Asset := Elem "Asset" [] [] in
    ae_Metadata <-- write_Metadata s ae_type ;;
    let ae_Asset := append_child ae_Asset ae_Metadata in
    let ae_Asset :=
      match dict_get ae_type (D_content s) with
      | Some value =>
          append_child ae_Asset (elem_set (Elem "Content" [] []) "Value" value)
      | None => ae_Asset
      end in
    Ok (append_child title_Asset ae_Asset).

(** The tree that [write_xml] hands to [etree.tostring]. *)
Definition build_ADI (s : VodPackage) : Result Element :=
  let ADI := Elem "ADI" [] [] in
  package_Metadata <-- write_Metadata s "package" ;;
  let ADI := append_child ADI package_Metadata in
  let title_Asset := Elem "Asset" [] [] in
  title_Metadata <-- write_Metadata s "title" ;;
  let title_Asset := append_child title_Asset title_Metadata in
  title_Asset <-- rfor_each ["movie"; "preview"; "poster"] title_Asset
                            (write_asset_element s) ;;
  Ok (append_child ADI title_Asset).

Definition movie_missing : Exn :=
  MissingElement "Package does not specify a movie element".

Definition write_xml (rewrite : bool) : M World Element :=
  w <- get ;;
  if negb (dict_mem "movie" (D_ams (self w))) then raise movie_missing
  else
    (if rewrite then check_files else ret tt) ;;
    w <- get ;;
    lift (build_ADI (self w)).

End WithEnv.

(** * Vocabulary of the statements *)

(** The definitions that the lemmas and theorems below are stated with:
    observations of a document and of a package, the relations between a
    source document and a written one, and the sample data. *)

(** The order on items that [sorted_items] sorts by. *)
Definition key_le {V} (x y : string * V) : Prop :=
  String.leb (fst x) (fst y) = true.

Definition is_digit (d : Z) : Prop := 0 <= d <= 9.

Definition digits_value (acc : Z) (ds : list Z) : Z :=
  fold_left (fun a d => 10 * a + d) ds acc.

Fixpoint no_space (s : string) : bool :=
  match s with
  | EmptyString => true
  | String c s' => negb (is_space c) && no_space s'
  end.

(** [keeps R P m]: whatever [m] does, the state it leaves is related by [R]
    to the state it started in, and an exception it raises satisfies [P]. *)
Definition keeps {S A} (R : S -> S -> Prop) (P : Exn -> Prop) (m : M S A)
  : Prop :=
  forall s, R s (snd (m s)) /\ (forall e, fst (m s) = Raise e -> P e).

(** What a failing pure computation can raise. *)
Definition raises {A} (P : Exn -> Prop) (r : Result A) : Prop :=
  forall e, r = Raise e -> P e.

(** The same for a method of the package run inside the world. *)
Definition on_package (R : VodPackage -> VodPackage -> Prop)
  : World -> World -> Prop :=
  fun w w' => R (self w) (self w').

(** The exceptions of [check_files]: every kind but TypeError and
    AttributeError, and a MissingElement only with the message for a missing
    content file. *)
Definition rescan_exn (e : Exn) : Prop :=
  match e with
  | MissingElement msg =>
      exists ae_type ae_path,
        msg = "Package's " ++ ae_type ++ " element is missing - " ++ ae_path
  | TypeError | AttributeError => False
  | _ => True
  end.

Definition build_exn (e : Exn) : Prop :=
  match e with
  | KeyError _ | TypeError => True
  | _ => False
  end.

Definition App_Data_elem (app name value : string) : Element :=
  Elem "App_Data" [("App", app); ("Name", name); ("Value", value)] [].

Definition sample_AMS (asset_class asset_id : string) : Element :=
  Elem "AMS" [("Provider", "001"); ("Product", "MOD");
              ("Asset_Name", asset_id); ("Version_Major", "1");
              ("Version_Minor", "0"); ("Provider_ID", "example.com");
              ("Asset_ID", asset_id); ("Asset_Class", asset_class)] [].

(** A package with a title, a movie, a preview and a poster, each asset
    with its content file; the title has three [Genre] entries. *)
Definition sample_ADI : Element :=
  Elem "ADI" []
    [Elem "Metadata" []
       [sample_AMS "package" "PACK0001";
        App_Data_elem "MOD" "Provider_Content_Tier" "TIER1";
        App_Data_elem "MOD" "Metadata_Spec_Version" "CableLabsVOD1.1"];
     Elem "Asset" []
       [Elem "Metadata" []
          [sample_AMS "title" "TITL0001";
           App_Data_elem "MOD" "Type" "title";
           App_Data_elem "MOD" "Genre" "A";
           App_Data_elem "MOD" "Title" "Example";
           App_Data_elem "MOD" "Genre" "B";
           App_Data_elem "MOD" "Genre" "C"];
        Elem "Asset" []
          [Elem "Metadata" []
             [sample_AMS "movie" "MOVI0001";
              App_Data_elem "MOD" "Type" "movie";
              App_Data_elem "MOD" "Codec" "MPEG2"];
           Elem "Content" [("Value", "movie.mpg")] []];
        Elem "Asset" []
          [Elem "Metadata" []
             [sample_AMS "preview" "PREV0001";
              App_Data_elem "MOD" "Type" "preview"];
           Elem "Content" [("Value", "preview.mpg")] []];
        Elem "Asset" []
          [Elem "Metadata" []
             [sample_AMS "poster" "POST0001";
              App_Data_elem "MOD" "Type" "poster"];
           Elem "Content" [("Value", "poster.bmp")] []]]].

(** The same package as an update would ship it: the preview asset has no
    [Content] element. *)
Definition sample_ADI_preview_without_content : Element :=
  Elem "ADI" []
    [Elem "Metadata" []
       [sample_AMS "package" "PACK0001"];
     Elem "Asset" []
       [Elem "Metadata" []
          [sample_AMS "title" "TITL0001"];
        Elem "Asset" []
          [Elem "Metadata" []
             [sample_AMS "movie" "MOVI0001"];
           Elem "Content" [("Value", "movie.mpg")] []];
        Elem "Asset" []
          [Elem "Metadata" []
             [sample_AMS "preview" "PREV0001"]]]].

(** A package with a movie and a preview, each with its content file. *)
Definition sample_ADI_movie_preview : Element :=
  Elem "ADI" []
    [Elem "Metadata" []
       [sample_AMS "package" "PACK0001"];
     Elem "Asset" []
       [Elem "Metadata" []
          [sample_AMS "title" "TITL0001"];
        Elem "Asset" []
          [Elem "Metadata" []
             [sample_AMS "movie" "MOVI0001"];
           Elem "Content" [("Value", "movie.mpg")] []];
        Elem "Asset" []
          [Elem "Metadata" []
             [sample_AMS "preview" "PREV0001"];
           Elem "Content" [("Value", "preview.mpg")] []]]].

Definition empty_package : VodPackage :=
  mkVodPackage "" [] [] [] false false false false.

Definition loaded (path : string) (ADI : Element) : VodPackage :=
  match __init__ path ADI with
  | Ok s => s
  | Raise _ => empty_package
  end.

Definition sample_package : VodPackage := loaded "adi.xml" sample_ADI.

Definition sample_mpeg_info (commercial_name format_profile : string)
  : dict (dict string) :=
  [("General", [("Duration", "3661000"); ("Overall bit rate", "3750000")]);
   ("Video", [("Commercial name", commercial_name);
              ("Format profile", format_profile);
              ("Height", "1080"); ("Scan type", "Progressive");
              ("Frame rate", "29.970")]);
   ("Audio", [("Channel(s)", "2")])].

(** Three content files next to the XML file; the movie is AVC, anything
    else that is probed is MPEG-2. *)
Definition sample_env (skip : list string) : Env :=
  {| param_skip := skip;
     sibling_path := fun _ ae_name => ae_name;
     fs := fun path =>
             if String.eqb path "movie.mpg" then Some [Byte.x00; Byte.x01]
             else if String.eqb path "preview.mpg" then Some [Byte.x02]
             else if String.eqb path "poster.bmp" then Some []
             else None;
     md5_hexdigest := fun data => str (Z.of_nat (length data));
     check_video := fun path =>
                      if String.eqb path "movie.mpg"
                      then Some (sample_mpeg_info "AVC" "High@L4.0")
                      else Some (sample_mpeg_info "MPEG-2 Video" "Main@Main");
     check_picture := fun _ => Some [("Image", [("Width", "320");
                                                ("Height", "240")])];
     round_float := fun _ => Some 30;
     round_float_div_1000 := fun s => option_map (fun z => z / 1000)
                                                 (int_opt s) |}.

(** [self.D_app[ae_type][key]], where it exists. *)
Definition app_value (ae_type key : string) (s : VodPackage)
  : option AppValue :=
  match dict_get ae_type (D_app s) with
  | Some a => dict_get key a
  | None => None
  end.

(** The integer that [int(attrs["Version_Major"])] gives, if any. *)
Definition version_of (attrs : dict string) : option Z :=
  match dict_get "Version_Major" attrs with
  | Some v => match int_limited v with
              | Ok z => Some z
              | Raise _ => None
              end
  | None => None
  end.

(** [str(z)] is within the interpreter's limit of digits. *)
Definition writable (z : Z) : bool :=
  (digit_count (str z) <=? int_max_str_digits)%nat.

(** [make_update] can advance the section: its [Version_Major] reads as an
    integer, and the next integer can be written back. *)
Definition advances (attrs : dict string) : bool :=
  match version_of attrs with
  | Some z => writable (z + 1)
  | None => false
  end.

(** Every character of the string is an ASCII character. *)
Definition is_ascii (s : string) : bool :=
  forallb (fun c => (nat_of_ascii c <? 128)%nat) (list_ascii_of_string s).

(** The decimal numeral of [n] nines. *)
Definition nines (n : nat) : string :=
  string_of_list_ascii (repeat "9"%char n).

(** The attributes of a section after one [make_update]. *)
Definition bumped (attrs : dict string) : dict string :=
  match version_of attrs with
  | Some z => dict_set "Version_Major" (str (z + 1)) attrs
  | None => attrs
  end.

(** The [AMS] element of an asset element, its class and its content
    reference, as [__init__] finds them. *)
Definition asset_AMS (ae_Asset : Element) : option Element :=
  match find "Metadata" ae_Asset with
  | Some m => find "AMS" m
  | None => None
  end.

Definition asset_class (ae_Asset : Element) : option string :=
  match asset_AMS ae_Asset with
  | Some a => dict_get "Asset_Class" (attrib_of a)
  | None => None
  end.

(** The asset elements nested in the title asset. *)
Definition asset_elements (ADI : Element) : list Element :=
  match find "Asset" ADI with
  | Some title_Asset => findall "Asset" title_Asset
  | None => []
  end.

(** [is_update] says that the package's [Version_Major] is not "1", and
    [is_delete] that the package's [Verb] is "DELETE". *)
Definition flags_in_sync (s : VodPackage) : bool :=
  match dict_get "package" (D_ams s) with
  | Some package =>
      match dict_get "Version_Major" package with
      | Some version =>
          Bool.eqb (is_update s) (negb (String.eqb version "1"))
          && Bool.eqb (is_delete s)
                      (String.eqb (dict_get_default package "Verb" "") "DELETE")
      | None => false
      end
  | None => false
  end.

(** The package section and the two flags are the same in both states. *)
Definition same_package_flags (s s' : VodPackage) : Prop :=
  dict_get "package" (D_ams s') = dict_get "package" (D_ams s) /\
  is_update s' = is_update s /\ is_delete s' = is_delete s.

(** A package of a single section, whose version is [version]. *)
Definition sample_ADI_version (version : string) : Element :=
  let ams asset_class :=
    Elem "AMS" [("Product", "MOD"); ("Version_Major", version);
                ("Asset_Class", asset_class)] [] in
  Elem "ADI" []
    [Elem "Metadata" [] [ams "package"];
     Elem "Asset" []
       [Elem "Metadata" [] [ams "title"];
        Elem "Asset" [] [Elem "Metadata" [] [ams "movie"]]]].

Definition add_children (parent : Element) (cs : list Element) : Element :=
  match parent with Elem t a c => Elem t a (c ++ cs) end.

(** [self.D_ams["package"]["Product"]], where it exists. *)
Definition package_product (s : VodPackage) : option string :=
  match dict_get "package" (D_ams s) with
  | Some package => dict_get "Product" package
  | None => None
  end.

Definition product_or_empty (s : VodPackage) : string :=
  match package_product s with Some p => p | None => "" end.

(** The values written for one item of a section's App_Data. *)
Definition emitted_values (skip : list string) (key : string)
           (value : AppValue) : list string :=
  if mem_string key skip then []
  else match value with
       | Multiple vs => if mem_string key _multiples then vs else []
       | Single v => if mem_string key _multiples then chars v else [v]
       end.

(** The (name, value) pairs written for a section's App_Data. *)
Definition emitted_pairs (skip : list string) (app : dict AppValue)
  : list (string * string) :=
  flat_map (fun kv => map (pair (fst kv))
                          (emitted_values skip (fst kv) (snd kv)))
           (sorted_items app).

(** A list kept for a name is written as a list only for a name in
    [_multiples]; for another name the write is a TypeError. *)
Definition item_typed (skip : list string) (item : string * AppValue) : bool :=
  match snd item with
  | Multiple _ => mem_string (fst item) skip || mem_string (fst item) _multiples
  | Single _ => true
  end.

Definition name_of (e : Element) : string :=
  dict_get_default (attrib_of e) "Name" "".

Definition value_of (e : Element) : string :=
  dict_get_default (attrib_of e) "Value" "".



(** The (name, value) pairs of the App_Data children of a Metadata element,
    in document order. *)
Definition app_data_pairs (Metadata : Element) : list (string * string) :=
  map (fun e => (name_of e, value_of e)) (findall "App_Data" Metadata).

Definition has_class (k : string) (ae_Asset : Element) : bool :=
  match asset_class ae_Asset with
  | Some t => String.eqb t k
  | None => false
  end.

(** The asset element of class [k]. *)
Fixpoint asset_of_class (k : string) (assets : list Element)
  : option Element :=
  match assets with
  | [] => None
  | a :: rest => if has_class k a then Some a else asset_of_class k rest
  end.

(** The Asset element that holds a section, for the three asset classes. *)
Definition section_Asset (ADI : Element) (sec : string) : option Element :=
  if String.eqb sec "package" then None
  else if String.eqb sec "title" then None
  else asset_of_class sec (asset_elements ADI).

(** The Metadata element of a section of the document. *)
Definition section_Metadata (ADI : Element) (sec : string) : option Element :=
  if String.eqb sec "package" then find "Metadata" ADI
  else if String.eqb sec "title" then
    match find "Asset" ADI with
    | Some title_Asset => find "Metadata" title_Asset
    | None => None
    end
  else
    match section_Asset ADI sec with
    | Some a => find "Metadata" a
    | None => None
    end.

(** The AMS attributes of a section, in document order. *)
Definition section_AMS (ADI : Element) (sec : string) : option (dict string) :=
  match section_Metadata ADI sec with
  | Some m => option_map attrib_of (find "AMS" m)
  | None => None
  end.

(** The App_Data (name, value) pairs of a section, in document order. *)
Definition section_App_Data (ADI : Element) (sec : string)
  : option (list (string * string)) :=
  option_map app_data_pairs (section_Metadata ADI sec).

(** The content reference of a section. *)
Definition section_Content (ADI : Element) (sec : string) : option string :=
  match section_Asset ADI sec with
  | Some a => match find "Content" a with
              | Some c => dict_get "Value" (attrib_of c)
              | None => None
              end
  | None => None
  end.

(** Every App_Data child has a Name and a Value, and a name outside
    [_multiples] occurs once at most. *)
Definition metadata_ok (Metadata : Element) : bool :=
  forallb (fun e => dict_mem "Name" (attrib_of e)
                    && dict_mem "Value" (attrib_of e))
          (findall "App_Data" Metadata)
  && nodup_keys (filter (fun k => negb (mem_string k _multiples))
                        (map fst (app_data_pairs Metadata))).

(** A Metadata child with an AMS child whose attribute names are distinct. *)
Definition section_ok (e : Element) : bool :=
  match find "Metadata" e with
  | Some m =>
      match find "AMS" m with
      | Some a => dict_wf (attrib_of a) && metadata_ok m
      | None => false
      end
  | None => false
  end.

Definition asset_ok (ae_Asset : Element) : bool :=
  section_ok ae_Asset
  && match asset_class ae_Asset with
     | Some t => mem_string t ["movie"; "preview"; "poster"]
     | None => false
     end
  && match find "Content" ae_Asset with
     | Some c => dict_mem "Value" (attrib_of c)
     | None => true
     end.

Definition class_or_empty (ae_Asset : Element) : string :=
  match asset_class ae_Asset with Some t => t | None => "" end.

(** A well-formed package document: a package section with a version and a
    product, a title section, and nested assets of distinct classes among
    movie, preview and poster, a movie among them. *)
Definition well_formed (ADI : Element) : bool :=
  section_ok ADI
  && match section_AMS ADI "package" with
     | Some a => dict_mem "Version_Major" a && dict_mem "Product" a
     | None => false
     end
  && match find "Asset" ADI with
     | Some title_Asset => section_ok title_Asset
     | None => false
     end
  && forallb asset_ok (asset_elements ADI)
  && nodup_keys (map class_or_empty (asset_elements ADI))
  && mem_string "movie" (map class_or_empty (asset_elements ADI)).

(** [attrs'] is [attrs] in sorted key order. *)
Definition same_attributes (attrs' attrs : dict string) : Prop :=
  Permutation attrs' attrs /\ StronglySorted key_le attrs'.

(** [pairs'] is sorted by name, and for every name it has the values that
    [pairs] has for it, in the same order; but nothing for a name of the skip
    list. *)
Definition same_app_data (skip : list string)
           (pairs' pairs : list (string * string)) : Prop :=
  StronglySorted key_le pairs' /\
  forall key,
    filter (fun p => String.eqb (fst p) key) pairs'
    = if mem_string key skip then []
      else filter (fun p => String.eqb (fst p) key) pairs.

Definition option_rel {A} (R : A -> A -> Prop) (o' o : option A) : Prop :=
  match o', o with
  | Some a', Some a => R a' a
  | None, None => True
  | _, _ => False
  end.

(** The values that a list of pairs has for a name, in order. *)
Definition values_for (key : string) (pairs : list (string * string))
  : list string :=
  map snd (filter (fun p => String.eqb (fst p) key) pairs).

(** What the parsed dictionary holds for a name. *)
Definition parsed_value (key : string) (pairs : list (string * string))
  : option AppValue :=
  match values_for key pairs with
  | [] => None
  | vs => Some (if mem_string key _multiples then Multiple vs
                else Single (last vs ""))
  end.

Definition named (e : Element) : bool :=
  dict_mem "Name" (attrib_of e) && dict_mem "Value" (attrib_of e).

(** A section as [__init__] must have stored it: the attributes of the AMS
    element, and the parse of the App_Data children. *)
Definition section_loaded (m : Element) (attrs : option (dict string))
           (app : option (dict AppValue)) : Prop :=
  exists el parsed,
    find "AMS" m = Some el /\ dict_wf (attrib_of el) = true /\
    attrs = Some (attrib_of el) /\
    metadata_ok m = true /\
    app = Some parsed /\ dict_wf parsed = true /\
    (forall k, dict_get k parsed = parsed_value k (app_data_pairs m)).

Definition asset_content (ae_Asset : Element) : option string :=
  match find "Content" ae_Asset with
  | Some c => dict_get "Value" (attrib_of c)
  | None => None
  end.

(** What the loop over the asset elements leaves for a section name. *)
Definition asset_loaded (assets : list Element) (k : string)
           (ams0 ams : dict (dict string)) (app0 app : dict (dict AppValue))
           (content0 content : dict string) : Prop :=
  match asset_of_class k assets with
  | Some a =>
      (exists m, find "Metadata" a = Some m /\
                 section_loaded m (dict_get k ams) (dict_get k app)) /\
      dict_get k content = match asset_content a with
                           | Some v => Some v
                           | None => dict_get k content0
                           end
  | None =>
      dict_get k ams = dict_get k ams0 /\
      dict_get k app = dict_get k app0 /\
      dict_get k content = dict_get k content0
  end.

Definition built_Metadata (skip : list string) (product : string)
           (attrs : dict string) (app : dict AppValue) : Element :=
  Elem "Metadata" []
       (Elem "AMS" (sorted_items attrs) []
        :: map (fun nv => App_Data_elem product (fst nv) (snd nv))
               (emitted_pairs skip app)).

Definition built_Asset (skip : list string) (product : string)
           (attrs : dict string) (app : dict AppValue)
           (content : option string) : Element :=
  Elem "Asset" []
       (built_Metadata skip product attrs app
        :: match content with
           | Some v => [Elem "Content" [("Value", v)] []]
           | None => []
           end).

(** A section that [write_xml] can write: distinct attribute names, and
    App_Data values of the kind their names ask for. *)
Definition section_writable (skip : list string) (s : VodPackage)
           (ae_type : string) (attrs : dict string) (app : dict AppValue)
  : Prop :=
  dict_get ae_type (D_ams s) = Some attrs /\ dict_wf attrs = true /\
  dict_get ae_type (D_app s) = Some app /\
  forallb (item_typed skip) (sorted_items app) = true.

(** The asset element written for a section, if the section is present. *)
Definition section_built (skip : list string) (s : VodPackage)
           (ae_type : string) : list Element :=
  match dict_get ae_type (D_ams s), dict_get ae_type (D_app s) with
  | Some attrs, Some app =>
      [built_Asset skip (product_or_empty s) attrs app
                   (dict_get ae_type (D_content s))]
  | _, _ => []
  end.

(** A section is as [write_xml] needs it, or absent. *)
Definition writable_or_absent (skip : list string) (s : VodPackage)
           (ae_type : string) : Prop :=
  (exists attrs app, section_writable skip s ae_type attrs app) \/
  dict_get ae_type (D_ams s) = None.

(** The attributes stored for an asset class say that class. *)
Definition class_keyed (s : VodPackage) (t : string) : Prop :=
  forall attrs, dict_get t (D_ams s) = Some attrs ->
                dict_wf attrs = true /\
                dict_get "Asset_Class" attrs = Some t.

(** A section of the source and of the written tree agree. *)
Definition section_round_trip (skip : list string) (ADI out : Element)
           (s : VodPackage) (sec : string) : Prop :=
  option_rel same_attributes (section_AMS out sec) (section_AMS ADI sec) /\
  option_rel (same_app_data skip)
             (section_App_Data out sec) (section_App_Data ADI sec) /\
  section_Content out sec = section_Content ADI sec /\
  (forall pairs key,
      section_App_Data ADI sec = Some pairs ->
      app_value sec key s = parsed_value key pairs).

(** Everything but [D_app] is left as it was. *)
Definition same_but_app (s s' : VodPackage) : Prop :=
  set_D_app (D_app s) s' = s.

(** The value the loop variable [ae_path] has after the loop. *)
Definition last_path (env : Env) (xml : string)
           (items : list (string * string)) (ae_path : option string)
  : option string :=
  fold_left (fun _ item => Some (sibling_path env xml (snd item)))
            items ae_path.

(** ** Vocabulary of the further properties *)

(** Everything but [D_ams] and the two mode flags is left as it was. *)
Definition same_but_ams (s s' : VodPackage) : Prop :=
  xml_path s' = xml_path s /\ D_app s' = D_app s /\
  D_content s' = D_content s /\ has_preview s' = has_preview s /\
  has_poster s' = has_poster s.

(** The sections of [D_ams], [D_app] and [D_content] other than [ae_type]
    are the same in both states. *)
Definition same_other_sections (ae_type : string) (s s' : VodPackage) : Prop :=
  forall k, k <> ae_type ->
            dict_get k (D_ams s') = dict_get k (D_ams s) /\
            dict_get k (D_app s') = dict_get k (D_app s) /\
            dict_get k (D_content s') = dict_get k (D_content s).

Definition remove_ae_error (ae_type : string) : Exn :=
  MissingElement ("Package does not content a " ++ ae_type ++ " element").

(** The App_Data names that a rescan stores. *)
Definition rescan_keys : list string :=
  ["Content_FileSize"; "Content_CheckSum"; "Run_Time"; "Display_Run_Time";
   "Codec"; "Audio_Type"; "Resolution"; "Frame_Rate"; "Bit_Rate";
   "Image_Aspect_Ratio"].

(** What a rescan may change of the package: values of the App_Data names
    it stores, in sections that exist. *)
Definition rescan_frame (s s' : VodPackage) : Prop :=
  same_but_app s s' /\
  dict_keys (D_app s') = dict_keys (D_app s) /\
  forall t k, ~ In k rescan_keys -> app_value t k s' = app_value t k s.

Definition missing_file_error (ae_type ae_path : string) : Exn :=
  MissingElement
    ("Package's " ++ ae_type ++ " element is missing - " ++ ae_path).

Definition is_MissingElement (e : Exn) : bool :=
  match e with MissingElement _ => true | _ => false end.

(** The file of a content reference is there. *)
Definition content_present (env : Env) (xml : string)
           (item : string * string) : bool :=
  isfile env (sibling_path env xml (snd item)).

(** No value of a name of [_multiples] is a plain string. *)
Definition multiples_are_lists (D : dict AppValue) : Prop :=
  forall key v, dict_get key D = Some (Single v) ->
                mem_string key _multiples = false.

(** What [make_update] may change of the package besides [D_content] and
    [is_update]: the [Version_Major] of a section. *)
Definition update_frame (s s' : VodPackage) : Prop :=
  dict_keys (D_ams s') = dict_keys (D_ams s) /\
  (forall sec, option_rel (fun a' a => forall k, k <> "Version_Major" ->
                                                 dict_get k a' = dict_get k a)
                          (dict_get sec (D_ams s')) (dict_get sec (D_ams s))) /\
  xml_path s' = xml_path s /\ D_app s' = D_app s /\
  has_preview s' = has_preview s /\ has_poster s' = has_poster s /\
  is_delete s' = is_delete s.

(** [has_preview] and [has_poster] say whether [D_ams] has the section. *)
Definition optional_flags_in_sync (s : VodPackage) : bool :=
  Bool.eqb (has_preview s) (dict_mem "preview" (D_ams s))
  && Bool.eqb (has_poster s) (dict_mem "poster" (D_ams s)).

(** A section's App_Data holds a list only for a name of [_multiples]. *)
Definition lists_under_multiples (app : dict AppValue) : bool :=
  forallb (item_typed []) app.

(** Every section of [D_app] does. *)
Definition app_typed (s : VodPackage) : bool :=
  forallb (fun sa => lists_under_multiples (snd sa)) (D_app s).

Definition is_KeyError (e : Exn) : Prop := exists key, e = KeyError key.

(** "HH:MM:SS" and "HH:MM" of a number of seconds. *)
Definition run_time (h m sec : Z) : string :=
  format02 h ++ ":" ++ format02 m ++ ":" ++ format02 sec.

Definition display_run_time (h m : Z) : string :=
  format02 h ++ ":" ++ format02 m.

(** The number of audio channels that [_scan_video] reads. *)
Definition channels_of (audio : dict string) : option Z :=
  match dict_get "Channel(s)" audio with
  | Some c => int_opt c
  | None => Some 0
  end.

(** No section of [D_ams] or of [D_app] has a repeated key. *)
Definition sections_wf (s : VodPackage) : Prop :=
  (forall sec attrs, dict_get sec (D_ams s) = Some attrs ->
                     dict_wf attrs = true) /\
  (forall sec app, dict_get sec (D_app s) = Some app -> dict_wf app = true).

(** The two packages hold the same sections with the same entries, in
    whatever order the dictionaries list them. *)
Definition same_up_to_order (s s' : VodPackage) : Prop :=
  (forall sec, option_rel (@Permutation (string * string))
                          (dict_get sec (D_ams s')) (dict_get sec (D_ams s))) /\
  (forall sec, option_rel (@Permutation (string * AppValue))
                          (dict_get sec (D_app s')) (dict_get sec (D_app s))) /\
  (forall sec, dict_get sec (D_content s') = dict_get sec (D_content s)).

(** The tree that [write_xml] writes for a package. *)
Definition written_tree (skip : list string) (s : VodPackage)
           (pattrs tattrs : dict string) (papp tapp : dict AppValue)
  : Element :=
  Elem "ADI" []
       [built_Metadata skip (product_or_empty s) pattrs papp;
        Elem "Asset" []
             (built_Metadata skip (product_or_empty s) tattrs tapp
              :: (section_built skip s "movie"
                  ++ section_built skip s "preview"
                  ++ section_built skip s "poster")%list)].

(** The last element of a list that satisfies [p]. *)
Definition last_such {A} (p : A -> bool) (l : list A) : option A :=
  List.find p (rev l).

(** An asset element of class [k] that has a Content child with a Value. *)
Definition with_content (k : string) (ae_Asset : Element) : bool :=
  has_class k ae_Asset
  && match asset_content ae_Asset with Some _ => true | None => false end.

(** The App_Data dictionary of an asset element. *)
Definition asset_App_Data (ae_Asset : Element) : option (dict AppValue) :=
  match find "Metadata" ae_Asset with
  | Some m => match _parse_App_Data m with
              | Ok D => Some D
              | Raise _ => None
              end
  | None => None
  end.

(** A document whose title holds two movie assets: the first with a content
    file, the second without. *)
Definition sample_ADI_two_movies : Element :=
  Elem "ADI" []
    [Elem "Metadata" []
       [sample_AMS "package" "PACK0001"];
     Elem "Asset" []
       [Elem "Metadata" []
          [sample_AMS "title" "TITL0001"];
        Elem "Asset" []
          [Elem "Metadata" []
             [sample_AMS "movie" "MOVI0001";
              App_Data_elem "MOD" "Codec" "MPEG2"];
           Elem "Content" [("Value", "first.mpg")] []];
        Elem "Asset" []
          [Elem "Metadata" []
             [sample_AMS "movie" "MOVI0002"]]]].

(** What [make_update] raises at a section that it cannot advance: KeyError
    where [Version_Major] is missing, ValueError where [int] refuses its
    value or [str] refuses the successor. *)
Definition version_error (attrs : dict string) : Exn :=
  if dict_mem "Version_Major" attrs then ValueError
  else KeyError "Version_Major".

(** A loadable document whose title section has no [Version_Major]. *)
Definition sample_ADI_title_without_version : Element :=
  Elem "ADI" []
    [Elem "Metadata" []
       [sample_AMS "package" "PACK0001"];
     Elem "Asset" []
       [Elem "Metadata" []
          [Elem "AMS" [("Asset_ID", "TITL0001"); ("Asset_Class", "title")] []];
        Elem "Asset" []
          [Elem "Metadata" []
             [sample_AMS "movie" "MOVI0001"];
           Elem "Content" [("Value", "movie.mpg")] []]]].

(** * Facts about the primitives *)

(** ** Strings and their order *)

Lemma ascii_compare_lt_trans (a b c : ascii) :
  Ascii.compare a b = Lt -> Ascii.compare b c = Lt -> Ascii.compare a c = Lt.
Proof.
  unfold Ascii.compare. rewrite !N.compare_lt_iff. lia.
Qed.

Lemma string_compare_lt_trans (a : string) :
  forall b c, String.compare a b = Lt -> String.compare b c = Lt ->
              String.compare a c = Lt.
Proof.
  induction a as [|x a IH]; intros [|y b] [|z c]; simpl;
    try discriminate; try reflexivity.
  destruct (Ascii.compare x y) eqn:Hxy; try discriminate;
    destruct (Ascii.compare y z) eqn:Hyz; try discriminate; intros H1 H2.
  - apply Ascii.compare_eq_iff in Hxy, Hyz. subst.
    replace (Ascii.compare z z) with Eq.
    + eauto.
    + symmetry. unfold Ascii.compare. apply N.compare_refl.
  - apply Ascii.compare_eq_iff in Hxy. subst. now rewrite Hyz.
  - apply Ascii.compare_eq_iff in Hyz. subst. now rewrite Hxy.
  - now rewrite (ascii_compare_lt_trans x y z).
Qed.

Lemma string_compare_refl (a : string) : String.compare a a = Eq.
Proof.
  induction a as [|x a IH]; simpl; [reflexivity|].
  replace (Ascii.compare x x) with Eq; [assumption|].
  symmetry. unfold Ascii.compare. apply N.compare_refl.
Qed.

Lemma leb_refl (a : string) : String.leb a a = true.
Proof. unfold String.leb. now rewrite string_compare_refl. Qed.

Lemma leb_trans (a b c : string) :
  String.leb a b = true -> String.leb b c = true -> String.leb a c = true.
Proof.
  unfold String.leb.
  destruct (String.compare a b) eqn:Hab; try discriminate;
    destruct (String.compare b c) eqn:Hbc; try discriminate; intros _ _.
  - apply String.compare_eq_iff in Hab, Hbc. subst.
    now rewrite string_compare_refl.
  - apply String.compare_eq_iff in Hab. subst. now rewrite Hbc.
  - apply String.compare_eq_iff in Hbc. subst. now rewrite Hab.
  - now rewrite (string_compare_lt_trans a b c).
Qed.

Lemma leb_false_flip (a b : string) :
  String.leb a b = false -> String.leb b a = true.
Proof.
  intros H. destruct (String.leb_total a b) as [H'|H']; congruence.
Qed.

Lemma mem_string_In (k : string) (l : list string) :
  mem_string k l = true <-> In k l.
Proof.
  induction l as [|x l IH]; simpl.
  - split; [discriminate | tauto].
  - rewrite orb_true_iff, IH, String.eqb_eq. split; intros [H|H]; auto.
Qed.

Lemma mem_string_not_In (k : string) (l : list string) :
  mem_string k l = false <-> ~ In k l.
Proof.
  rewrite <- mem_string_In. destruct (mem_string k l); split; congruence.
Qed.

Lemma nodup_keys_NoDup (l : list string) :
  nodup_keys l = true <-> NoDup l.
Proof.
  induction l as [|x l IH]; simpl.
  - split; [constructor | reflexivity].
  - rewrite andb_true_iff, negb_true_iff, mem_string_not_In, IH.
    split.
    + intros [H1 H2]. now constructor.
    + intros H. inversion H. auto.
Qed.

(** ** Dictionaries *)

Section DictFacts.

Context {V : Type}.
Implicit Types (d : dict V) (k : string) (v : V).

Lemma dict_get_In d k : forall v, dict_get k d = Some v -> In (k, v) d.
Proof.
  induction d as [|[k' v'] d IH]; simpl; intros v H; [discriminate|].
  destruct (String.eqb_spec k k').
  - inversion H. subst. now left.
  - right. auto.
Qed.

Lemma dict_get_None d k : dict_get k d = None <-> ~ In k (dict_keys d).
Proof.
  induction d as [|[k' v'] d IH]; simpl.
  - tauto.
  - destruct (String.eqb_spec k k').
    + split; [discriminate | intros H; exfalso; apply H; now left].
    + rewrite IH. split; intros H; [intros [E|E]; [congruence | auto] | auto].
Qed.

Lemma dict_mem_In d k : dict_mem k d = true <-> In k (dict_keys d).
Proof.
  unfold dict_mem. destruct (dict_get k d) eqn:E.
  - split; [intros _ | reflexivity].
    apply dict_get_In in E. now apply (in_map fst) in E.
  - split; [discriminate | intros H]. now apply dict_get_None in E.
Qed.

Lemma In_dict_get d k v :
  NoDup (dict_keys d) -> In (k, v) d -> dict_get k d = Some v.
Proof.
  induction d as [|[k' v'] d IH]; simpl; intros ND H; [tauto|].
  inversion ND as [|? ? Hn ND']; subst.
  destruct H as [H|H].
  - inversion H. subst. now rewrite String.eqb_refl.
  - destruct (String.eqb_spec k k').
    + subst. exfalso. apply Hn. now apply (in_map fst) in H.
    + auto.
Qed.

Lemma dict_get_set_same d k v : dict_get k (dict_set k v d) = Some v.
Proof.
  induction d as [|[k' v'] d IH]; simpl.
  - now rewrite String.eqb_refl.
  - destruct (String.eqb_spec k k'); simpl.
    + subst. now rewrite String.eqb_refl.
    + destruct (String.eqb_spec k k'); [congruence | assumption].
Qed.

Lemma dict_get_set_other d k k' v :
  k' <> k -> dict_get k' (dict_set k v d) = dict_get k' d.
Proof.
  intros Hne. induction d as [|[k0 v0] d IH]; simpl.
  - destruct (String.eqb_spec k' k); [congruence | reflexivity].
  - destruct (String.eqb_spec k k0); simpl.
    + subst. destruct (String.eqb_spec k' k0); [congruence | reflexivity].
    + now rewrite IH.
Qed.

Lemma dict_keys_set_present d k v :
  In k (dict_keys d) -> dict_keys (dict_set k v d) = dict_keys d.
Proof.
  induction d as [|[k0 v0] d IH]; simpl; intros H; [tauto|].
  destruct (String.eqb_spec k k0); simpl; [reflexivity|].
  f_equal. apply IH. destruct H; congruence.
Qed.

Lemma dict_keys_set_absent d k v :
  ~ In k (dict_keys d) ->
  dict_keys (dict_set k v d) = (dict_keys d ++ [k])%list.
Proof.
  induction d as [|[k0 v0] d IH]; simpl; intros H; [reflexivity|].
  destruct (String.eqb_spec k k0); simpl.
  - exfalso. apply H. now left.
  - f_equal. apply IH. tauto.
Qed.

Lemma dict_set_absent d k v :
  ~ In k (dict_keys d) -> dict_set k v d = (d ++ [(k, v)])%list.
Proof.
  induction d as [|[k0 v0] d IH]; simpl; intros H; [reflexivity|].
  destruct (String.eqb_spec k k0); simpl.
  - exfalso. apply H. now left.
  - f_equal. apply IH. tauto.
Qed.

Lemma dict_wf_set d k v : dict_wf d = true -> dict_wf (dict_set k v d) = true.
Proof.
  unfold dict_wf. rewrite !nodup_keys_NoDup. intros ND.
  destruct (List.in_dec string_dec k (dict_keys d)) as [Hin|Hnin].
  - now rewrite dict_keys_set_present.
  - rewrite dict_keys_set_absent by assumption.
    apply NoDup_app; [assumption | repeat constructor; simpl; tauto |].
    intros x Hx [E|[]]. subst. contradiction.
Qed.

Lemma dict_del_None d k : dict_del k d = None <-> dict_get k d = None.
Proof.
  induction d as [|[k0 v0] d IH]; simpl; [tauto|].
  destruct (String.eqb_spec k k0).
  - split; discriminate.
  - destruct (dict_del k d); rewrite <- IH; split; congruence.
Qed.

Lemma dict_get_del_other d k k' :
  forall d', dict_del k d = Some d' -> k' <> k ->
             dict_get k' d' = dict_get k' d.
Proof.
  induction d as [|[k0 v0] d IH]; simpl; intros d' H Hne; [discriminate|].
  destruct (String.eqb_spec k k0).
  - inversion H. subst.
    destruct (String.eqb_spec k' k0); [congruence | reflexivity].
  - destruct (dict_del k d) as [d0|] eqn:E; [|discriminate].
    inversion H. subst. simpl. now rewrite (IH d0).
Qed.

Lemma dict_get_del_same d k :
  forall d', NoDup (dict_keys d) -> dict_del k d = Some d' ->
             dict_get k d' = None.
Proof.
  induction d as [|[k0 v0] d IH]; simpl; intros d' ND H; [discriminate|].
  inversion ND as [|? ? Hn ND']; subst.
  destruct (String.eqb_spec k k0).
  - inversion H. subst. now apply dict_get_None.
  - destruct (dict_del k d) as [d0|] eqn:E; [|discriminate].
    inversion H. subst. simpl.
    destruct (String.eqb_spec k k0); [congruence | auto].
Qed.

End DictFacts.

(** ** [int] reads back what [str] prints *)

Ltac digit_cases d H :=
  let E := fresh "E" in
  assert (E : d = 0 \/ d = 1 \/ d = 2 \/ d = 3 \/ d = 4 \/
              d = 5 \/ d = 6 \/ d = 7 \/ d = 8 \/ d = 9)
    by (unfold is_digit in H; lia);
  repeat (destruct E as [E|E]; [subst d|]); [.. | subst d].

Lemma digit_of_digit_char (d : Z) :
  is_digit d ->
  digit_of (digit_char d) = Some d /\
  Ascii.eqb (digit_char d) "_" = false /\
  is_space (digit_char d) = false /\
  Ascii.eqb (digit_char d) "-" = false /\
  Ascii.eqb (digit_char d) "+" = false.
Proof.
  intros H. digit_cases d H; repeat split; reflexivity.
Qed.

Lemma parse_digits_string_of_digits (ds : list Z) :
  Forall is_digit ds ->
  forall acc after_digit,
    ds <> [] \/ after_digit = true ->
    parse_digits acc after_digit (string_of_digits ds)
    = Some (digits_value acc ds).
Proof.
  induction 1 as [|d ds Hd Hds IH]; intros acc after_digit Hne.
  - destruct Hne as [Hne|Hne]; [congruence | subst; reflexivity].
  - unfold string_of_digits in *.
    cbn [map string_of_list_ascii parse_digits].
    destruct (digit_of_digit_char d Hd) as (E1 & E2 & _).
    rewrite E2, E1. apply IH. now right.
Qed.

Lemma digits_of_spec (fuel : nat) :
  forall n, 0 <= n < 10 * 2 ^ Z.of_nat fuel ->
            Forall is_digit (digits_of fuel n) /\
            digits_of fuel n <> [] /\
            digits_value 0 (digits_of fuel n) = n.
Proof.
  induction fuel as [|fuel IH]; intros n Hn.
  - change (10 * 2 ^ Z.of_nat 0) with 10 in Hn. cbn [digits_of].
    assert (n mod 10 = n) by (apply Z.mod_small; lia).
    split; [|split].
    + constructor; [|constructor]. unfold is_digit. lia.
    + discriminate.
    + unfold digits_value. cbn [fold_left]. lia.
  - cbn [digits_of]. destruct (Z.ltb_spec n 10).
    + split; [|split].
      * constructor; [|constructor]. unfold is_digit. lia.
      * discriminate.
      * unfold digits_value. cbn [fold_left]. lia.
    + assert (Hq : 0 <= n / 10 < 10 * 2 ^ Z.of_nat fuel).
      { split; [apply Z.div_pos; lia|].
        apply Z.div_lt_upper_bound; [lia|].
        rewrite Nat2Z.inj_succ, Z.pow_succ_r in Hn by lia. lia. }
      destruct (IH _ Hq) as (F & Hne & Hv).
      split; [|split].
      * apply Forall_app. split; [assumption|].
        constructor; [|constructor]. unfold is_digit.
        pose proof (Z.mod_pos_bound n 10). lia.
      * intros E. apply app_eq_nil in E. destruct E. discriminate.
      * unfold digits_value in *. rewrite fold_left_app. cbn [fold_left].
        rewrite Hv. pose proof (Z.div_mod n 10). lia.
Qed.

Lemma str_nonneg_digits (n : Z) :
  0 <= n ->
  exists ds, str_nonneg n = string_of_digits ds /\
             Forall is_digit ds /\ ds <> [] /\ digits_value 0 ds = n.
Proof.
  intros Hn. exists (digits_of (Z.to_nat (Z.log2 n)) n).
  split; [reflexivity|]. apply digits_of_spec.
  rewrite Z2Nat.id by apply Z.log2_nonneg.
  destruct (Z.eq_dec n 0) as [->|Hz]; [change (Z.log2 0) with 0; lia|].
  assert (Hpos : 0 < n) by lia.
  pose proof (Z.log2_spec n Hpos) as Hl.
  rewrite Z.pow_succ_r in Hl by apply Z.log2_nonneg. lia.
Qed.

Lemma strip_no_space (s : string) : no_space s = true -> strip s = s.
Proof.
  intros H. unfold strip.
  assert (L : lstrip s = s).
  { destruct s as [|c s]; [reflexivity|]. cbn [no_space lstrip] in *.
    apply andb_true_iff in H. destruct H as [H _].
    apply negb_true_iff in H. now rewrite H. }
  rewrite L. clear L.
  induction s as [|c s IH]; [reflexivity|]. cbn [no_space rstrip] in *.
  apply andb_true_iff in H. destruct H as [Hc Hs].
  apply negb_true_iff in Hc. rewrite (IH Hs), Hc.
  now destruct s.
Qed.

Lemma no_space_string_of_digits (ds : list Z) :
  Forall is_digit ds -> no_space (string_of_digits ds) = true.
Proof.
  induction 1 as [|d ds Hd Hds IH]; [reflexivity|].
  unfold string_of_digits in *. cbn [map string_of_list_ascii no_space].
  destruct (digit_of_digit_char d Hd) as (_ & _ & E & _).
  now rewrite E, IH.
Qed.

Lemma int_opt_str_nonneg (n : Z) : 0 <= n -> int_opt (str_nonneg n) = Some n.
Proof.
  intros Hn. destruct (str_nonneg_digits n Hn) as (ds & E & F & Hne & Hv).
  rewrite E. unfold int_opt.
  rewrite strip_no_space by now apply no_space_string_of_digits.
  rewrite <- Hv.
  rewrite <- (parse_digits_string_of_digits ds F 0 false) by now left.
  destruct ds as [|d ds]; [congruence|].
  inversion F as [|? ? Hd _]; subst.
  unfold string_of_digits. cbn [map string_of_list_ascii].
  digit_cases d Hd; reflexivity.
Qed.

(** [int(str(n)) == n] *)
Lemma int_opt_str (n : Z) : int_opt (str n) = Some n.
Proof.
  unfold str. destruct (Z.ltb_spec n 0).
  - assert (Hn : 0 <= - n) by lia.
    destruct (str_nonneg_digits _ Hn) as (ds & E & F & Hne & Hv).
    rewrite E. unfold int_opt.
    rewrite strip_no_space
      by (cbn [no_space]; now rewrite no_space_string_of_digits).
    rewrite (parse_digits_string_of_digits ds F 0 false) by now left.
    rewrite Hv. cbn [option_map]. f_equal. lia.
  - now apply int_opt_str_nonneg.
Qed.

Lemma str_inj (n m : Z) : str n = str m -> n = m.
Proof.
  intros E. pose proof (int_opt_str n) as Hn. rewrite E, int_opt_str in Hn.
  congruence.
Qed.

(** ** Reasoning about methods *)

Lemma bind_Ok {S A B} (m : M S A) (k : A -> M S B) (s s' : S) (a : A) :
  m s = (Ok a, s') -> bind m k s = k a s'.
Proof. unfold bind. now intros ->. Qed.

Lemma bind_Raise {S A B} (m : M S A) (k : A -> M S B) (s s' : S) (e : Exn) :
  m s = (Raise e, s') -> bind m k s = (Raise e, s').
Proof. unfold bind. now intros ->. Qed.

Lemma bind_get {S B} (k : S -> M S B) (s : S) : bind get k s = k s s.
Proof. reflexivity. Qed.

Section Keeps.

Context {S : Type} (R : S -> S -> Prop) (P : Exn -> Prop).
Hypothesis R_refl : forall s, R s s.
Hypothesis R_trans : forall s1 s2 s3, R s1 s2 -> R s2 s3 -> R s1 s3.

Lemma keeps_ret {A} (a : A) : keeps R P (ret a).
Proof. intros s. simpl. split; [apply R_refl | discriminate]. Qed.

Lemma keeps_get : keeps R P get.
Proof. intros s. simpl. split; [apply R_refl | discriminate]. Qed.

Lemma keeps_raise {A} (e : Exn) : P e -> keeps R P (@raise S A e).
Proof.
  intros H s. simpl. split; [apply R_refl|].
  intros e' E. inversion E; subst; assumption.
Qed.

Lemma keeps_lift {A} (r : Result A) : raises P r -> keeps R P (lift r).
Proof. intros H s. simpl. split; [apply R_refl | apply H]. Qed.

Lemma keeps_modify (f : S -> S) : (forall s, R s (f s)) -> keeps R P (modify f).
Proof. intros H s. simpl. split; [apply H | discriminate]. Qed.

Lemma keeps_bind {A B} (m : M S A) (k : A -> M S B) :
  keeps R P m -> (forall a, keeps R P (k a)) -> keeps R P (bind m k).
Proof.
  intros Hm Hk s. unfold bind. destruct (Hm s) as [H1 H2].
  destruct (m s) as [[a|e] s1]; cbn [fst snd] in *.
  - destruct (Hk a s1) as [H3 H4].
    split; [eapply R_trans; eassumption | exact H4].
  - split; [assumption|]. intros e' E. apply H2. congruence.
Qed.

Lemma keeps_for_each {A} (xs : list A) (body : A -> M S unit) :
  (forall x, keeps R P (body x)) -> keeps R P (for_each xs body).
Proof.
  intros H. induction xs as [|x xs IH]; simpl.
  - apply keeps_ret.
  - apply keeps_bind; [apply H | intros _; apply IH].
Qed.

End Keeps.

Lemma keeps_on_self {A} R P (m : M VodPackage A) :
  keeps R P m -> keeps (on_package R) P (on_self m).
Proof.
  intros H w. unfold on_self, on_package. destruct (H (self w)) as [H1 H2].
  destruct (m (self w)) as [r s]. simpl in *. split; assumption.
Qed.

Lemma keeps_log_probe R P (p : Probe) :
  (forall s, R s s) -> keeps (on_package R) P (log_probe p).
Proof.
  intros H w. unfold log_probe, modify, on_package. simpl.
  split; [apply H | discriminate].
Qed.

Lemma raises_subscript {V} (P : Exn -> Prop) (d : dict V) (k : string) :
  P (KeyError k) -> raises P (subscript d k).
Proof.
  intros H e. unfold subscript. destruct (dict_get k d); [discriminate|].
  intros E. inversion E; subst; assumption.
Qed.

Lemma raises_or_raise {A} (P : Exn -> Prop) (o : option A) (e : Exn) :
  P e -> raises P (or_raise o e).
Proof.
  intros H e'. destruct o; simpl; [discriminate|].
  intros E. inversion E; subst; assumption.
Qed.

Lemma raises_int (P : Exn -> Prop) (s : string) :
  P ValueError -> raises P (int s).
Proof.
  intros H e. unfold int. destruct (int_opt s); [discriminate|].
  intros E. inversion E; subst; assumption.
Qed.

Lemma raises_int_limited (P : Exn -> Prop) (s : string) :
  P ValueError -> raises P (int_limited s).
Proof.
  intros H. unfold int_limited.
  destruct (int_max_str_digits <? digit_count s)%nat;
    [|now apply raises_int].
  intros e E. inversion E; subst; assumption.
Qed.

Lemma raises_str_limited (P : Exn -> Prop) (n : Z) :
  P ValueError -> raises P (str_limited n).
Proof.
  intros H e. unfold str_limited.
  destruct (int_max_str_digits <? digit_count (str n))%nat; [|discriminate].
  intros E. inversion E; subst; assumption.
Qed.

Lemma int_limited_Ok_inv (s : string) (z : Z) :
  int_limited s = Ok z ->
  int_opt s = Some z /\ (digit_count s <= int_max_str_digits)%nat.
Proof.
  unfold int_limited, int.
  destruct (Nat.ltb_spec int_max_str_digits (digit_count s));
    [discriminate|].
  destruct (int_opt s); [|discriminate].
  intros E. inversion E; subst. split; [reflexivity | lia].
Qed.

Lemma str_limited_Ok_inv (n : Z) (v : string) :
  str_limited n = Ok v -> v = str n /\ writable n = true.
Proof.
  unfold str_limited, writable.
  destruct (Nat.ltb_spec int_max_str_digits (digit_count (str n)));
    [discriminate|].
  intros E. inversion E; subst. split; [reflexivity|].
  now apply Nat.leb_le.
Qed.

Lemma str_limited_writable (n : Z) :
  writable n = true -> str_limited n = Ok (str n).
Proof.
  unfold str_limited, writable. intros H. apply Nat.leb_le in H.
  destruct (Nat.ltb_spec int_max_str_digits (digit_count (str n)));
    [lia | reflexivity].
Qed.

Lemma int_limited_str (n : Z) :
  writable n = true -> int_limited (str n) = Ok n.
Proof.
  unfold int_limited, writable, int. intros H. apply Nat.leb_le in H.
  destruct (Nat.ltb_spec int_max_str_digits (digit_count (str n)));
    [lia|].
  now rewrite int_opt_str.
Qed.

Lemma raises_first_char (P : Exn -> Prop) (s : string) :
  P IndexError -> raises P (first_char s).
Proof.
  intros H e. destruct s; simpl; [|discriminate].
  intros E. inversion E; subst; assumption.
Qed.

Lemma raises_Ok {A} (P : Exn -> Prop) (a : A) : raises P (Ok a).
Proof. intros e. discriminate. Qed.

Lemma raises_rbind {A B} (P : Exn -> Prop) (r : Result A) (k : A -> Result B) :
  raises P r -> (forall a, raises P (k a)) -> raises P (rbind r k).
Proof.
  intros Hr Hk e. destruct r as [a|e']; simpl; intros E.
  - exact (Hk a e E).
  - inversion E; subst. now apply Hr.
Qed.

Lemma raises_rfor_each {A B} (P : Exn -> Prop) (xs : list A)
      (body : B -> A -> Result B) :
  (forall acc x, raises P (body acc x)) ->
  forall acc, raises P (rfor_each xs acc body).
Proof.
  intros H. induction xs as [|x xs IH]; intros acc; simpl.
  - apply raises_Ok.
  - apply raises_rbind; [apply H | intros a; apply IH].
Qed.

Lemma keeps_weaken {S A} (R : S -> S -> Prop) (P Q : Exn -> Prop) (m : M S A) :
  (forall e, P e -> Q e) -> keeps R P m -> keeps R Q m.
Proof.
  intros H Hm s. destruct (Hm s) as [H1 H2]. split; [assumption|].
  intros e E. auto.
Qed.

(** ** What a rescan can change and raise *)

Section Rescan.

Variable env : Env.
Variable R : VodPackage -> VodPackage -> Prop.
Hypothesis R_refl : forall s, R s s.
Hypothesis R_trans : forall s1 s2 s3, R s1 s2 -> R s2 s3 -> R s1 s3.

(** The keys a scan may set, and the keys the file loop sets. *)
Variable scan_ok content_ok : Prop.
Hypothesis R_scan :
  scan_ok ->
  forall s ae_type key value,
    In key ["Run_Time"; "Display_Run_Time"; "Codec"; "Audio_Type";
            "Resolution"; "Frame_Rate"; "Bit_Rate"; "Image_Aspect_Ratio"] ->
    R s (snd (set_app ae_type key value s)).
Hypothesis R_content :
  content_ok ->
  forall s ae_type key value,
    In key ["Content_FileSize"; "Content_CheckSum"] ->
    R s (snd (set_app ae_type key value s)).

Let RW := on_package R.

Lemma RW_refl : forall w, RW w w.
Proof. intros w. apply R_refl. Qed.

Lemma RW_trans : forall w1 w2 w3, RW w1 w2 -> RW w2 w3 -> RW w1 w3.
Proof. intros w1 w2 w3. unfold RW, on_package. apply R_trans. Qed.

Lemma keeps_set_app_scan (ae_type key : string) (value : AppValue) :
  scan_ok ->
  In key ["Run_Time"; "Display_Run_Time"; "Codec"; "Audio_Type";
          "Resolution"; "Frame_Rate"; "Bit_Rate"; "Image_Aspect_Ratio"] ->
  keeps R rescan_exn (set_app ae_type key value).
Proof.
  intros Hs Hk s. split; [now apply R_scan|].
  unfold set_app. destruct (dict_get ae_type (D_app s)); simpl.
  - discriminate.
  - intros e E. inversion E. exact I.
Qed.

Lemma keeps_set_app_content (ae_type key : string) (value : AppValue) :
  content_ok ->
  In key ["Content_FileSize"; "Content_CheckSum"] ->
  keeps R rescan_exn (set_app ae_type key value).
Proof.
  intros Hs Hk s. split; [now apply R_content|].
  unfold set_app. destruct (dict_get ae_type (D_app s)); simpl.
  - discriminate.
  - intros e E. inversion E. exact I.
Qed.

Ltac keeps_leaf :=
  first
    [ apply keeps_ret; exact R_refl
    | apply keeps_get; exact R_refl
    | apply keeps_set_app_scan; [assumption | cbn; tauto]
    | apply keeps_set_app_content; [assumption | cbn; tauto]
    | apply keeps_lift; [exact R_refl|];
      first [ apply raises_subscript; exact I
            | apply raises_or_raise; exact I
            | apply raises_int; exact I
            | apply raises_first_char; exact I ] ].

Ltac keeps_auto :=
  repeat first
    [ keeps_leaf
    | apply keeps_bind; [ exact R_trans | | intros ? ]
    | match goal with
      | |- keeps _ _ (if ?b then _ else _) => destruct b
      | |- keeps _ _ (match ?o with Some _ => _ | None => _ end) => destruct o
      end ].

Lemma keeps_scan_codec (ae_type commercial_name format_profile : string) :
  scan_ok ->
  keeps R rescan_exn (scan_codec ae_type commercial_name format_profile).
Proof.
  intros Hs. unfold scan_codec. keeps_auto.
  apply keeps_raise; [exact R_refl | exact I].
Qed.

Lemma keeps_scan_video_info (ae_type : string)
      (mpeg_info : dict (dict string)) :
  scan_ok -> keeps R rescan_exn (scan_video_info env ae_type mpeg_info).
Proof.
  intros Hs. unfold scan_video_info. keeps_auto.
  - now apply keeps_scan_codec.
  - apply keeps_lift; [exact R_refl|].
    match goal with
    | |- context [dict_get "Channel(s)" ?audio] =>
        destruct (dict_get "Channel(s)" audio)
    end; [apply raises_int_limited; exact I | apply raises_Ok].
Qed.

Lemma keeps_scan_image_info (img_info : dict (dict string)) :
  scan_ok -> keeps R rescan_exn (scan_image_info img_info).
Proof. intros Hs. unfold scan_image_info. keeps_auto. Qed.

Lemma keeps_scan_video (ae_type ae_path : string) :
  scan_ok -> keeps RW rescan_exn (_scan_video env ae_type ae_path).
Proof.
  intros Hs. unfold _scan_video.
  apply keeps_bind; [exact RW_trans | apply keeps_log_probe, R_refl|].
  intros _. apply keeps_bind; [exact RW_trans | |].
  - apply keeps_lift; [exact RW_refl | apply raises_or_raise; exact I].
  - intros info. now apply keeps_on_self, keeps_scan_video_info.
Qed.

Lemma keeps_scan_image (ae_path : string) :
  scan_ok -> keeps RW rescan_exn (_scan_image env ae_path).
Proof.
  intros Hs. unfold _scan_image.
  apply keeps_bind; [exact RW_trans | apply keeps_log_probe, R_refl|].
  intros _. apply keeps_bind; [exact RW_trans | |].
  - apply keeps_lift; [exact RW_refl | apply raises_or_raise; exact I].
  - intros info. now apply keeps_on_self, keeps_scan_image_info.
Qed.

Lemma raises_getsize (path : string) : raises rescan_exn (getsize env path).
Proof.
  intros e. unfold getsize. destruct (fs env path); [discriminate|].
  intros E. inversion E. exact I.
Qed.

Lemma raises_md5_checksum (path : string) :
  raises rescan_exn (md5_checksum env path).
Proof.
  intros e. unfold md5_checksum, md5_checksum_chunked.
  destruct (fs env path) as [content|].
  - destruct (md5_loop _ _ _ _); [discriminate|].
    intros E. inversion E. exact I.
  - intros E. inversion E. exact I.
Qed.

Lemma keeps_check_files_step (ae_type ae_name : string) :
  content_ok ->
  keeps R rescan_exn (check_files_step env ae_type ae_name).
Proof.
  intros Hc. unfold check_files_step. keeps_auto.
  - apply keeps_raise; [exact R_refl|]. simpl. eauto.
  - apply keeps_lift; [exact R_refl | apply raises_getsize].
  - apply keeps_lift; [exact R_refl | apply raises_md5_checksum].
Qed.

Lemma keeps_check_files_loop (items : list (string * string)) :
  content_ok ->
  forall ae_path, keeps R rescan_exn (check_files_loop env items ae_path).
Proof.
  intros Hc.
  induction items as [|[ae_type ae_name] items IH]; intros ae_path; simpl.
  - apply keeps_ret. exact R_refl.
  - apply keeps_bind; [exact R_trans | now apply keeps_check_files_step|].
    intros p. apply IH.
Qed.

(** After the file loop: the scans. *)
Lemma keeps_check_files_scans (ae_path : string) :
  scan_ok ->
  keeps RW rescan_exn
        (_scan_video env "movie" ae_path ;;
         w <- get ;;
         (if has_preview (self w) then _scan_video env "preview" ae_path
          else ret tt) ;;
         w <- get ;;
         (if has_poster (self w) then _scan_image env ae_path else ret tt)).
Proof.
  intros Hs.
  apply keeps_bind; [exact RW_trans | now apply keeps_scan_video|]. intros _.
  apply keeps_bind; [exact RW_trans | apply keeps_get; exact RW_refl|].
  intros w1.
  apply keeps_bind; [exact RW_trans | |].
  - destruct (has_preview (self w1));
      [now apply keeps_scan_video | apply keeps_ret; exact RW_refl].
  - intros _.
    apply keeps_bind; [exact RW_trans | apply keeps_get; exact RW_refl|].
    intros w2.
    destruct (has_poster (self w2));
      [now apply keeps_scan_image | apply keeps_ret; exact RW_refl].
Qed.

Lemma keeps_check_files :
  scan_ok -> content_ok -> keeps RW rescan_exn (check_files env).
Proof.
  intros Hs Hc. unfold check_files.
  apply keeps_bind; [exact RW_trans | |].
  - apply keeps_on_self.
    apply keeps_bind; [exact R_trans | apply keeps_get; exact R_refl|].
    intros s. now apply keeps_check_files_loop.
  - intros [ae_path|].
    + now apply keeps_check_files_scans.
    + apply keeps_raise; [exact RW_refl | exact I].
Qed.

End Rescan.

(** A relation that any change of the App_Data respects is kept by the
    whole rescan. *)
Lemma keeps_check_files_app (env : Env)
      (R : VodPackage -> VodPackage -> Prop) :
  (forall s, R s s) ->
  (forall s1 s2 s3, R s1 s2 -> R s2 s3 -> R s1 s3) ->
  (forall s d, R s (set_D_app d s)) ->
  keeps (on_package R) rescan_exn (check_files env).
Proof.
  intros R_refl R_trans R_app.
  assert (H : forall s ae_type key value,
             R s (snd (set_app ae_type key value s))).
  { intros s ae_type key value. unfold set_app.
    destruct (dict_get ae_type (D_app s)); cbn; [apply R_app | apply R_refl]. }
  apply (keeps_check_files env R R_refl R_trans True True);
    [intros _ s t k v _; apply H | intros _ s t k v _; apply H | exact I
     | exact I].
Qed.

(** ** What building the tree can raise *)

Section Build.

Variable env : Env.

Lemma raises_write_App_Data_element s key value parent :
  raises build_exn value ->
  raises build_exn (write_App_Data_element s key value parent).
Proof.
  intros Hv. unfold write_App_Data_element.
  apply raises_rbind; [apply raises_subscript; exact I | intros package].
  apply raises_rbind; [apply raises_subscript; exact I | intros product].
  apply raises_rbind; [exact Hv | intros v]. apply raises_Ok.
Qed.

Lemma raises_write_App_Data_item s parent item :
  raises build_exn (write_App_Data_item env s parent item).
Proof.
  destruct item as [key value]. unfold write_App_Data_item.
  destruct (mem_string key (param_skip env)); [apply raises_Ok|].
  destruct (mem_string key _multiples).
  - apply raises_rfor_each. intros acc v.
    apply raises_write_App_Data_element, raises_Ok.
  - apply raises_write_App_Data_element.
    destruct value; [apply raises_Ok|]. intros e E. inversion E. exact I.
Qed.

Lemma raises_write_Metadata s ae_type :
  raises build_exn (write_Metadata env s ae_type).
Proof.
  unfold write_Metadata, _write_App_Data.
  apply raises_rbind; [apply raises_subscript; exact I | intros attrs].
  apply raises_rbind; [apply raises_subscript; exact I | intros app].
  apply raises_rfor_each. intros acc x. apply raises_write_App_Data_item.
Qed.

Lemma raises_build_ADI s : raises build_exn (build_ADI env s).
Proof.
  unfold build_ADI.
  apply raises_rbind; [apply raises_write_Metadata | intros pm].
  apply raises_rbind; [apply raises_write_Metadata | intros tm].
  apply raises_rbind; [|intros ta; apply raises_Ok].
  apply raises_rfor_each. intros acc ae_type. unfold write_asset_element.
  destruct (negb (dict_mem ae_type (D_ams s))); [apply raises_Ok|].
  apply raises_rbind; [apply raises_write_Metadata | intros m].
  apply raises_Ok.
Qed.

End Build.

(** * Properties of the package model *)

(** ** Movie required on write *)

Lemma rescan_exn_not_movie_missing (e : Exn) :
  rescan_exn e -> e <> movie_missing.
Proof.
  intros H E. subst e. destruct H as (t & p & H). discriminate H.
Qed.

Lemma build_exn_not_movie_missing (e : Exn) :
  build_exn e -> e <> movie_missing.
Proof. intros H E. subst e. exact H. Qed.

(** C9: [write_xml] raises the missing-element error exactly when the movie
    section is absent from [D_ams]; it does so before anything else happens
    (the package and the probe log are as they were, no rescan has run), and
    with a movie section present that error is never the outcome. *)
Theorem write_xml_movie_required (env : Env) (rewrite : bool) (w : World) :
  (dict_mem "movie" (D_ams (self w)) = false ->
   write_xml env rewrite w = (Raise movie_missing, w)) /\
  (dict_mem "movie" (D_ams (self w)) = true ->
   fst (write_xml env rewrite w) <> Raise movie_missing).
Proof.
  split; intros Hm.
  - unfold write_xml. rewrite bind_get, Hm. reflexivity.
  - set (T := fun _ _ : VodPackage => True).
    set (P := fun e => e <> movie_missing).
    assert (K : keeps (on_package T) P
                  ((if rewrite then check_files env else ret tt) ;;
                   w' <- get ;; lift (build_ADI env (self w')))).
    { apply keeps_bind; [unfold on_package, T; auto | |].
      - destruct rewrite.
        + apply keeps_weaken with (P := rescan_exn);
            [exact rescan_exn_not_movie_missing|].
          apply keeps_check_files_app; unfold T; auto.
        + apply keeps_ret. unfold on_package, T. auto.
      - intros _. apply keeps_bind; [unfold on_package, T; auto | |].
        + apply keeps_get. unfold on_package, T. auto.
        + intros w'. apply keeps_lift; [unfold on_package, T; auto|].
          intros e E. apply build_exn_not_movie_missing.
          exact (raises_build_ADI env (self w') e E). }
    destruct (K w) as [_ K2]. intros E.
    apply (K2 movie_missing); [|reflexivity].
    rewrite <- E. unfold write_xml. rewrite bind_get, Hm. reflexivity.
Qed.

(** ** Rescan without any content reference *)

(** C10: with an empty [D_content] the loop of [check_files] never binds
    [ae_path], and the call fails on the unbound name before any file check
    and before the movie scan: the package is untouched and no probe ran. *)
Theorem check_files_empty_content_unbound (env : Env) (w : World) :
  D_content (self w) = [] ->
  check_files env w = (Raise (UnboundLocalError "ae_path"), w).
Proof.
  intros H. unfold check_files, bind, on_self, get. rewrite H.
  cbn. now destruct w.
Qed.

Lemma check_files_empty_content_unbound_witness :
  D_content (snd (make_update sample_package)) = [] /\
  check_files (sample_env []) (mkWorld (snd (make_update sample_package)) [])
  = (Raise (UnboundLocalError "ae_path"),
     mkWorld (snd (make_update sample_package)) []).
Proof.
  split; [reflexivity|].
  apply (check_files_empty_content_unbound
           (sample_env []) (mkWorld (snd (make_update sample_package)) [])).
  reflexivity.
Defined.

Lemma write_xml_movie_required_witness :
  dict_mem "movie" (D_ams empty_package) = false /\
  write_xml (sample_env []) true (mkWorld empty_package [])
  = (Raise movie_missing, mkWorld empty_package []) /\
  dict_mem "movie" (D_ams sample_package) = true /\
  fst (write_xml (sample_env []) true (mkWorld sample_package []))
  <> Raise movie_missing.
Proof.
  split; [reflexivity|]. split.
  - apply (proj1 (write_xml_movie_required
                    (sample_env []) true (mkWorld empty_package []))).
    reflexivity.
  - split; [reflexivity|].
    apply (proj2 (write_xml_movie_required
                    (sample_env []) true (mkWorld sample_package []))).
    reflexivity.
Defined.

(** ** Rescan probes *)

(** C2 (the code at a package with a movie and a preview, both files
    present): [check_files] succeeds, but both video probes are given the
    preview's file, the last one the loop visited, and none the movie's; the
    movie's Codec is the one of the preview's file (MPEG-2) although the
    probe says AVC for the movie's own file. *)
Theorem check_files_probes_last_content_file :
  let s := loaded "adi.xml" sample_ADI_movie_preview in
  let r := check_files (sample_env []) (mkWorld s []) in
  D_content s = [("movie", "movie.mpg"); ("preview", "preview.mpg")] /\
  fst r = Ok tt /\
  probes (snd r) = [VideoProbe "preview.mpg"; VideoProbe "preview.mpg"] /\
  check_video (sample_env []) "movie.mpg"
  = Some (sample_mpeg_info "AVC" "High@L4.0") /\
  app_value "movie" "Codec" (self (snd r)) = Some (Single "MPEG2").
Proof. repeat split; vm_compute; reflexivity. Qed.

(** ** Removing an optional asset *)

(** C3 (the code at a package whose preview has no Content element):
    [remove_preview] raises although the preview section is present, and by
    then it has deleted the section from [D_ams] and [D_app], while
    [has_preview] still says true. *)
Theorem remove_preview_without_content_partial :
  let s := loaded "adi.xml" sample_ADI_preview_without_content in
  let s' := snd (remove_preview s) in
  dict_mem "preview" (D_ams s) = true /\
  dict_mem "preview" (D_app s) = true /\
  fst (remove_preview s)
  = Raise (MissingElement "Package does not content a preview element") /\
  dict_mem "preview" (D_ams s') = false /\
  dict_mem "preview" (D_app s') = false /\
  has_preview s' = true.
Proof. repeat split; vm_compute; reflexivity. Qed.

(** ** Listing the identifiers *)

(** C7 (the code at a package whose preview has no Content element): the
    package and the title carry both identifiers, and [list_files] raises
    KeyError on [D_content["preview"]]. *)
Theorem list_files_preview_without_content :
  let s := loaded "adi.xml" sample_ADI_preview_without_content in
  let ids sec :=
    match dict_get sec (D_ams s) with
    | Some a => (dict_get "Provider_ID" a, dict_get "Asset_ID" a)
    | None => (None, None)
    end in
  ids "package" = (Some "example.com", Some "PACK0001") /\
  ids "title" = (Some "example.com", Some "TITL0001") /\
  has_preview s = true /\
  dict_get "preview" (D_content s) = None /\
  list_files s = Raise (KeyError "preview").
Proof. repeat split; vm_compute; reflexivity. Qed.

(** ** The codec mapping *)

Lemma set_app_stores (ae_type key : string) (value : AppValue)
      (s : VodPackage) :
  dict_mem ae_type (D_app s) = true ->
  fst (set_app ae_type key value s) = Ok tt /\
  app_value ae_type key (snd (set_app ae_type key value s)) = Some value.
Proof.
  unfold dict_mem, set_app, app_value.
  destruct (dict_get ae_type (D_app s)) as [a|]; [intros _ | discriminate].
  simpl. now rewrite !dict_get_set_same.
Qed.

Lemma find_char_from_append (c : ascii) (pre post : string) :
  ~ In c (list_ascii_of_string pre) ->
  forall i, find_char_from c (pre ++ String c post) i
            = i + Z.of_nat (String.length pre).
Proof.
  induction pre as [|x pre IH]; intros Hn i.
  - cbn. rewrite Ascii.eqb_refl. lia.
  - cbn [String.append find_char_from String.length].
    destruct (Ascii.eqb_spec x c) as [->|Hne].
    + exfalso. apply Hn. now left.
    + rewrite IH by (intros H; apply Hn; now right). lia.
Qed.

Lemma string_drop_append (pre rest : string) :
  string_drop (String.length pre) (pre ++ rest) = rest.
Proof. induction pre as [|x pre IH]; [now destruct rest | exact IH]. Qed.

Lemma length_append (a b : string) :
  String.length (a ++ b) = (String.length a + String.length b)%nat.
Proof. induction a as [|x a IH]; simpl; [reflexivity | now rewrite IH]. Qed.

(** The part of a format profile from its first ["@"] on. *)
Lemma slice_from_find_at (pre post : string) :
  ~ In "@"%char (list_ascii_of_string pre) ->
  slice_from (find_char "@" (pre ++ String "@" post)) (pre ++ String "@" post)
  = String "@" post.
Proof.
  intros Hn. unfold find_char. rewrite find_char_from_append by assumption.
  unfold slice_from. rewrite length_append. cbn [String.length].
  destruct (Z.ltb_spec (0 + Z.of_nat (String.length pre)) 0); [lia|].
  rewrite Z.min_l by lia.
  replace (Z.to_nat (0 + Z.of_nat (String.length pre)))
    with (String.length pre) by lia.
  apply string_drop_append.
Qed.

(** C6, amended: "MPEG-2 Video" stores Codec "MPEG2"; "AVC" with a format
    profile that contains "@" stores "AVC " + first character of the profile
    + "P" + the profile from its first "@" on with every "." removed, so that
    "High@L4.0" gives "AVC HP@L40"; any other commercial name, for a section
    with a Content reference, fails with the unrecognized-codec error and
    stores nothing. *)
Theorem scan_codec_mapping (ae_type : string) (s : VodPackage) :
  dict_mem ae_type (D_app s) = true ->
  (forall format_profile,
     let r := scan_codec ae_type "MPEG-2 Video" format_profile s in
     fst r = Ok tt /\
     app_value ae_type "Codec" (snd r) = Some (Single "MPEG2")) /\
  (forall pre post profile,
     ~ In "@"%char (list_ascii_of_string pre) ->
     first_char (pre ++ String "@" post) = Ok profile ->
     let r := scan_codec ae_type "AVC" (pre ++ String "@" post) s in
     fst r = Ok tt /\
     app_value ae_type "Codec" (snd r)
     = Some (Single ("AVC " ++ profile ++ "P"
                     ++ remove_char "." (String "@" post)))) /\
  (let r := scan_codec ae_type "AVC" "High@L4.0" s in
   fst r = Ok tt /\
   app_value ae_type "Codec" (snd r) = Some (Single "AVC HP@L40")) /\
  (forall commercial_name format_profile content,
     commercial_name <> "MPEG-2 Video" -> commercial_name <> "AVC" ->
     dict_get ae_type (D_content s) = Some content ->
     scan_codec ae_type commercial_name format_profile s
     = (Raise (InvalidMpeg ("Could not determine codec for " ++ content)), s)).
Proof.
  intros Hm. split; [|split; [|split]].
  - intros fp. apply set_app_stores, Hm.
  - intros pre post profile Hn Hp. cbv zeta. unfold scan_codec.
    change (String.eqb "AVC" "MPEG-2 Video") with false.
    change (String.eqb "AVC" "AVC") with true. cbv iota.
    rewrite slice_from_find_at by assumption.
    unfold bind at 1, lift at 1. rewrite Hp.
    apply set_app_stores, Hm.
  - apply (set_app_stores ae_type "Codec" (Single "AVC HP@L40") s Hm).
  - intros name fp content H1 H2 Hc. unfold scan_codec.
    apply String.eqb_neq in H1, H2. rewrite H1, H2.
    rewrite bind_get. unfold bind, lift, subscript. now rewrite Hc.
Qed.

Lemma scan_codec_mapping_witness :
  dict_mem "movie" (D_app sample_package) = true /\
  app_value "movie" "Codec"
            (snd (scan_codec "movie" "AVC" "High@L4.0" sample_package))
  = Some (Single "AVC HP@L40").
Proof.
  split; [reflexivity|].
  apply (proj1 (proj2 (proj2 (scan_codec_mapping "movie" sample_package
                                                 eq_refl)))).
Defined.

(** C6 as stated fails at its own example: for "AVC" with format profile
    "High@L4.0" the stored Codec is not "AVC HighPL40". *)
Lemma scan_codec_High_L40_counterexample :
  fst (scan_codec "movie" "AVC" "High@L4.0" sample_package) = Ok tt /\
  app_value "movie" "Codec"
            (snd (scan_codec "movie" "AVC" "High@L4.0" sample_package))
  <> Some (Single "AVC HighPL40").
Proof. split; [reflexivity | vm_compute; discriminate]. Qed.

(** ** Advancing the version *)

Lemma advances_inv (attrs : dict string) :
  advances attrs = true ->
  exists z, version_of attrs = Some z /\ writable (z + 1) = true.
Proof.
  unfold advances. destruct (version_of attrs) as [z|]; [|discriminate].
  intros H. exists z. split; [reflexivity | exact H].
Qed.

Lemma version_of_inv (attrs : dict string) (z : Z) :
  version_of attrs = Some z ->
  exists v, dict_get "Version_Major" attrs = Some v /\ int_limited v = Ok z.
Proof.
  unfold version_of.
  destruct (dict_get "Version_Major" attrs) as [v|]; [|discriminate].
  destruct (int_limited v) as [z'|] eqn:Ei; [|discriminate].
  intros E. inversion E; subst. now exists v.
Qed.

Lemma version_of_bumped (attrs : dict string) (z : Z) :
  version_of attrs = Some z -> writable (z + 1) = true ->
  dict_get "Version_Major" (bumped attrs) = Some (str (z + 1)) /\
  version_of (bumped attrs) = Some (z + 1) /\
  (forall k, k <> "Version_Major" ->
             dict_get k (bumped attrs) = dict_get k attrs).
Proof.
  intros H Hw. unfold bumped. rewrite H. unfold version_of.
  rewrite dict_get_set_same, (int_limited_str _ Hw). repeat split.
  intros k Hk. now apply dict_get_set_other.
Qed.

Lemma make_update_step_bumps (ae_type : string) (s : VodPackage)
      (attrs : dict string) :
  dict_get ae_type (D_ams s) = Some attrs ->
  advances attrs = true ->
  make_update_step ae_type s
  = (Ok tt, set_D_ams (dict_set ae_type (bumped attrs) (D_ams s)) s).
Proof.
  intros Ha Hv. destruct (advances_inv _ Hv) as (z & Hz & Hw).
  unfold bumped. rewrite Hz.
  destruct (version_of_inv _ _ Hz) as (v & Hget & Hint).
  unfold make_update_step. rewrite bind_get.
  unfold bind, lift, subscript. rewrite Ha, Hget, Hint.
  rewrite (str_limited_writable _ Hw).
  unfold set_ams. now rewrite Ha.
Qed.

(** A section that cannot be advanced: the step raises and changes
    nothing. *)
Lemma make_update_step_fails (t : string) (s : VodPackage)
      (attrs : dict string) :
  dict_get t (D_ams s) = Some attrs -> advances attrs = false ->
  make_update_step t s = (Raise (version_error attrs), s).
Proof.
  intros Ha Hv. unfold make_update_step. rewrite bind_get.
  unfold version_error, advances, version_of, dict_mem in *.
  unfold bind, lift, subscript. rewrite Ha.
  destruct (dict_get "Version_Major" attrs) as [v|]; [|reflexivity].
  pose proof (raises_int_limited (fun e => e = ValueError) v eq_refl) as Ri.
  destruct (int_limited v) as [z|e]; [|now rewrite (Ri e eq_refl)].
  pose proof (raises_str_limited (fun e => e = ValueError) (z + 1) eq_refl)
    as Rs.
  destruct (str_limited (z + 1)) as [v'|e] eqn:E;
    [|now rewrite (Rs e eq_refl)].
  apply str_limited_Ok_inv in E. destruct E as [_ E]. congruence.
Qed.

Lemma make_update_step_Ok_inv (t : string) (s s' : VodPackage) :
  make_update_step t s = (Ok tt, s') ->
  exists attrs, dict_get t (D_ams s) = Some attrs /\ advances attrs = true.
Proof.
  intros H. unfold make_update_step in H. rewrite bind_get in H.
  unfold bind at 1, lift at 1, subscript at 1 in H.
  destruct (dict_get t (D_ams s)) as [attrs|] eqn:Ha; [|discriminate H].
  exists attrs. split; [reflexivity|].
  destruct (advances attrs) eqn:Hv; [reflexivity|].
  assert (G : dict_get t (D_ams s) = Some attrs) by exact Ha.
  pose proof (make_update_step_fails t s attrs G Hv) as F.
  unfold make_update_step in F. rewrite bind_get in F.
  unfold bind at 1, lift at 1, subscript at 1 in F. rewrite Ha in F.
  rewrite F in H. discriminate H.
Qed.

Lemma make_update_loop (s : VodPackage) (ks : list string) :
  NoDup ks ->
  forall d,
    (forall k, In k ks ->
               exists attrs, dict_get k d = Some attrs /\
                             advances attrs = true) ->
    exists d',
      for_each ks make_update_step (set_D_ams d s) = (Ok tt, set_D_ams d' s) /\
      dict_keys d' = dict_keys d /\
      (forall k, dict_get k d'
                 = if mem_string k ks then option_map bumped (dict_get k d)
                   else dict_get k d).
Proof.
  induction 1 as [|k ks Hk ND IH]; intros d Hd.
  - exists d. simpl. auto.
  - destruct (Hd k (or_introl eq_refl)) as (attrs & Ha & Hv).
    set (d1 := dict_set k (bumped attrs) d).
    destruct (IH d1) as (d' & Hrun & Hkeys & Hget).
    { intros k' Hk'. destruct (Hd k' (or_intror Hk')) as (a' & Ha' & Hv').
      exists a'. split; [|assumption]. unfold d1.
      rewrite dict_get_set_other; [assumption|]. intros ->. contradiction. }
    exists d'. split; [|split].
    + cbn [for_each].
      rewrite (bind_Ok _ _ _ (set_D_ams d1 s) tt); [exact Hrun|].
      now rewrite (make_update_step_bumps k _ attrs).
    + rewrite Hkeys. unfold d1. apply dict_keys_set_present.
      apply dict_mem_In. unfold dict_mem. now rewrite Ha.
    + intros k'. rewrite Hget. cbn [mem_string]. unfold d1.
      destruct (String.eqb_spec k' k) as [->|Hne]; cbn [orb].
      * apply mem_string_not_In in Hk. rewrite Hk, dict_get_set_same, Ha.
        reflexivity.
      * now rewrite dict_get_set_other.
Qed.

(** A loop that succeeds has found every section advanceable. *)
Lemma make_update_loop_Ok_inv (s : VodPackage) (ks : list string) :
  NoDup ks ->
  forall d s',
    for_each ks make_update_step (set_D_ams d s) = (Ok tt, s') ->
    forall k, In k ks ->
              exists attrs, dict_get k d = Some attrs /\
                            advances attrs = true.
Proof.
  induction 1 as [|k ks Hk ND IH]; intros d s' H k' Hin; [destruct Hin|].
  cbn [for_each] in H. unfold bind in H.
  destruct (make_update_step k (set_D_ams d s)) as [[[]|e] s1] eqn:Hstep;
    [|discriminate H].
  destruct (make_update_step_Ok_inv _ _ _ Hstep) as (attrs & Ha & Hv).
  rewrite (make_update_step_bumps k _ attrs Ha Hv) in Hstep.
  cbn [D_ams set_D_ams] in Ha, Hstep.
  destruct Hin as [<-|Hin]; [now exists attrs|].
  inversion Hstep; subst s1.
  replace (set_D_ams (dict_set k (bumped attrs) d) (set_D_ams d s))
    with (set_D_ams (dict_set k (bumped attrs) d) s) in H
    by now destruct s.
  destruct (IH _ _ H k' Hin) as (a' & Ha' & Hv').
  exists a'. split; [|exact Hv'].
  rewrite dict_get_set_other in Ha'; [exact Ha'|].
  intros ->. contradiction.
Qed.

Lemma make_update_once (s : VodPackage) :
  dict_wf (D_ams s) = true ->
  (forall sec attrs, dict_get sec (D_ams s) = Some attrs ->
                     advances attrs = true) ->
  exists s1,
    make_update s = (Ok tt, s1) /\
    dict_keys (D_ams s1) = dict_keys (D_ams s) /\
    (forall sec, dict_get sec (D_ams s1)
                 = option_map bumped (dict_get sec (D_ams s))) /\
    D_app s1 = D_app s /\ D_content s1 = [] /\ is_update s1 = true /\
    is_delete s1 = is_delete s.
Proof.
  intros Hwf Hv. apply nodup_keys_NoDup in Hwf.
  destruct (make_update_loop s (dict_keys (D_ams s)) Hwf (D_ams s))
    as (d' & Hrun & Hkeys & Hget).
  { intros k Hk. apply dict_mem_In in Hk. unfold dict_mem in Hk.
    destruct (dict_get k (D_ams s)) as [attrs|] eqn:E; [|discriminate].
    exists attrs. split; [reflexivity | eauto]. }
  exists (set_is_update true (set_D_content [] (set_D_ams d' s))).
  split; [|split; [|split]].
  - unfold make_update. rewrite bind_get.
    rewrite (bind_Ok _ _ _ (set_D_ams d' s) tt); [reflexivity|].
    rewrite <- Hrun. now destruct s.
  - exact Hkeys.
  - intros sec. cbn. rewrite Hget.
    destruct (mem_string sec (dict_keys (D_ams s))) eqn:E; [reflexivity|].
    apply mem_string_not_In, dict_get_None in E. now rewrite E.
  - repeat split.
Qed.

(** A [make_update] that succeeds has found every section advanceable. *)
Lemma make_update_Ok_advances (s s1 : VodPackage) :
  dict_wf (D_ams s) = true ->
  make_update s = (Ok tt, s1) ->
  forall sec attrs, dict_get sec (D_ams s) = Some attrs ->
                    advances attrs = true.
Proof.
  intros Hwf H sec attrs Ha. apply nodup_keys_NoDup in Hwf.
  unfold make_update in H. rewrite bind_get in H. unfold bind at 1 in H.
  destruct (for_each (dict_keys (D_ams s)) make_update_step s)
    as [[[]|e] s2] eqn:Hloop; [|discriminate H].
  replace s with (set_D_ams (D_ams s) s) in Hloop at 2 by now destruct s.
  destruct (make_update_loop_Ok_inv s _ Hwf _ _ Hloop sec)
    as (a & Ha' & Hv).
  { apply dict_mem_In. unfold dict_mem. now rewrite Ha. }
  congruence.
Qed.

(** The numeral of [n] nines, and the digits of a printed integer. *)
Lemma nines_digits (n : nat) : nines n = string_of_digits (repeat 9 n).
Proof.
  unfold nines, string_of_digits. now rewrite map_repeat.
Qed.

Lemma digit_count_string_of_digits (ds : list Z) :
  Forall is_digit ds -> digit_count (string_of_digits ds) = length ds.
Proof.
  unfold digit_count, string_of_digits.
  induction 1 as [|d ds Hd Hds IH]; [reflexivity|].
  cbn [map string_of_list_ascii list_ascii_of_string filter].
  destruct (digit_of_digit_char d Hd) as (E & _). rewrite E.
  cbn [length]. now rewrite IH.
Qed.

Lemma digits_value_bound (ds : list Z) :
  Forall is_digit ds ->
  forall acc, 0 <= acc ->
              digits_value acc ds < (acc + 1) * 10 ^ Z.of_nat (length ds).
Proof.
  unfold digits_value.
  induction 1 as [|d ds Hd Hds IH]; intros acc Hacc.
  - cbn. lia.
  - cbn [fold_left length]. unfold is_digit in Hd.
    specialize (IH (10 * acc + d) ltac:(lia)).
    rewrite Nat2Z.inj_succ, Z.pow_succ_r by lia.
    assert (0 < 10 ^ Z.of_nat (length ds)) by (apply Z.pow_pos_nonneg; lia).
    nia.
Qed.

Lemma digits_value_nines (n : nat) :
  forall acc, digits_value acc (repeat 9 n)
              = (acc + 1) * 10 ^ Z.of_nat n - 1.
Proof.
  unfold digits_value. induction n as [|n IH]; intros acc.
  - cbn. lia.
  - cbn [repeat fold_left]. rewrite IH.
    rewrite Nat2Z.inj_succ, Z.pow_succ_r by lia. lia.
Qed.

Lemma int_opt_string_of_digits (ds : list Z) :
  Forall is_digit ds -> ds <> [] ->
  int_opt (string_of_digits ds) = Some (digits_value 0 ds).
Proof.
  intros F Hne. unfold int_opt.
  rewrite strip_no_space by now apply no_space_string_of_digits.
  rewrite <- (parse_digits_string_of_digits ds F 0 false) by now left.
  destruct ds as [|d ds]; [congruence|].
  inversion F as [|? ? Hd _]; subst.
  unfold string_of_digits. cbn [map string_of_list_ascii].
  digit_cases d Hd; reflexivity.
Qed.

(** A printed integer has more digits than any power of ten below it. *)
Lemma str_digits_bound (n : Z) :
  0 <= n -> n < 10 ^ Z.of_nat (digit_count (str n)).
Proof.
  intros Hn. unfold str. destruct (Z.ltb_spec n 0); [lia|].
  destruct (str_nonneg_digits n Hn) as (ds & E & F & _ & Hv).
  rewrite E, (digit_count_string_of_digits ds F), <- Hv.
  pose proof (digits_value_bound ds F 0). lia.
Qed.

Lemma int_limited_nines (n : nat) :
  n <> 0%nat -> (n <= int_max_str_digits)%nat ->
  int_limited (nines n) = Ok (10 ^ Z.of_nat n - 1).
Proof.
  intros Hn Hle. assert (F : Forall is_digit (repeat 9 n)).
  { apply Forall_forall. intros d Hd. apply repeat_spec in Hd. subst.
    unfold is_digit. lia. }
  unfold int_limited, int. rewrite nines_digits.
  rewrite (digit_count_string_of_digits _ F), repeat_length.
  destruct (Nat.ltb_spec int_max_str_digits n); [lia|].
  rewrite (int_opt_string_of_digits _ F)
    by (destruct n; [congruence | discriminate]).
  rewrite digits_value_nines. do 2 f_equal. lia.
Qed.

Lemma not_writable_power (n : nat) :
  (int_max_str_digits <= n)%nat -> writable (10 ^ Z.of_nat n) = false.
Proof.
  intros Hle. unfold writable. apply Nat.leb_gt.
  assert (Hp : 0 <= 10 ^ Z.of_nat n) by (apply Z.pow_nonneg; lia).
  pose proof (str_digits_bound _ Hp) as Hb.
  apply Z.pow_lt_mono_r_iff in Hb; lia.
Qed.

(** C4, amended: on a package in which every present section has a
    [Version_Major] that [int] reads and whose successor [str] writes (both
    within the interpreter's limit of digits), [make_update] succeeds, writes
    back the decimal string of that integer plus one for every present
    section, leaves the other attributes and the App_Data alone, empties
    [D_content] and sets [is_update]; when the successors of the successors
    can be written too, a second call succeeds and the version is the
    original plus two. *)
Theorem make_update_bumps_versions (s : VodPackage) :
  dict_wf (D_ams s) = true ->
  (forall sec attrs, dict_get sec (D_ams s) = Some attrs ->
                     advances attrs = true) ->
  exists s1,
    make_update s = (Ok tt, s1) /\
    D_content s1 = [] /\ is_update s1 = true /\ D_app s1 = D_app s /\
    dict_keys (D_ams s1) = dict_keys (D_ams s) /\
    (forall sec attrs z,
       dict_get sec (D_ams s) = Some attrs -> version_of attrs = Some z ->
       exists attrs1,
         dict_get sec (D_ams s1) = Some attrs1 /\
         dict_get "Version_Major" attrs1 = Some (str (z + 1)) /\
         int_limited (str (z + 1)) = Ok (z + 1) /\
         (forall k, k <> "Version_Major" ->
                    dict_get k attrs1 = dict_get k attrs)) /\
    ((forall sec attrs z,
        dict_get sec (D_ams s) = Some attrs -> version_of attrs = Some z ->
        writable (z + 2) = true) ->
     exists s2,
       make_update s1 = (Ok tt, s2) /\
       D_content s2 = [] /\ is_update s2 = true /\ D_app s2 = D_app s /\
       dict_keys (D_ams s2) = dict_keys (D_ams s) /\
       (forall sec attrs z,
          dict_get sec (D_ams s) = Some attrs -> version_of attrs = Some z ->
          exists attrs2,
            dict_get sec (D_ams s2) = Some attrs2 /\
            dict_get "Version_Major" attrs2 = Some (str (z + 2)) /\
            int_limited (str (z + 2)) = Ok (z + 2) /\
            (forall k, k <> "Version_Major" ->
                       dict_get k attrs2 = dict_get k attrs))).
Proof.
  intros Hwf Hv.
  destruct (make_update_once s Hwf Hv)
    as (s1 & Hrun1 & Hkeys1 & Hget1 & Happ1 & Hc1 & Hu1 & _).
  exists s1. repeat (split; [assumption|]).
  assert (Hw1 : forall sec attrs z,
             dict_get sec (D_ams s) = Some attrs ->
             version_of attrs = Some z -> writable (z + 1) = true).
  { intros sec attrs z Ha Hz. destruct (advances_inv _ (Hv _ _ Ha))
      as (z' & Hz' & Hw). congruence. }
  split.
  - intros sec attrs z Ha Hz. pose proof (Hw1 _ _ _ Ha Hz) as Hw.
    destruct (version_of_bumped attrs z Hz Hw) as (G1 & _ & O1).
    exists (bumped attrs). rewrite Hget1, Ha. cbn [option_map].
    split; [reflexivity|]. split; [exact G1|].
    split; [now apply int_limited_str | exact O1].
  - intros Hw2.
    assert (Hwf1 : dict_wf (D_ams s1) = true)
      by (unfold dict_wf; now rewrite Hkeys1).
    assert (Hv1 : forall sec attrs, dict_get sec (D_ams s1) = Some attrs ->
                                    advances attrs = true).
    { intros sec attrs1 H1. rewrite Hget1 in H1.
      destruct (dict_get sec (D_ams s)) as [attrs|] eqn:E; [|discriminate].
      inversion H1; subst.
      destruct (advances_inv _ (Hv _ _ E)) as (z & Hz & Hw).
      destruct (version_of_bumped attrs z Hz Hw) as (_ & H & _).
      unfold advances. rewrite H.
      replace (z + 1 + 1) with (z + 2) by lia. exact (Hw2 _ _ _ E Hz). }
    destruct (make_update_once s1 Hwf1 Hv1)
      as (s2 & Hrun2 & Hkeys2 & Hget2 & Happ2 & Hc2 & Hu2 & _).
    exists s2. repeat (split; [first [assumption | congruence]|]).
    intros sec attrs z Ha Hz. pose proof (Hw1 _ _ _ Ha Hz) as Hw.
    destruct (version_of_bumped attrs z Hz Hw) as (G1 & V1 & O1).
    assert (Hw' : writable (z + 1 + 1) = true)
      by (replace (z + 1 + 1) with (z + 2) by lia; exact (Hw2 _ _ _ Ha Hz)).
    destruct (version_of_bumped (bumped attrs) (z + 1) V1 Hw')
      as (G2 & _ & O2).
    exists (bumped (bumped attrs)).
    rewrite Hget2, Hget1, Ha. cbn [option_map].
    replace (z + 1 + 1) with (z + 2) in * by lia.
    split; [reflexivity|]. split; [exact G2|].
    split; [now apply int_limited_str|].
    intros k Hk. rewrite O2, O1; auto.
Qed.

Lemma make_update_bumps_versions_witness :
  (forall sec attrs, dict_get sec (D_ams sample_package) = Some attrs ->
                     advances attrs = true) /\
  exists s1 s2,
    make_update sample_package = (Ok tt, s1) /\
    make_update s1 = (Ok tt, s2) /\
    D_content s2 = [] /\
    (exists attrs2, dict_get "movie" (D_ams s2) = Some attrs2 /\
                    dict_get "Version_Major" attrs2 = Some "3").
Proof.
  assert (Hv : forall sec attrs,
             dict_get sec (D_ams sample_package) = Some attrs ->
             advances attrs = true).
  { intros sec attrs H. apply dict_get_In in H.
    assert (F : forallb (fun p => advances (snd p)) (D_ams sample_package)
                = true) by (vm_compute; reflexivity).
    rewrite forallb_forall in F. exact (F _ H). }
  split; [exact Hv|].
  destruct (make_update_bumps_versions sample_package eq_refl Hv)
    as (s1 & H1 & _ & _ & _ & _ & _ & Htwice).
  destruct Htwice as (s2 & H2 & Hc & _ & _ & _ & Hv2).
  - intros sec attrs z H Hz. apply dict_get_In in H.
    assert (F : forallb (fun p => match version_of (snd p) with
                                  | Some z => writable (z + 2)
                                  | None => true
                                  end) (D_ams sample_package) = true)
      by (vm_compute; reflexivity).
    rewrite forallb_forall in F. specialize (F _ H). cbn [snd] in F.
    now rewrite Hz in F.
  - exists s1, s2. repeat (split; [assumption|]).
    destruct (Hv2 "movie" _ 1 eq_refl) as (a2 & G & V & _).
    + vm_compute. reflexivity.
    + exists a2. split; assumption.
Defined.

(** C4 as stated fails at the interpreter's limit of digits: a
    [Version_Major] of [int_max_str_digits] nines is an integer that [int]
    reads, but its successor has one digit more, [str] refuses it, and
    [make_update] raises ValueError and leaves the package as it was. *)
Lemma make_update_digit_limit_counterexample :
  let s := loaded "adi.xml"
                  (sample_ADI_version (nines int_max_str_digits)) in
  dict_wf (D_ams s) = true /\
  (forall sec attrs, dict_get sec (D_ams s) = Some attrs ->
                     version_of attrs
                     = Some (10 ^ Z.of_nat int_max_str_digits - 1)) /\
  make_update s = (Raise ValueError, s).
Proof.
  cbv zeta.
  assert (Hl : forall v,
             D_ams (loaded "adi.xml" (sample_ADI_version v))
             = map (fun c => (c, [("Product", "MOD"); ("Version_Major", v);
                                  ("Asset_Class", c)]))
                   ["package"; "title"; "movie"])
    by (intros v; vm_compute; reflexivity).
  set (v := nines int_max_str_digits).
  set (s := loaded "adi.xml" (sample_ADI_version v)).
  assert (Hd : D_ams s
               = map (fun c => (c, [("Product", "MOD"); ("Version_Major", v);
                                    ("Asset_Class", c)]))
                     ["package"; "title"; "movie"]) by apply Hl.
  assert (Hi : int_limited v = Ok (10 ^ Z.of_nat int_max_str_digits - 1))
    by (apply int_limited_nines; [discriminate | apply Nat.le_refl]).
  assert (Hv : forall c, version_of [("Product", "MOD"); ("Version_Major", v);
                                     ("Asset_Class", c)]
                         = Some (10 ^ Z.of_nat int_max_str_digits - 1)).
  { intros c. unfold version_of.
    change (dict_get "Version_Major"
                     [("Product", "MOD"); ("Version_Major", v);
                      ("Asset_Class", c)]) with (Some v).
    cbv beta iota. now rewrite Hi. }
  split; [|split].
  - unfold dict_wf. rewrite Hd. reflexivity.
  - intros sec attrs H. rewrite Hd in H. apply dict_get_In in H.
    cbn [map In] in H.
    repeat (destruct H as [H|H]; [inversion H; subst; apply Hv|]).
    destruct H.
  - unfold make_update. rewrite bind_get. apply bind_Raise.
    rewrite Hd. cbn [map dict_keys fst for_each]. apply bind_Raise.
    change (Raise (A:=unit) ValueError)
      with (Raise (A:=unit)
                  (version_error [("Product", "MOD"); ("Version_Major", v);
                                  ("Asset_Class", "package")])).
    apply make_update_step_fails.
    + rewrite Hd. reflexivity.
    + unfold advances. rewrite Hv.
      replace (10 ^ Z.of_nat int_max_str_digits - 1 + 1)
        with (10 ^ Z.of_nat int_max_str_digits) by lia.
      apply not_writable_power. apply Nat.le_refl.
Qed.

(** ** Reading a document section by section *)

Lemma rbind_Ok_inv {A B} (r : Result A) (k : A -> Result B) (b : B) :
  rbind r k = Ok b -> exists a, r = Ok a /\ k a = Ok b.
Proof. destruct r as [a|e]; simpl; [eauto | discriminate]. Qed.

Lemma deref_Ok_inv (o : option Element) (e : Element) :
  deref o = Ok e -> o = Some e.
Proof. destruct o; simpl; congruence. Qed.

Lemma subscript_Ok_inv {V} (d : dict V) (k : string) (v : V) :
  subscript d k = Ok v -> dict_get k d = Some v.
Proof. unfold subscript. destruct (dict_get k d); congruence. Qed.

Lemma init_asset_step_inv (ams : dict (dict string))
      (app : dict (dict AppValue)) (content : dict string)
      (ae_Asset : Element) (maps' : Maps) :
  init_asset_step (ams, app, content) ae_Asset = Ok maps' ->
  exists m a t parsed,
    find "Metadata" ae_Asset = Some m /\ find "AMS" m = Some a /\
    asset_class ae_Asset = Some t /\
    _parse_App_Data m = Ok parsed /\
    maps' = (dict_set t (attrib_of a) ams, dict_set t parsed app,
             match find "Content" ae_Asset with
             | Some c => match dict_get "Value" (attrib_of c) with
                         | Some v => dict_set t v content
                         | None => content
                         end
             | None => content
             end) /\
    (forall c, find "Content" ae_Asset = Some c ->
               dict_mem "Value" (attrib_of c) = true).
Proof.
  unfold init_asset_step. intros H.
  apply rbind_Ok_inv in H. destruct H as (m & Hm & H).
  apply rbind_Ok_inv in H. destruct H as (a & Ha & H).
  apply rbind_Ok_inv in H. destruct H as (t & Ht & H).
  apply rbind_Ok_inv in H. destruct H as (parsed & Hp & H).
  apply deref_Ok_inv in Hm, Ha. apply subscript_Ok_inv in Ht.
  exists m, a, t, parsed. unfold asset_class, asset_AMS. rewrite Hm, Ha.
  repeat (split; [first [reflexivity | assumption]|]).
  destruct (find "Content" ae_Asset) as [c|].
  - apply rbind_Ok_inv in H. destruct H as (v & Hv & H).
    apply subscript_Ok_inv in Hv. unfold dict_mem. rewrite Hv.
    split; [congruence|]. intros c' E. inversion E; subst. now rewrite Hv.
  - split; [congruence | discriminate].
Qed.

(** ** The derived flags *)

Lemma same_package_flags_refl (s : VodPackage) : same_package_flags s s.
Proof. repeat split. Qed.

Lemma same_package_flags_trans (s1 s2 s3 : VodPackage) :
  same_package_flags s1 s2 -> same_package_flags s2 s3 ->
  same_package_flags s1 s3.
Proof. unfold same_package_flags. intuition congruence. Qed.

Lemma same_package_flags_sync (s s' : VodPackage) :
  same_package_flags s s' -> flags_in_sync s = true ->
  flags_in_sync s' = true.
Proof.
  intros (H1 & H2 & H3). unfold flags_in_sync. now rewrite H1, H2, H3.
Qed.

Lemma remove_ae_same_package_flags (ae_type : string) (s : VodPackage) :
  ae_type <> "package" ->
  same_package_flags s (snd (_remove_ae ae_type s)).
Proof.
  intros Hne. unfold _remove_ae.
  destruct (dict_del ae_type (D_ams s)) as [ams|] eqn:E1;
    [|apply same_package_flags_refl].
  assert (Hp : dict_get "package" ams = dict_get "package" (D_ams s))
    by (apply (dict_get_del_other _ ae_type); [assumption | congruence]).
  cbn [D_app set_D_ams].
  destruct (dict_del ae_type (D_app s)) as [app|];
    [|repeat split; exact Hp].
  cbn [D_content set_D_app set_D_ams].
  destruct (dict_del ae_type (D_content s)); repeat split; exact Hp.
Qed.

Lemma remove_optional_same_package_flags (ae_type : string)
      (clear : VodPackage -> VodPackage) (s : VodPackage) :
  ae_type <> "package" ->
  (forall s0, same_package_flags s0 (clear s0)) ->
  same_package_flags s (snd ((_remove_ae ae_type ;; modify clear) s)).
Proof.
  intros Hne Hc. pose proof (remove_ae_same_package_flags ae_type s Hne) as H.
  unfold bind. destruct (_remove_ae ae_type s) as [[[]|e] s1]; cbn in *.
  - eapply same_package_flags_trans; [exact H | apply Hc].
  - exact H.
Qed.

Lemma dict_set_idem {V} (k : string) (v : V) (d : dict V) :
  dict_set k v (dict_set k v d) = dict_set k v d.
Proof.
  induction d as [|[k0 v0] d IH]; simpl.
  - now rewrite String.eqb_refl.
  - destruct (String.eqb_spec k k0) as [->|Hne]; simpl.
    + now rewrite String.eqb_refl.
    + apply String.eqb_neq in Hne. now rewrite Hne, IH.
Qed.

Lemma make_delete_loop (s : VodPackage) (ks : list string) :
  forall d,
    (forall k, In k ks -> dict_mem k d = true) ->
    exists d',
      for_each ks (fun ae_type => set_ams ae_type "Verb" "DELETE")
               (set_D_ams d s)
      = (Ok tt, set_D_ams d' s) /\
      (forall k, dict_get k d'
                 = if mem_string k ks
                   then option_map (dict_set "Verb" "DELETE") (dict_get k d)
                   else dict_get k d).
Proof.
  induction ks as [|k ks IH]; intros d Hd.
  - exists d. simpl. auto.
  - pose proof (Hd k (or_introl eq_refl)) as Hk. unfold dict_mem in Hk.
    destruct (dict_get k d) as [attrs|] eqn:Ha; [clear Hk | discriminate].
    set (d1 := dict_set k (dict_set "Verb" "DELETE" attrs) d).
    destruct (IH d1) as (d' & Hrun & Hget).
    { intros k' Hk'. unfold dict_mem, d1.
      destruct (String.eqb_spec k' k) as [->|Hne].
      - now rewrite dict_get_set_same.
      - rewrite dict_get_set_other by assumption.
        apply (Hd k'). now right. }
    exists d'. split.
    + cbn [for_each].
      rewrite (bind_Ok _ _ _ (set_D_ams d1 s) tt); [exact Hrun|].
      unfold set_ams. cbn [D_ams set_D_ams]. now rewrite Ha.
    + intros k'. rewrite Hget. cbn [mem_string]. unfold d1.
      destruct (String.eqb_spec k' k) as [->|Hne]; cbn [orb].
      * rewrite dict_get_set_same, Ha. cbn [option_map].
        rewrite dict_set_idem. now destruct (mem_string k ks).
      * now rewrite dict_get_set_other.
Qed.

Lemma make_delete_runs (s : VodPackage) :
  exists d',
    make_delete s = (Ok tt, set_is_delete true (set_D_ams d' s)) /\
    (forall k, dict_get k d'
               = option_map (dict_set "Verb" "DELETE") (dict_get k (D_ams s))).
Proof.
  destruct (make_delete_loop s (dict_keys (D_ams s)) (D_ams s))
    as (d' & Hrun & Hget).
  { intros k. apply dict_mem_In. }
  exists d'. split.
  - unfold make_delete. rewrite bind_get.
    rewrite (bind_Ok _ _ _ (set_D_ams d' s) tt); [reflexivity|].
    rewrite <- Hrun. now destruct s.
  - intros k. rewrite Hget.
    destruct (mem_string k (dict_keys (D_ams s))) eqn:E; [reflexivity|].
    apply mem_string_not_In, dict_get_None in E. now rewrite E.
Qed.

Lemma init_assets_keep_other (k : string) (assets : list Element) :
  ~ In (Some k) (map asset_class assets) ->
  forall ams app content ams' app' content',
    rfor_each assets (ams, app, content) init_asset_step
    = Ok (ams', app', content') ->
    dict_get k ams' = dict_get k ams /\
    dict_get k app' = dict_get k app /\
    dict_get k content' = dict_get k content.
Proof.
  induction assets as [|a assets IH]; intros Hn ams app content ams' app'
                                             content' H.
  - inversion H. auto.
  - cbn [rfor_each] in H. apply rbind_Ok_inv in H.
    destruct H as ([[ams1 app1] content1] & Hstep & H).
    apply init_asset_step_inv in Hstep.
    destruct Hstep as (m & el & t & parsed & _ & _ & Ht & _ & E & _).
    cbn [map] in Hn.
    assert (Hne : k <> t) by (intros ->; apply Hn; left; exact Ht).
    destruct (IH (fun X => Hn (or_intror X)) _ _ _ _ _ _ H) as (G1 & G2 & G3).
    inversion E; subst. rewrite G1, G2, G3.
    rewrite !dict_get_set_other by assumption.
    repeat split.
    destruct (find "Content" a) as [c|]; [|reflexivity].
    destruct (dict_get "Value" (attrib_of c)); [|reflexivity].
    now rewrite dict_get_set_other.
Qed.

(** What [__init__] has read when it succeeds. *)
Lemma init_Ok_inv (path : string) (ADI : Element) (s : VodPackage) :
  __init__ path ADI = Ok s ->
  exists package_Metadata package_AMS package_app
         title_Asset title_Metadata title_AMS title_app version,
    find "Metadata" ADI = Some package_Metadata /\
    find "AMS" package_Metadata = Some package_AMS /\
    _parse_App_Data package_Metadata = Ok package_app /\
    find "Asset" ADI = Some title_Asset /\
    find "Metadata" title_Asset = Some title_Metadata /\
    find "AMS" title_Metadata = Some title_AMS /\
    _parse_App_Data title_Metadata = Ok title_app /\
    rfor_each (findall "Asset" title_Asset)
              ([("package", attrib_of package_AMS);
                ("title", attrib_of title_AMS)],
               [("package", package_app); ("title", title_app)], [])
              init_asset_step
    = Ok (D_ams s, D_app s, D_content s) /\
    (exists package, dict_get "package" (D_ams s) = Some package /\
                     dict_get "Version_Major" package = Some version) /\
    xml_path s = path /\
    has_preview s = dict_mem "preview" (D_ams s) /\
    has_poster s = dict_mem "poster" (D_ams s) /\
    is_update s = negb (String.eqb version "1") /\
    is_delete s = String.eqb (dict_get_default (attrib_of package_AMS)
                                               "Verb" "") "DELETE".
Proof.
  unfold __init__. intros H.
  apply rbind_Ok_inv in H. destruct H as (pm & Hpm & H).
  apply rbind_Ok_inv in H. destruct H as (pa & Hpa & H).
  apply rbind_Ok_inv in H. destruct H as (papp & Hpapp & H).
  apply rbind_Ok_inv in H. destruct H as (ta & Hta & H).
  apply rbind_Ok_inv in H. destruct H as (tm & Htm & H).
  apply rbind_Ok_inv in H. destruct H as (tams & Htams & H).
  apply rbind_Ok_inv in H. destruct H as (tapp & Htapp & H).
  apply rbind_Ok_inv in H. destruct H as ([[ams app] content] & Hloop & H).
  apply rbind_Ok_inv in H. destruct H as (package & Hp & H).
  apply rbind_Ok_inv in H. destruct H as (version & Hv & H).
  apply deref_Ok_inv in Hpm, Hpa, Hta, Htm, Htams.
  apply subscript_Ok_inv in Hp, Hv.
  inversion H; subst; clear H. cbn.
  exists pm, pa, papp, ta, tm, tams, tapp, version.
  repeat (split; [first [assumption | reflexivity]|]).
  split; [eauto|]. repeat split.
Qed.

Lemma init_flags_in_sync (path : string) (ADI : Element) (s : VodPackage) :
  ~ In (Some "package") (map asset_class (asset_elements ADI)) ->
  __init__ path ADI = Ok s -> flags_in_sync s = true.
Proof.
  intros Hn H. apply init_Ok_inv in H.
  destruct H as (pm & pa & papp & ta & tm & tams & tapp & version & _ & _ & _
                 & Hta & _ & _ & _ & Hloop & (package & Hp & Hv) & _ & _ & _
                 & Hu & Hd).
  unfold asset_elements in Hn. rewrite Hta in Hn.
  destruct (init_assets_keep_other "package" _ Hn _ _ _ _ _ _ Hloop)
    as (G & _ & _).
  cbn in G. rewrite Hp in G. inversion G; subst.
  unfold flags_in_sync. rewrite Hp, Hv, Hu, Hd.
  now rewrite !Bool.eqb_reflx.
Qed.

Lemma make_delete_flags_in_sync (s : VodPackage) :
  flags_in_sync s = true ->
  fst (make_delete s) = Ok tt /\ flags_in_sync (snd (make_delete s)) = true.
Proof.
  intros H. destruct (make_delete_runs s) as (d' & Hrun & Hget).
  rewrite Hrun. split; [reflexivity|]. cbn [snd].
  unfold flags_in_sync in *. cbn. rewrite Hget.
  destruct (dict_get "package" (D_ams s)) as [package|]; [|discriminate].
  cbn [option_map]. rewrite dict_get_set_other by discriminate.
  destruct (dict_get "Version_Major" package) as [version|]; [|discriminate].
  apply andb_true_iff in H. destruct H as [H _]. rewrite H.
  unfold dict_get_default. now rewrite dict_get_set_same.
Qed.

Lemma make_update_flags_in_sync (s : VodPackage) :
  flags_in_sync s = true ->
  dict_wf (D_ams s) = true ->
  fst (make_update s) = Ok tt ->
  (forall package, dict_get "package" (D_ams s) = Some package ->
                   version_of package <> Some 0) ->
  flags_in_sync (snd (make_update s)) = true.
Proof.
  intros H Hwf Hok H0.
  assert (Hrun0 : make_update s = (Ok tt, snd (make_update s)))
    by (destruct (make_update s) as [r s']; cbn in Hok; now subst r).
  pose proof (make_update_Ok_advances s _ Hwf Hrun0) as Hv.
  destruct (make_update_once s Hwf Hv)
    as (s1 & Hrun & _ & Hget & _ & _ & Hu & Hd).
  rewrite Hrun. cbn [snd].
  unfold flags_in_sync in *. rewrite Hget, Hu, Hd.
  destruct (dict_get "package" (D_ams s)) as [package|] eqn:Hp;
    [|discriminate].
  cbn [option_map].
  destruct (advances_inv _ (Hv _ _ Hp)) as (z & Hz & Hw).
  destruct (version_of_bumped package z Hz Hw) as (G & _ & O).
  rewrite G. unfold dict_get_default in *. rewrite O by discriminate.
  destruct (dict_get "Version_Major" package); [|discriminate].
  apply andb_true_iff in H. destruct H as [_ H]. rewrite H, andb_true_r.
  destruct (String.eqb_spec (str (z + 1)) "1") as [E|]; [|reflexivity].
  exfalso. apply (H0 package eq_refl). rewrite Hz.
  change "1" with (str 1) in E. apply str_inj in E. f_equal. lia.
Qed.

(** C8, amended: the two invariants hold after construction (of a document
    with no nested asset of class "package"); [remove_preview],
    [remove_poster], [make_delete] and [check_files] preserve them, whether
    they succeed or fail; [make_update] preserves them when it succeeds on a
    package whose [Version_Major] is not 0.  (A [make_update] that fails
    after it has advanced the package section leaves [is_update] as it was,
    whatever the version now says.) *)
Theorem flags_stay_in_sync (env : Env) :
  (forall path ADI s,
     ~ In (Some "package") (map asset_class (asset_elements ADI)) ->
     __init__ path ADI = Ok s -> flags_in_sync s = true) /\
  (forall s,
     flags_in_sync s = true ->
     flags_in_sync (snd (remove_preview s)) = true /\
     flags_in_sync (snd (remove_poster s)) = true /\
     (fst (make_delete s) = Ok tt /\
      flags_in_sync (snd (make_delete s)) = true) /\
     (forall probed,
        flags_in_sync (self (snd (check_files env (mkWorld s probed))))
        = true) /\
     (dict_wf (D_ams s) = true ->
      fst (make_update s) = Ok tt ->
      (forall package, dict_get "package" (D_ams s) = Some package ->
                       version_of package <> Some 0) ->
      flags_in_sync (snd (make_update s)) = true)).
Proof.
  split; [exact init_flags_in_sync|].
  intros s H. split; [|split; [|split; [|split]]].
  - apply (same_package_flags_sync s); [|exact H].
    apply remove_optional_same_package_flags; [discriminate|].
    intros s0. repeat split.
  - apply (same_package_flags_sync s); [|exact H].
    apply remove_optional_same_package_flags; [discriminate|].
    intros s0. repeat split.
  - now apply make_delete_flags_in_sync.
  - intros probed. apply (same_package_flags_sync s); [|exact H].
    apply (keeps_check_files_app env same_package_flags
             same_package_flags_refl same_package_flags_trans
             (fun s0 d => same_package_flags_refl s0)
             (mkWorld s probed)).
  - now apply make_update_flags_in_sync.
Qed.

Lemma flags_stay_in_sync_witness :
  flags_in_sync sample_package = true /\
  flags_in_sync (snd (remove_preview sample_package)) = true /\
  flags_in_sync (snd (make_delete sample_package)) = true /\
  flags_in_sync
    (self (snd (check_files (sample_env []) (mkWorld sample_package []))))
  = true /\
  fst (make_update sample_package) = Ok tt /\
  flags_in_sync (snd (make_update sample_package)) = true.
Proof.
  assert (H : flags_in_sync sample_package = true).
  { apply (proj1 (flags_stay_in_sync (sample_env [])) "adi.xml" sample_ADI).
    - vm_compute. intros [E|[E|[E|[]]]]; discriminate.
    - reflexivity. }
  destruct (proj2 (flags_stay_in_sync (sample_env [])) sample_package H)
    as (H1 & _ & (_ & H3) & H4 & H5).
  assert (Hok : fst (make_update sample_package) = Ok tt)
    by (vm_compute; reflexivity).
  split; [exact H|]. split; [exact H1|]. split; [exact H3|].
  split; [exact (H4 [])|]. split; [exact Hok|].
  apply H5; [vm_compute; reflexivity | exact Hok|].
  intros package Hp.
  assert (E : dict_get "package" (D_ams sample_package)
              = Some (attrib_of (sample_AMS "package" "PACK0001")))
    by (vm_compute; reflexivity).
  rewrite E in Hp. inversion Hp; subst package.
  vm_compute. discriminate.
Defined.

(** C8 as stated fails for [make_update]: from version "0" it makes version
    "1" and sets [is_update], so the flag no longer says what the version
    says. *)
Lemma make_update_version_0_counterexample :
  let s := loaded "adi.xml" (sample_ADI_version "0") in
  flags_in_sync s = true /\
  fst (make_update s) = Ok tt /\
  flags_in_sync (snd (make_update s)) = false.
Proof. repeat split; vm_compute; reflexivity. Qed.

(** ** Sorting the items of a dictionary *)

Section SortedItems.

Context {V : Type}.
Implicit Types (x : string * V) (l : list (string * V)).

Lemma insert_sorted_perm x l : Permutation (insert_sorted x l) (x :: l).
Proof.
  induction l as [|y l IH]; simpl; [reflexivity|].
  destruct (String.leb (fst x) (fst y)); [reflexivity|].
  rewrite IH. apply perm_swap.
Qed.

Lemma sorted_items_perm l : Permutation (sorted_items l) l.
Proof.
  induction l as [|x l IH]; simpl; [reflexivity|].
  rewrite insert_sorted_perm. now constructor.
Qed.

Lemma insert_sorted_sorted x l :
  StronglySorted key_le l -> StronglySorted key_le (insert_sorted x l).
Proof.
  induction 1 as [|y l Hs IH Hy]; simpl.
  - repeat constructor.
  - destruct (String.leb (fst x) (fst y)) eqn:E.
    + constructor; [now constructor|]. constructor; [exact E|].
      eapply Forall_impl; [|exact Hy]. intros z Hz. unfold key_le in *.
      eapply leb_trans; eassumption.
    + constructor; [exact IH|].
      eapply Permutation_Forall; [symmetry; apply insert_sorted_perm|].
      constructor; [|exact Hy]. unfold key_le. now apply leb_false_flip.
Qed.

Lemma sorted_items_sorted l : StronglySorted key_le (sorted_items l).
Proof.
  induction l as [|x l IH]; simpl; [constructor|].
  now apply insert_sorted_sorted.
Qed.

Lemma sorted_items_keys_NoDup l :
  NoDup (map fst l) -> NoDup (map fst (sorted_items l)).
Proof.
  intros H. eapply Permutation_NoDup; [|exact H].
  apply Permutation_map. symmetry. apply sorted_items_perm.
Qed.

Lemma sorted_items_In x l : In x (sorted_items l) <-> In x l.
Proof.
  split; apply Permutation_in;
    [apply sorted_items_perm | symmetry; apply sorted_items_perm].
Qed.

Lemma dict_get_sorted_items (d : dict V) (k : string) :
  NoDup (dict_keys d) -> dict_get k (sorted_items d) = dict_get k d.
Proof.
  intros ND. destruct (dict_get k d) as [v|] eqn:E.
  - apply In_dict_get; [now apply sorted_items_keys_NoDup|].
    apply sorted_items_In. now apply dict_get_In.
  - apply dict_get_None. apply dict_get_None in E. intros H. apply E.
    unfold dict_keys in *. apply in_map_iff in H.
    destruct H as (x & <- & Hx). apply in_map. now apply sorted_items_In.
Qed.

End SortedItems.

(** Setting attributes one by one, from a list without repeated keys, gives
    that list. *)
Lemma fold_elem_set (items : dict string) :
  forall tag attrs children,
    NoDup (dict_keys attrs ++ dict_keys items) ->
    fold_left (fun e kv => elem_set e (fst kv) (snd kv)) items
              (Elem tag attrs children)
    = Elem tag (attrs ++ items)%list children.
Proof.
  induction items as [|[k v] items IH]; intros tag attrs children ND.
  - cbn. now rewrite app_nil_r.
  - cbn [fold_left elem_set fst snd].
    assert (Hk : ~ In k (dict_keys attrs)).
    { apply NoDup_remove_2 in ND. intros H. apply ND. apply in_or_app.
      now left. }
    rewrite dict_set_absent by exact Hk.
    rewrite IH.
    + now rewrite <- app_assoc.
    + unfold dict_keys in *. rewrite map_app, <- app_assoc. exact ND.
Qed.

Lemma write_AMS_sorted (attrs : dict string) :
  dict_wf attrs = true ->
  write_AMS attrs = Elem "AMS" (sorted_items attrs) [].
Proof.
  intros H. apply nodup_keys_NoDup in H. unfold write_AMS.
  rewrite fold_elem_set; [reflexivity|].
  now apply sorted_items_keys_NoDup.
Qed.

(** ** What [_write_App_Data] emits *)

Lemma add_children_nil (parent : Element) : add_children parent [] = parent.
Proof. destruct parent. cbn. now rewrite app_nil_r. Qed.

Lemma add_children_app (parent : Element) (l1 l2 : list Element) :
  add_children (add_children parent l1) l2 = add_children parent (l1 ++ l2).
Proof. destruct parent. cbn. now rewrite app_assoc. Qed.

Section Emit.

Variable env : Env.
Variable s : VodPackage.

Let elem (key value : string) : Element :=
  App_Data_elem (product_or_empty s) key value.

Lemma write_element_Some (key v : string) (parent : Element) (p : string) :
  package_product s = Some p ->
  write_App_Data_element s key (Ok v) parent
  = Ok (add_children parent [elem key v]).
Proof.
  unfold elem, product_or_empty, package_product, write_App_Data_element,
    subscript.
  destruct (dict_get "package" (D_ams s)) as [package|]; [|discriminate].
  intros H. cbn [rbind]. rewrite H. cbn. now destruct parent.
Qed.

Lemma write_element_None (key : string) (value : Result string)
      (parent : Element) :
  package_product s = None ->
  exists e, write_App_Data_element s key value parent = Raise e.
Proof.
  unfold package_product, write_App_Data_element, subscript.
  destruct (dict_get "package" (D_ams s)) as [package|]; cbn [rbind].
  - intros ->. cbn. eauto.
  - eauto.
Qed.

Lemma write_values_Some (key : string) (p : string) :
  package_product s = Some p ->
  forall vs parent,
    rfor_each vs parent
              (fun parent v => write_App_Data_element s key (Ok v) parent)
    = Ok (add_children parent (map (elem key) vs)).
Proof.
  intros Hp. induction vs as [|v vs IH]; intros parent; cbn [rfor_each map].
  - now rewrite add_children_nil.
  - rewrite (write_element_Some key v parent p Hp). cbn [rbind].
    rewrite IH, add_children_app. reflexivity.
Qed.

Lemma write_item_Some (parent : Element) (item : string * AppValue)
      (p : string) :
  package_product s = Some p ->
  item_typed (param_skip env) item = true ->
  write_App_Data_item env s parent item
  = Ok (add_children parent
          (map (elem (fst item))
               (emitted_values (param_skip env) (fst item) (snd item)))).
Proof.
  intros Hp Ht. destruct item as [key value].
  unfold write_App_Data_item, emitted_values, item_typed in *.
  cbn [fst snd] in *.
  destruct (mem_string key (param_skip env)).
  - now rewrite add_children_nil.
  - destruct (mem_string key _multiples).
    + destruct value; now apply write_values_Some with (p := p).
    + destruct value; [|discriminate].
      apply write_element_Some with (p := p). exact Hp.
Qed.

Lemma write_item_None (parent : Element) (item : string * AppValue)
      (out : Element) :
  package_product s = None ->
  write_App_Data_item env s parent item = Ok out ->
  emitted_values (param_skip env) (fst item) (snd item) = [] /\ out = parent.
Proof.
  intros Hp. destruct item as [key value].
  unfold write_App_Data_item, emitted_values. cbn [fst snd].
  destruct (mem_string key (param_skip env)); [intros H; now inversion H|].
  destruct (mem_string key _multiples).
  - destruct (match value with Multiple vs => vs | Single v => chars v end)
      as [|v vs] eqn:E.
    + cbn. intros H. inversion H. destruct value; auto.
    + cbn [rfor_each].
      destruct (write_element_None key (Ok v) parent Hp) as (e & ->).
      discriminate.
  - destruct (write_element_None
                key (match value with
                     | Single v => Ok v
                     | Multiple _ => Raise TypeError
                     end) parent Hp) as (e & ->).
    discriminate.
Qed.

Lemma write_item_typed (parent : Element) (item : string * AppValue)
      (out : Element) :
  write_App_Data_item env s parent item = Ok out ->
  item_typed (param_skip env) item = true.
Proof.
  destruct item as [key [v|vs]]; [reflexivity|].
  unfold write_App_Data_item, item_typed. cbn [fst snd].
  destruct (mem_string key (param_skip env)); [reflexivity|].
  destruct (mem_string key _multiples); [reflexivity|].
  unfold write_App_Data_element.
  destruct (subscript (D_ams s) "package") as [package|]; [|discriminate].
  cbn [rbind]. destruct (subscript package "Product"); discriminate.
Qed.

Lemma write_items_Some (p : string) :
  package_product s = Some p ->
  forall items parent,
    forallb (item_typed (param_skip env)) items = true ->
    rfor_each items parent (write_App_Data_item env s)
    = Ok (add_children parent
            (map (fun nv => elem (fst nv) (snd nv))
                 (flat_map (fun kv =>
                              map (pair (fst kv))
                                  (emitted_values (param_skip env)
                                                  (fst kv) (snd kv)))
                           items))).
Proof.
  intros Hp. induction items as [|item items IH]; intros parent Ht.
  - cbn. now rewrite add_children_nil.
  - cbn [forallb] in Ht. apply andb_true_iff in Ht. destruct Ht as [Ht Hts].
    cbn [rfor_each flat_map]. rewrite (write_item_Some parent item p Hp Ht).
    cbn [rbind]. rewrite IH by exact Hts.
    rewrite add_children_app, map_app, map_map. reflexivity.
Qed.

Lemma write_items_Ok_inv :
  forall items parent out,
    rfor_each items parent (write_App_Data_item env s) = Ok out ->
    let pairs := flat_map (fun kv =>
                             map (pair (fst kv))
                                 (emitted_values (param_skip env)
                                                 (fst kv) (snd kv)))
                          items in
    out = add_children parent (map (fun nv => elem (fst nv) (snd nv)) pairs) /\
    (pairs <> [] -> package_product s <> None) /\
    forallb (item_typed (param_skip env)) items = true.
Proof.
  induction items as [|item items IH]; intros parent out H.
  - cbn in *. inversion H. rewrite add_children_nil. auto.
  - cbn [rfor_each] in H. apply rbind_Ok_inv in H.
    destruct H as (mid & Hitem & Hrest).
    pose proof (write_item_typed _ _ _ Hitem) as Ht.
    destruct (IH _ _ Hrest) as (Eout & Hprod & Hts).
    cbn zeta. cbn [flat_map forallb]. rewrite Ht, Hts.
    destruct (package_product s) as [p|] eqn:Hp.
    + rewrite (write_item_Some parent item p Hp Ht) in Hitem.
      inversion Hitem; subst mid. rewrite Eout.
      rewrite add_children_app, map_app, map_map.
      repeat split. discriminate.
    + destruct (write_item_None _ _ _ Hp Hitem) as (E & ->).
      rewrite E. cbn [map app]. repeat split; assumption.
Qed.

End Emit.

(** ** Order and multiplicity of what is emitted *)

Lemma filter_map_comm {A B} (f : B -> bool) (g : A -> B) (l : list A) :
  filter f (map g l) = map g (filter (fun a => f (g a)) l).
Proof.
  induction l as [|a l IH]; cbn; [reflexivity|].
  destruct (f (g a)); cbn; now rewrite IH.
Qed.



Section FlatMapKeys.

Context {V W : Type} (g : string * V -> list W).

Let expand (l : list (string * V)) : list (string * W) :=
  flat_map (fun kv => map (pair (fst kv)) (g kv)) l.

Lemma expand_In (l : list (string * V)) (p : string * W) :
  In p (expand l) -> exists v, In (fst p, v) l /\ In (snd p) (g (fst p, v)).
Proof.
  unfold expand. rewrite in_flat_map. intros ([k v] & Hkv & Hp).
  apply in_map_iff in Hp. destruct Hp as (w & <- & Hw). cbn in *. eauto.
Qed.

Lemma expand_sorted (l : list (string * V)) :
  StronglySorted key_le l -> StronglySorted key_le (expand l).
Proof.
  induction 1 as [|[k v] l Hs IH Hx]; cbn; [constructor|].
  fold (expand l). induction (g (k, v)) as [|w ws IHw]; cbn; [exact IH|].
  constructor; [exact IHw|]. apply Forall_app. split.
  - apply Forall_map, Forall_forall. intros w' _. apply leb_refl.
  - apply Forall_forall. intros p Hp. apply expand_In in Hp.
    destruct Hp as (v' & Hin & _).
    rewrite Forall_forall in Hx. exact (Hx _ Hin).
Qed.

Lemma expand_filter_absent (k : string) (l : list (string * V)) :
  ~ In k (map fst l) ->
  filter (fun p => String.eqb (fst p) k) (expand l) = [].
Proof.
  intros Hn. induction l as [|[k0 v0] l IH]; cbn; [reflexivity|].
  fold (expand l). rewrite filter_app, IH by (intros H; apply Hn; now right).
  rewrite app_nil_r, filter_map_comm. cbn [fst].
  destruct (String.eqb_spec k0 k) as [->|Hne].
  - exfalso. apply Hn. now left.
  - clear. induction (g (k0, v0)); cbn; auto.
Qed.

Lemma expand_filter_present (k : string) (v : V) (l : list (string * V)) :
  NoDup (map fst l) -> In (k, v) l ->
  filter (fun p => String.eqb (fst p) k) (expand l) = map (pair k) (g (k, v)).
Proof.
  induction l as [|[k0 v0] l IH]; cbn [map fst]; intros ND Hin; [destruct Hin|].
  inversion ND as [|? ? Hk0 ND']; subst. cbn [expand flat_map].
  fold (expand l). rewrite filter_app, filter_map_comm. cbn [fst].
  destruct Hin as [E|Hin].
  - inversion E; subst. rewrite String.eqb_refl.
    rewrite expand_filter_absent by exact Hk0. rewrite app_nil_r.
    clear. f_equal. induction (g (k, v)); cbn; [reflexivity | now f_equal].
  - destruct (String.eqb_spec k0 k) as [->|Hne].
    + exfalso. apply Hk0. now apply (in_map fst) in Hin.
    + rewrite IH by assumption.
      replace (filter (fun _ => false) (g (k0, v0))) with (@nil W)
        by (clear; induction (g (k0, v0)); cbn; auto).
      reflexivity.
Qed.

End FlatMapKeys.

Lemma emitted_pairs_sorted (skip : list string) (app : dict AppValue) :
  StronglySorted key_le (emitted_pairs skip app).
Proof.
  unfold emitted_pairs.
  apply (expand_sorted (fun kv => emitted_values skip (fst kv) (snd kv))).
  apply sorted_items_sorted.
Qed.


Lemma emitted_pairs_filter (skip : list string) (app : dict AppValue)
      (key : string) :
  dict_wf app = true ->
  filter (fun p => String.eqb (fst p) key) (emitted_pairs skip app)
  = match dict_get key app with
    | Some value => map (pair key) (emitted_values skip key value)
    | None => []
    end.
Proof.
  intros Hwf. apply nodup_keys_NoDup in Hwf. unfold emitted_pairs.
  destruct (dict_get key app) as [value|] eqn:E.
  - apply (expand_filter_present
             (fun kv => emitted_values skip (fst kv) (snd kv)) key value).
    + now apply sorted_items_keys_NoDup.
    + apply sorted_items_In. now apply dict_get_In.
  - apply (expand_filter_absent
             (fun kv => emitted_values skip (fst kv) (snd kv))).
    apply dict_get_None in E. intros H. apply E.
    unfold dict_keys. apply in_map_iff in H. destruct H as (x & <- & Hx).
    apply in_map. now apply sorted_items_In.
Qed.

Lemma write_App_Data_Ok_inv (env : Env) (s : VodPackage) (ae_type : string)
      (parent out : Element) :
  _write_App_Data env s ae_type parent = Ok out ->
  exists app,
    dict_get ae_type (D_app s) = Some app /\
    out = add_children parent
            (map (fun nv =>
                    App_Data_elem (product_or_empty s) (fst nv) (snd nv))
                 (emitted_pairs (param_skip env) app)) /\
    (emitted_pairs (param_skip env) app <> [] -> package_product s <> None) /\
    forallb (item_typed (param_skip env)) (sorted_items app) = true.
Proof.
  unfold _write_App_Data. intros H. apply rbind_Ok_inv in H.
  destruct H as (app & Ha & H). apply subscript_Ok_inv in Ha.
  exists app. split; [exact Ha|]. exact (write_items_Ok_inv env s _ _ _ H).
Qed.



(** ** What [_parse_App_Data] builds *)

Lemma rfor_each_app {A B} (xs ys : list A) (acc : B)
      (body : B -> A -> Result B) :
  rfor_each (xs ++ ys) acc body
  = rbind (rfor_each xs acc body) (fun acc' => rfor_each ys acc' body).
Proof.
  revert acc. induction xs as [|x xs IH]; intros acc; cbn; [reflexivity|].
  destruct (body acc x); cbn; [apply IH | reflexivity].
Qed.

Lemma values_for_app (key : string) (l1 l2 : list (string * string)) :
  values_for key (l1 ++ l2) = (values_for key l1 ++ values_for key l2)%list.
Proof. unfold values_for. now rewrite filter_app, map_app. Qed.

Lemma parse_elements_spec (es : list Element) :
  forallb named es = true ->
  exists D,
    rfor_each es [] parse_App_Data_step = Ok D /\
    dict_wf D = true /\
    forall key,
      dict_get key D
      = parsed_value key (map (fun e => (name_of e, value_of e)) es).
Proof.
  induction es as [|e es IH] using rev_ind; intros Hn.
  - exists []. repeat split.
  - rewrite forallb_app in Hn. apply andb_true_iff in Hn.
    destruct Hn as [Hes He]. cbn in He. rewrite andb_true_r in He.
    destruct (IH Hes) as (D & Hrun & Hwf & Hget).
    unfold named, dict_mem in He. apply andb_true_iff in He.
    destruct (dict_get "Name" (attrib_of e)) as [name|] eqn:En;
      [|destruct He; discriminate].
    destruct (dict_get "Value" (attrib_of e)) as [value|] eqn:Ev;
      [|destruct He; discriminate].
    clear He.
    assert (Name : name_of e = name)
      by (unfold name_of, dict_get_default; now rewrite En).
    assert (Value : value_of e = value)
      by (unfold value_of, dict_get_default; now rewrite Ev).
    set (pairs := map (fun e => (name_of e, value_of e)) es) in *.
    assert (Hstep : exists D',
               parse_App_Data_step D e = Ok D' /\
               D' = dict_set name
                      (if mem_string name _multiples
                       then Multiple (values_for name pairs ++ [value])
                       else Single value) D).
    { unfold parse_App_Data_step, subscript. rewrite En, Ev. cbn [rbind].
      destruct (mem_string name _multiples) eqn:Hm; [|eauto].
      rewrite (Hget name). unfold parsed_value. rewrite Hm.
      destruct (values_for name pairs); eauto. }
    destruct Hstep as (D' & Hstep & ED').
    exists D'. split; [|split].
    + rewrite rfor_each_app, Hrun. cbn [rbind rfor_each]. now rewrite Hstep.
    + subst D'. now apply dict_wf_set.
    + intros key. rewrite map_app. cbn [map]. rewrite Name, Value.
      fold pairs. unfold parsed_value. rewrite values_for_app.
      unfold values_for at 2. cbn [filter fst].
      subst D'. destruct (String.eqb_spec name key) as [->|Hne].
      * rewrite dict_get_set_same. cbn [map snd].
        destruct (values_for key pairs ++ [value])%list eqn:E.
        { apply app_eq_nil in E. destruct E. discriminate. }
        rewrite <- E. destruct (mem_string key _multiples); [reflexivity|].
        now rewrite last_last.
      * rewrite dict_get_set_other by congruence. cbn [map].
        rewrite app_nil_r. apply Hget.
Qed.

Lemma parse_App_Data_spec (m : Element) :
  forallb named (findall "App_Data" m) = true ->
  exists D,
    _parse_App_Data m = Ok D /\ dict_wf D = true /\
    forall key, dict_get key D = parsed_value key (app_data_pairs m).
Proof. apply parse_elements_spec. Qed.

Lemma filter_pairs_values (key : string) (pairs : list (string * string)) :
  filter (fun p => String.eqb (fst p) key) pairs
  = map (pair key) (values_for key pairs).
Proof.
  unfold values_for. induction pairs as [|[k v] pairs IH]; cbn; [reflexivity|].
  destruct (String.eqb_spec k key) as [->|]; cbn; [f_equal|]; exact IH.
Qed.

(** A name outside [_multiples] that occurs once at most has one value at
    most. *)
Lemma single_values_for (key : string) (pairs : list (string * string)) :
  mem_string key _multiples = false ->
  nodup_keys (filter (fun k => negb (mem_string k _multiples))
                     (map fst pairs)) = true ->
  values_for key pairs = [] \/ exists v, values_for key pairs = [v].
Proof.
  intros Hm. unfold values_for.
  induction pairs as [|[k v] pairs IH]; cbn [map filter fst]; [now left|].
  destruct (String.eqb_spec k key) as [->|Hne].
  - rewrite Hm. cbn [negb nodup_keys]. intros H.
    apply andb_true_iff in H. destruct H as [H1 H2].
    right. exists v. cbn [map snd]. f_equal.
    apply negb_true_iff, mem_string_not_In in H1.
    clear IH H2. induction pairs as [|[k' v'] pairs IH]; [reflexivity|].
    cbn [map filter fst] in *.
    destruct (String.eqb_spec k' key) as [->|Hne].
    + exfalso. apply H1. rewrite Hm. now left.
    + apply IH. intros H. apply H1.
      destruct (negb (mem_string k' _multiples)); [now right | exact H].
  - intros H. apply IH.
    destruct (negb (mem_string k _multiples)); [|exact H].
    cbn [nodup_keys] in H. apply andb_true_iff in H. now destruct H.
Qed.

(** The pairs written for a parsed section are the pairs read, name by
    name, but for the names of the skip list. *)
Lemma emitted_parsed_filter (skip : list string) (m : Element)
      (D : dict AppValue) (key : string) :
  metadata_ok m = true ->
  dict_wf D = true ->
  (forall k, dict_get k D = parsed_value k (app_data_pairs m)) ->
  filter (fun p => String.eqb (fst p) key) (emitted_pairs skip D)
  = if mem_string key skip then []
    else filter (fun p => String.eqb (fst p) key) (app_data_pairs m).
Proof.
  intros Hok Hwf Hget. unfold metadata_ok in Hok.
  apply andb_true_iff in Hok. destruct Hok as [_ Hsingle].
  rewrite emitted_pairs_filter, Hget by exact Hwf.
  rewrite filter_pairs_values. unfold parsed_value, emitted_values.
  destruct (values_for key (app_data_pairs m)) as [|v vs] eqn:E.
  - now destruct (mem_string key skip).
  - destruct (mem_string key skip); [reflexivity|].
    destruct (mem_string key _multiples) eqn:Hm; [reflexivity|].
    destruct (single_values_for key _ Hm Hsingle) as [H|(v' & H)];
      rewrite E in H; [discriminate|].
    inversion H; subst. reflexivity.
Qed.

Lemma parsed_typed (skip : list string) (m : Element) (D : dict AppValue) :
  dict_wf D = true ->
  (forall k, dict_get k D = parsed_value k (app_data_pairs m)) ->
  forallb (item_typed skip) (sorted_items D) = true.
Proof.
  intros Hwf Hget. apply forallb_forall. intros [k value] Hin.
  apply (proj1 (sorted_items_In _ _)) in Hin.
  apply nodup_keys_NoDup in Hwf.
  apply In_dict_get in Hin; [|exact Hwf]. rewrite Hget in Hin.
  unfold parsed_value in Hin. unfold item_typed. cbn [fst snd].
  destruct (values_for k (app_data_pairs m)); [discriminate|].
  destruct (mem_string k _multiples); inversion Hin; subst;
    [apply orb_true_r | reflexivity].
Qed.

(** ** Loading a well-formed document *)

Lemma section_ok_inv (e : Element) :
  section_ok e = true ->
  exists m el parsed,
    find "Metadata" e = Some m /\ find "AMS" m = Some el /\
    _parse_App_Data m = Ok parsed /\
    section_loaded m (Some (attrib_of el)) (Some parsed).
Proof.
  unfold section_ok. destruct (find "Metadata" e) as [m|]; [|discriminate].
  destruct (find "AMS" m) as [el|] eqn:Eel; [|discriminate].
  intros H. apply andb_true_iff in H. destruct H as [Hwf Hok].
  pose proof Hok as Hok'. unfold metadata_ok in Hok'.
  apply andb_true_iff in Hok'. destruct Hok' as [Hnamed _].
  destruct (parse_App_Data_spec m Hnamed) as (D & Hrun & HwfD & Hget).
  exists m, el, D. repeat (split; [first [reflexivity | assumption]|]).
  exists el, D. repeat (split; [first [reflexivity | assumption]|]).
  exact Hget.
Qed.

Lemma init_asset_step_Ok (ams : dict (dict string))
      (app : dict (dict AppValue)) (content : dict string) (a : Element) :
  asset_ok a = true ->
  exists m el parsed t,
    find "Metadata" a = Some m /\
    asset_class a = Some t /\
    mem_string t ["movie"; "preview"; "poster"] = true /\
    dict_get "Asset_Class" (attrib_of el) = Some t /\
    section_loaded m (Some (attrib_of el)) (Some parsed) /\
    init_asset_step (ams, app, content) a
    = Ok (dict_set t (attrib_of el) ams, dict_set t parsed app,
          match asset_content a with
          | Some v => dict_set t v content
          | None => content
          end).
Proof.
  unfold asset_ok. intros H. apply andb_true_iff in H.
  destruct H as [H Hc]. apply andb_true_iff in H. destruct H as [Hs Ht].
  destruct (section_ok_inv a Hs) as (m & el & parsed & Hm & Hel & Hp & Hl).
  unfold asset_class, asset_AMS in *. rewrite Hm, Hel in *.
  destruct (dict_get "Asset_Class" (attrib_of el)) as [t|] eqn:Et;
    [|discriminate].
  exists m, el, parsed, t. repeat (split; [first [reflexivity|assumption]|]).
  unfold init_asset_step, asset_content. rewrite Hm. cbn [deref rbind].
  rewrite Hel. cbn [deref rbind]. unfold subscript at 1. rewrite Et.
  cbn [rbind]. rewrite Hp. cbn [rbind].
  destruct (find "Content" a) as [c|]; [|reflexivity].
  unfold dict_mem in Hc. unfold subscript.
  destruct (dict_get "Value" (attrib_of c)); [reflexivity | discriminate].
Qed.

Lemma has_class_class_or_empty (k : string) (a : Element) :
  has_class k a = true -> class_or_empty a = k /\ asset_class a = Some k.
Proof.
  unfold has_class, class_or_empty. destruct (asset_class a); [|discriminate].
  intros H. apply String.eqb_eq in H. now subst.
Qed.

Lemma asset_of_class_Some (k : string) (assets : list Element) (a : Element) :
  asset_of_class k assets = Some a -> In a assets /\ has_class k a = true.
Proof.
  induction assets as [|x assets IH]; cbn; [discriminate|].
  destruct (has_class k x) eqn:E.
  - intros H. inversion H; subst. auto.
  - intros H. destruct (IH H). auto.
Qed.

Lemma asset_of_class_None (k : string) (assets : list Element) :
  ~ In k (map class_or_empty assets) -> asset_of_class k assets = None.
Proof.
  induction assets as [|x assets IH]; cbn; [reflexivity|]. intros Hn.
  destruct (has_class k x) eqn:E.
  - apply has_class_class_or_empty in E. destruct E as [E _].
    exfalso. apply Hn. now left.
  - apply IH. intros H. apply Hn. now right.
Qed.

Lemma init_assets_spec (assets : list Element) :
  forallb asset_ok assets = true ->
  NoDup (map class_or_empty assets) ->
  forall ams0 app0 content0,
  exists ams app content,
    rfor_each assets (ams0, app0, content0) init_asset_step
    = Ok (ams, app, content) /\
    forall k, asset_loaded assets k ams0 ams app0 app content0 content.
Proof.
  induction assets as [|a assets IH]; intros Hok ND ams0 app0 content0.
  - exists ams0, app0, content0. split; [reflexivity|].
    intros k. unfold asset_loaded. cbn. auto.
  - cbn [forallb] in Hok. apply andb_true_iff in Hok.
    destruct Hok as [Ha Hok]. cbn [map] in ND.
    inversion ND as [|? ? Hnin ND']; subst.
    destruct (init_asset_step_Ok ams0 app0 content0 a Ha)
      as (m & el & parsed & t & Hm & Ht & _ & _ & Hl & Hstep).
    destruct (IH Hok ND' (dict_set t (attrib_of el) ams0)
                 (dict_set t parsed app0)
                 (match asset_content a with
                  | Some v => dict_set t v content0
                  | None => content0
                  end))
      as (ams & app & content & Hrun & Hspec).
    exists ams, app, content. split.
    + cbn [rfor_each]. rewrite Hstep. exact Hrun.
    + intros k. specialize (Hspec k). unfold asset_loaded in *.
      cbn [asset_of_class]. unfold has_class at 1. rewrite Ht.
      assert (Ec : class_or_empty a = t)
        by (unfold class_or_empty; now rewrite Ht).
      destruct (String.eqb_spec t k) as [->|Hne].
      * rewrite asset_of_class_None in Hspec by (rewrite <- Ec; exact Hnin).
        destruct Hspec as (G1 & G2 & G3).
        rewrite G1, G2, G3, !dict_get_set_same. split.
        -- exists m. split; [exact Hm | exact Hl].
        -- destruct (asset_content a); [apply dict_get_set_same|reflexivity].
      * assert (Hk : k <> t) by congruence.
        rewrite !dict_get_set_other in Hspec by exact Hk.
        replace (dict_get k match asset_content a with
                            | Some v => dict_set t v content0
                            | None => content0
                            end)
          with (dict_get k content0) in Hspec
          by (destruct (asset_content a);
              [now rewrite dict_get_set_other | reflexivity]).
        exact Hspec.
Qed.

Lemma asset_of_class_found (k : string) (assets : list Element) :
  forallb asset_ok assets = true ->
  In k (map class_or_empty assets) ->
  asset_of_class k assets <> None.
Proof.
  induction assets as [|a assets IH]; cbn [map forallb In asset_of_class];
    [tauto|].
  intros Hok Hin. apply andb_true_iff in Hok. destruct Hok as [Ha Hok].
  destruct (has_class k a) eqn:E; [discriminate|].
  destruct Hin as [Hin|Hin]; [|now apply IH].
  exfalso. unfold asset_ok in Ha. apply andb_true_iff in Ha.
  destruct Ha as [Ha _]. apply andb_true_iff in Ha. destruct Ha as [_ Ha].
  unfold has_class, class_or_empty in *.
  destruct (asset_class a); [|discriminate].
  subst. now rewrite String.eqb_refl in E.
Qed.

Lemma asset_of_class_restricted (k : string) (assets : list Element) :
  forallb asset_ok assets = true ->
  mem_string k ["movie"; "preview"; "poster"] = false ->
  asset_of_class k assets = None.
Proof.
  intros Hok Hk. destruct (asset_of_class k assets) as [a|] eqn:E;
    [|reflexivity].
  apply asset_of_class_Some in E. destruct E as [Hin Hc].
  rewrite forallb_forall in Hok. specialize (Hok a Hin).
  unfold asset_ok in Hok. apply andb_true_iff in Hok.
  destruct Hok as [Hok _]. apply andb_true_iff in Hok.
  destruct Hok as [_ Hok].
  apply has_class_class_or_empty in Hc. destruct Hc as [_ Hc].
  rewrite Hc in Hok. congruence.
Qed.

(** The package that [__init__] builds from a well-formed document. *)
Lemma init_well_formed (path : string) (ADI : Element) :
  well_formed ADI = true ->
  exists s,
    __init__ path ADI = Ok s /\
    (exists pm,
        find "Metadata" ADI = Some pm /\
        section_loaded pm (dict_get "package" (D_ams s))
                       (dict_get "package" (D_app s))) /\
    (exists ta tm,
        find "Asset" ADI = Some ta /\ find "Metadata" ta = Some tm /\
        section_loaded tm (dict_get "title" (D_ams s))
                       (dict_get "title" (D_app s))) /\
    (forall k, k <> "package" -> k <> "title" ->
               asset_loaded (asset_elements ADI) k [] (D_ams s) [] (D_app s)
                            [] (D_content s)) /\
    package_product s <> None /\
    dict_mem "movie" (D_ams s) = true.
Proof.
  unfold well_formed. intros H.
  apply andb_true_iff in H. destruct H as [H Hmovie].
  apply andb_true_iff in H. destruct H as [H Hnodup].
  apply andb_true_iff in H. destruct H as [H Hassets].
  apply andb_true_iff in H. destruct H as [H Htitle].
  apply andb_true_iff in H. destruct H as [Hpackage Hver].
  destruct (section_ok_inv ADI Hpackage)
    as (pm & pa & papp & Hpm & Hpa & Hpp & Hpl).
  unfold section_AMS, section_Metadata in Hver.
  change (String.eqb "package" "package") with true in Hver. cbv iota in Hver.
  rewrite Hpm in Hver. rewrite Hpa in Hver. cbn [option_map] in Hver.
  apply andb_true_iff in Hver. destruct Hver as [Hversion Hproduct].
  unfold asset_elements in *.
  destruct (find "Asset" ADI) as [ta|] eqn:Hta; [|discriminate].
  destruct (section_ok_inv ta Htitle)
    as (tm & tams & tapp & Htm & Htams & Htp & Htl).
  apply nodup_keys_NoDup in Hnodup.
  destruct (init_assets_spec
              (findall "Asset" ta) Hassets Hnodup
              [("package", attrib_of pa); ("title", attrib_of tams)]
              [("package", papp); ("title", tapp)] [])
    as (ams & app & content & Hrun & Hspec).
  assert (Hp : asset_of_class "package" (findall "Asset" ta) = None)
    by (now apply asset_of_class_restricted).
  assert (Ht : asset_of_class "title" (findall "Asset" ta) = None)
    by (now apply asset_of_class_restricted).
  pose proof (Hspec "package") as Sp. unfold asset_loaded in Sp.
  rewrite Hp in Sp. destruct Sp as (Sp1 & Sp2 & _). cbn in Sp1, Sp2.
  pose proof (Hspec "title") as St. unfold asset_loaded in St.
  rewrite Ht in St. destruct St as (St1 & St2 & _). cbn in St1, St2.
  unfold dict_mem in Hversion.
  destruct (dict_get "Version_Major" (attrib_of pa)) as [version|] eqn:Ev;
    [|discriminate].
  eexists. split; [|split; [|split; [|split; [|split]]]].
  - unfold __init__. rewrite Hpm. cbn [deref rbind]. rewrite Hpa.
    cbn [deref rbind]. rewrite Hpp. cbn [rbind]. rewrite Hta.
    cbn [deref rbind]. rewrite Htm.
    cbn [deref rbind]. rewrite Htams. cbn [deref rbind]. rewrite Htp.
    cbn [rbind].
    change (dict_set "title" (attrib_of tams)
                     (dict_set "package" (attrib_of pa) []))
      with [("package", attrib_of pa); ("title", attrib_of tams)].
    change (dict_set "title" tapp (dict_set "package" papp []))
      with [("package", papp); ("title", tapp)].
    match goal with
    | |- rbind ?r _ = _ =>
        replace r with (@Ok Maps (ams, app, content))
          by (symmetry; exact Hrun)
    end. cbn [rbind]. unfold subscript. rewrite Sp1.
    cbn [rbind]. rewrite Ev. cbn [rbind]. reflexivity.
  - exists pm. split; [exact Hpm|]. cbn [D_ams D_app].
    rewrite Sp1, Sp2. exact Hpl.
  - exists ta, tm. split; [reflexivity|]. split; [exact Htm|].
    cbn [D_ams D_app]. rewrite St1, St2. exact Htl.
  - intros k Hk1 Hk2. cbn [D_ams D_app D_content].
    specialize (Hspec k). unfold asset_loaded in *.
    destruct (asset_of_class k (findall "Asset" ta)); [exact Hspec|].
    destruct Hspec as (G1 & G2 & G3). rewrite G1, G2, G3. cbn.
    apply String.eqb_neq in Hk1, Hk2. now rewrite Hk1, Hk2.
  - unfold package_product. cbn [D_ams]. rewrite Sp1.
    unfold dict_mem in Hproduct.
    destruct (dict_get "Product" (attrib_of pa)); congruence.
  - cbn [D_ams]. unfold dict_mem.
    apply mem_string_In in Hmovie.
    pose proof (asset_of_class_found "movie" _ Hassets Hmovie) as Hfound.
    specialize (Hspec "movie"). unfold asset_loaded in Hspec.
    destruct (asset_of_class "movie" (findall "Asset" ta)); [|congruence].
    destruct Hspec as ((m & _ & el & parsed & _ & _ & E & _) & _).
    now rewrite E.
Qed.

(** ** The tree that is written *)

Lemma write_Metadata_Ok (env : Env) (s : VodPackage) (ae_type product : string)
      (attrs : dict string) (app : dict AppValue) :
  package_product s = Some product ->
  section_writable (param_skip env) s ae_type attrs app ->
  write_Metadata env s ae_type
  = Ok (built_Metadata (param_skip env) product attrs app).
Proof.
  intros Hp (Ha & Hwf & Happ & Ht).
  unfold write_Metadata, _write_App_Data, subscript. rewrite Ha, Happ.
  cbn [rbind]. rewrite (write_items_Some env s product Hp) by exact Ht.
  rewrite write_AMS_sorted by exact Hwf.
  unfold product_or_empty. rewrite Hp. reflexivity.
Qed.

Lemma write_asset_element_Ok (env : Env) (s : VodPackage)
      (ae_type product : string) (attrs : dict string) (app : dict AppValue)
      (title_Asset : Element) :
  package_product s = Some product ->
  section_writable (param_skip env) s ae_type attrs app ->
  write_asset_element env s title_Asset ae_type
  = Ok (append_child title_Asset
          (built_Asset (param_skip env) product attrs app
                       (dict_get ae_type (D_content s)))).
Proof.
  intros Hp Hw. unfold write_asset_element, dict_mem.
  rewrite (write_Metadata_Ok env s ae_type product attrs app Hp Hw).
  destruct Hw as (Ha & _). rewrite Ha. cbn [negb rbind].
  now destruct (dict_get ae_type (D_content s)).
Qed.

Lemma write_asset_element_absent (env : Env) (s : VodPackage)
      (ae_type : string) (title_Asset : Element) :
  dict_get ae_type (D_ams s) = None ->
  write_asset_element env s title_Asset ae_type = Ok title_Asset.
Proof.
  intros H. unfold write_asset_element, dict_mem. now rewrite H.
Qed.

Lemma write_asset_element_built (env : Env) (s : VodPackage)
      (ae_type product : string) (title_Asset : Element) :
  package_product s = Some product ->
  writable_or_absent (param_skip env) s ae_type ->
  write_asset_element env s title_Asset ae_type
  = Ok (add_children title_Asset (section_built (param_skip env) s ae_type)).
Proof.
  intros Hp [(attrs & app & Hw)|Hn].
  - rewrite (write_asset_element_Ok env s ae_type product attrs app _ Hp Hw).
    unfold section_built, product_or_empty.
    destruct Hw as (Ha & _ & Happ & _). rewrite Ha, Happ, Hp.
    now destruct title_Asset.
  - rewrite write_asset_element_absent by exact Hn.
    unfold section_built. rewrite Hn. now rewrite add_children_nil.
Qed.

Lemma build_ADI_Ok (env : Env) (s : VodPackage) (product : string)
      (pattrs tattrs : dict string) (papp tapp : dict AppValue) :
  package_product s = Some product ->
  section_writable (param_skip env) s "package" pattrs papp ->
  section_writable (param_skip env) s "title" tattrs tapp ->
  (forall t, In t ["movie"; "preview"; "poster"] ->
             writable_or_absent (param_skip env) s t) ->
  build_ADI env s
  = Ok (Elem "ADI" []
          [built_Metadata (param_skip env) product pattrs papp;
           Elem "Asset" []
                (built_Metadata (param_skip env) product tattrs tapp
                 :: (section_built (param_skip env) s "movie"
                     ++ section_built (param_skip env) s "preview"
                     ++ section_built (param_skip env) s "poster")%list)]).
Proof.
  intros Hp Hpk Hti Has. unfold build_ADI.
  rewrite (write_Metadata_Ok env s "package" product pattrs papp Hp Hpk).
  cbn [rbind].
  rewrite (write_Metadata_Ok env s "title" product tattrs tapp Hp Hti).
  cbn [rbind rfor_each].
  rewrite (write_asset_element_built env s "movie" product)
    by (auto; apply Has; cbn; auto).
  cbn [rbind].
  rewrite (write_asset_element_built env s "preview" product)
    by (auto; apply Has; cbn; auto).
  cbn [rbind].
  rewrite (write_asset_element_built env s "poster" product)
    by (auto; apply Has; cbn; auto).
  cbn [rbind]. rewrite !add_children_app. reflexivity.
Qed.

(** ** Reading back the tree that is written *)

Lemma findall_App_Data_elems (product : string)
      (pairs : list (string * string)) :
  filter (fun c => String.eqb (tag_of c) "App_Data")
         (map (fun nv => App_Data_elem product (fst nv) (snd nv)) pairs)
  = map (fun nv => App_Data_elem product (fst nv) (snd nv)) pairs.
Proof. induction pairs as [|p pairs IH]; cbn; [reflexivity | now f_equal]. Qed.

Lemma app_data_pairs_built (skip : list string) (product : string)
      (attrs : dict string) (app : dict AppValue) :
  app_data_pairs (built_Metadata skip product attrs app)
  = emitted_pairs skip app.
Proof.
  unfold app_data_pairs, built_Metadata, findall. cbn [children_of filter].
  change (String.eqb (tag_of (Elem "AMS" (sorted_items attrs) [])) "App_Data")
    with false. cbv iota.
  rewrite findall_App_Data_elems, map_map.
  induction (emitted_pairs skip app) as [|[k v] l IH]; cbn; [reflexivity|].
  now f_equal.
Qed.

Lemma find_AMS_built (skip : list string) (product : string)
      (attrs : dict string) (app : dict AppValue) :
  find "AMS" (built_Metadata skip product attrs app)
  = Some (Elem "AMS" (sorted_items attrs) []).
Proof. reflexivity. Qed.

Lemma find_Metadata_built (skip : list string) (product : string)
      (attrs : dict string) (app : dict AppValue) (content : option string) :
  find "Metadata" (built_Asset skip product attrs app content)
  = Some (built_Metadata skip product attrs app).
Proof. reflexivity. Qed.

Lemma asset_class_built (skip : list string) (product : string)
      (attrs : dict string) (app : dict AppValue) (content : option string) :
  dict_wf attrs = true ->
  asset_class (built_Asset skip product attrs app content)
  = dict_get "Asset_Class" attrs.
Proof.
  intros Hwf. unfold asset_class, asset_AMS.
  rewrite find_Metadata_built, find_AMS_built. cbn [attrib_of].
  apply dict_get_sorted_items. now apply nodup_keys_NoDup.
Qed.

Lemma asset_content_built (skip : list string) (product : string)
      (attrs : dict string) (app : dict AppValue) (content : option string) :
  asset_content (built_Asset skip product attrs app content) = content.
Proof. now destruct content. Qed.

Lemma asset_of_class_app (k : string) (l1 l2 : list Element) :
  asset_of_class k (l1 ++ l2)
  = match asset_of_class k l1 with
    | Some a => Some a
    | None => asset_of_class k l2
    end.
Proof.
  induction l1 as [|a l1 IH]; cbn; [reflexivity|].
  now destruct (has_class k a).
Qed.

Lemma asset_of_class_built (skip : list string) (s : VodPackage)
      (k t : string) :
  class_keyed s t ->
  asset_of_class k (section_built skip s t)
  = if String.eqb t k then hd_error (section_built skip s t) else None.
Proof.
  intros Hc. unfold section_built.
  destruct (dict_get t (D_ams s)) as [attrs|] eqn:Ea;
    [|now destruct (String.eqb t k)].
  destruct (dict_get t (D_app s)) as [app|];
    [|now destruct (String.eqb t k)].
  destruct (Hc attrs Ea) as [Hwf Hclass].
  cbn [asset_of_class hd_error]. unfold has_class.
  rewrite asset_class_built, Hclass by exact Hwf.
  now destruct (String.eqb t k).
Qed.

Lemma findall_Asset_built (skip : list string) (s : VodPackage) (t : string) :
  filter (fun c => String.eqb (tag_of c) "Asset") (section_built skip s t)
  = section_built skip s t.
Proof.
  unfold section_built.
  destruct (dict_get t (D_ams s)); [|reflexivity].
  now destruct (dict_get t (D_app s)).
Qed.

Lemma findall_cons (tag t : string) (a : dict string) (c : Element)
      (cs : list Element) :
  findall tag (Elem t a (c :: cs))
  = if String.eqb (tag_of c) tag then c :: findall tag (Elem t a cs)
    else findall tag (Elem t a cs).
Proof. reflexivity. Qed.

(** The asset elements of the written tree, and the one of a class. *)
Lemma written_assets (skip : list string) (s : VodPackage)
      (pm tm : Element) :
  tag_of pm = "Metadata" -> tag_of tm = "Metadata" ->
  class_keyed s "movie" -> class_keyed s "preview" -> class_keyed s "poster" ->
  let out := Elem "ADI" []
               [pm; Elem "Asset" []
                         (tm :: (section_built skip s "movie"
                                 ++ section_built skip s "preview"
                                 ++ section_built skip s "poster")%list)] in
  find "Metadata" out = Some pm /\
  (exists ta, find "Asset" out = Some ta /\ find "Metadata" ta = Some tm) /\
  forall k, In k ["movie"; "preview"; "poster"] ->
            asset_of_class k (asset_elements out)
            = hd_error (section_built skip s k).
Proof.
  intros Hpm Htm Hm Hpv Hpo. cbv zeta.
  assert (Ea : asset_elements
                 (Elem "ADI" []
                    [pm; Elem "Asset" []
                              (tm :: (section_built skip s "movie"
                                      ++ section_built skip s "preview"
                                      ++ section_built skip s "poster")%list)])
               = (section_built skip s "movie"
                  ++ section_built skip s "preview"
                  ++ section_built skip s "poster")%list).
  { unfold asset_elements, find. rewrite !findall_cons, Hpm.
    change (String.eqb "Metadata" "Asset") with false.
    change (String.eqb (tag_of (Elem "Asset" [] ?[c])) "Asset") with true.
    cbv iota. rewrite findall_cons, Htm.
    change (String.eqb "Metadata" "Asset") with false. cbv iota.
    unfold findall. cbn [children_of].
    now rewrite !filter_app, !findall_Asset_built. }
  split; [|split].
  - unfold find. rewrite findall_cons, Hpm. reflexivity.
  - eexists. split.
    + unfold find. rewrite !findall_cons, Hpm. reflexivity.
    + unfold find. rewrite findall_cons, Htm. reflexivity.
  - intros k Hk. rewrite Ea, !asset_of_class_app.
    rewrite !asset_of_class_built by assumption.
    destruct Hk as [<-|[<-|[<-|[]]]]; cbn [String.eqb Ascii.eqb Bool.eqb].
    + now destruct (hd_error (section_built skip s "movie")).
    + now destruct (hd_error (section_built skip s "preview")).
    + reflexivity.
Qed.

(** ** Load, then write *)

Lemma same_attributes_sorted (attrs : dict string) :
  same_attributes (sorted_items attrs) attrs.
Proof. split; [apply sorted_items_perm | apply sorted_items_sorted]. Qed.

Lemma same_app_data_parsed (skip : list string) (m : Element)
      (parsed : dict AppValue) :
  metadata_ok m = true -> dict_wf parsed = true ->
  (forall k, dict_get k parsed = parsed_value k (app_data_pairs m)) ->
  same_app_data skip (emitted_pairs skip parsed) (app_data_pairs m).
Proof.
  intros Hok Hwf Hget. split; [apply emitted_pairs_sorted|].
  intros key. now apply emitted_parsed_filter.
Qed.

Lemma loaded_writable (skip : list string) (s : VodPackage) (sec : string)
      (m : Element) :
  section_loaded m (dict_get sec (D_ams s)) (dict_get sec (D_app s)) ->
  exists el parsed,
    find "AMS" m = Some el /\
    section_writable skip s sec (attrib_of el) parsed /\
    metadata_ok m = true /\ dict_wf parsed = true /\
    (forall k, dict_get k parsed = parsed_value k (app_data_pairs m)).
Proof.
  intros (el & parsed & Hel & Hwf & Ea & Hok & Eapp & Hwfp & Hget).
  exists el, parsed. split; [exact Hel|]. split; [|auto].
  repeat split; try assumption. now apply (parsed_typed skip m).
Qed.

Lemma metadata_round_trip (skip : list string) (s : VodPackage)
      (sec product : string) (m : Element) :
  section_loaded m (dict_get sec (D_ams s)) (dict_get sec (D_app s)) ->
  exists attrs app,
    section_writable skip s sec attrs app /\
    option_rel same_attributes
               (option_map attrib_of
                           (find "AMS" (built_Metadata skip product attrs app)))
               (option_map attrib_of (find "AMS" m)) /\
    same_app_data skip
                  (app_data_pairs (built_Metadata skip product attrs app))
                  (app_data_pairs m) /\
    (forall key, app_value sec key s = parsed_value key (app_data_pairs m)).
Proof.
  intros Hl. destruct (loaded_writable skip s sec m Hl)
    as (el & parsed & Hel & Hw & Hok & Hwfp & Hget).
  exists (attrib_of el), parsed. split; [exact Hw|]. split; [|split].
  - rewrite find_AMS_built, Hel. cbn. apply same_attributes_sorted.
  - rewrite app_data_pairs_built. now apply same_app_data_parsed.
  - intros key. unfold app_value. destruct Hw as (_ & _ & -> & _).
    apply Hget.
Qed.

Lemma asset_loaded_writable (skip : list string) (s : VodPackage)
      (assets : list Element) (k : string) :
  asset_loaded assets k [] (D_ams s) [] (D_app s) [] (D_content s) ->
  writable_or_absent skip s k /\ class_keyed s k.
Proof.
  unfold asset_loaded. destruct (asset_of_class k assets) as [a|] eqn:Ea.
  - intros ((m & Hm & Hl) & _).
    destruct (loaded_writable skip s k m Hl)
      as (el & parsed & Hel & Hw & _).
    split; [left; eauto|]. intros attrs Hattrs.
    destruct Hw as (E & Hwf & _). rewrite E in Hattrs.
    inversion Hattrs; subst. split; [exact Hwf|].
    apply asset_of_class_Some in Ea. destruct Ea as [_ Hc].
    apply has_class_class_or_empty in Hc. destruct Hc as [_ Hc].
    unfold asset_class, asset_AMS in Hc. now rewrite Hm, Hel in Hc.
  - intros (G & _). cbn in G. split; [now right|].
    intros attrs Hattrs. congruence.
Qed.

Lemma asset_round_trip (skip : list string) (s : VodPackage)
      (ADI out : Element) (k : string) :
  k <> "package" -> k <> "title" ->
  asset_loaded (asset_elements ADI) k [] (D_ams s) [] (D_app s)
               [] (D_content s) ->
  section_Asset out k = hd_error (section_built skip s k) ->
  section_round_trip skip ADI out s k.
Proof.
  intros Hk1 Hk2 Hl Hout.
  assert (Em : forall doc, section_Metadata doc k
                           = match section_Asset doc k with
                             | Some a => find "Metadata" a
                             | None => None
                             end).
  { intros doc. unfold section_Metadata.
    apply String.eqb_neq in Hk1, Hk2. now rewrite Hk1, Hk2. }
  assert (Ea : section_Asset ADI k = asset_of_class k (asset_elements ADI)).
  { unfold section_Asset. apply String.eqb_neq in Hk1, Hk2.
    now rewrite Hk1, Hk2. }
  unfold section_round_trip, section_AMS, section_App_Data, section_Content.
  rewrite !Em, Hout, Ea. unfold asset_loaded in Hl.
  destruct (asset_of_class k (asset_elements ADI)) as [a|].
  - destruct Hl as ((m & Hm & Hl) & Hc). rewrite Hm.
    destruct (metadata_round_trip skip s k (product_or_empty s) m Hl)
      as (attrs & app & Hw & R1 & R2 & R3).
    unfold section_built. destruct Hw as (E1 & _ & E2 & _).
    rewrite E1, E2. cbn [hd_error]. rewrite find_Metadata_built.
    split; [exact R1|]. split; [exact R2|]. split.
    + fold (asset_content
              (built_Asset skip (product_or_empty s) attrs app
                           (dict_get k (D_content s)))).
      rewrite asset_content_built, Hc. fold (asset_content a).
      now destruct (asset_content a).
    + intros pairs key Hp. inversion Hp; subst. apply R3.
  - destruct Hl as (G1 & G2 & G3). unfold section_built. rewrite G1.
    cbn. repeat split. discriminate.
Qed.

(** C1, amended: a well-formed document loads, and the loaded package
    serializes (without rescan, leaving package and probe log as they are) to
    a tree in which every section has the AMS attributes of the source in
    sorted key order, and the App_Data (name, value) pairs of the source
    sorted by name with the values of each name in document order, except
    that the names of the configured skip list are left out; the content
    references are those of the source, and what the package holds for an
    App_Data name is the sequence of its values in document order (for a
    multi-valued name) or its value. *)
Theorem load_write_round_trip (env : Env) (path : string) (ADI : Element)
        (probed : list Probe) :
  well_formed ADI = true ->
  exists s out,
    __init__ path ADI = Ok s /\
    write_xml env false (mkWorld s probed) = (Ok out, mkWorld s probed) /\
    forall sec, In sec ["package"; "title"; "movie"; "preview"; "poster"] ->
                section_round_trip (param_skip env) ADI out s sec.
Proof.
  intros Hwf.
  destruct (init_well_formed path ADI Hwf)
    as (s & Hinit & (pm & Hpm & Lp) & (ta & tm & Hta & Htm & Lt) & Hassets
        & Hprod & Hmovie).
  destruct (package_product s) as [product|] eqn:Ep; [clear Hprod|congruence].
  set (skip := param_skip env).
  destruct (metadata_round_trip skip s "package" product pm Lp)
    as (pattrs & papp & Wp & Rp1 & Rp2 & Rp3).
  destruct (metadata_round_trip skip s "title" product tm Lt)
    as (tattrs & tapp & Wt & Rt1 & Rt2 & Rt3).
  assert (Hthree : forall t, In t ["movie"; "preview"; "poster"] ->
                             t <> "package" /\ t <> "title").
  { intros t [<-|[<-|[<-|[]]]]; split; discriminate. }
  assert (Hwa : forall t, In t ["movie"; "preview"; "poster"] ->
                          writable_or_absent skip s t /\ class_keyed s t).
  { intros t Ht. destruct (Hthree t Ht) as [N1 N2].
    exact (asset_loaded_writable skip s _ t (Hassets t N1 N2)). }
  pose proof (build_ADI_Ok env s product pattrs tattrs papp tapp Ep Wp Wt
                           (fun t Ht => proj1 (Hwa t Ht))) as Hbuild.
  fold skip in Hbuild.
  destruct (written_assets
              skip s (built_Metadata skip product pattrs papp)
              (built_Metadata skip product tattrs tapp) eq_refl eq_refl)
    as (Fpm & (ta' & Fta & Ftm) & Fassets);
    try (apply Hwa; cbn; tauto).
  eexists s, _. split; [exact Hinit|]. split.
  - unfold write_xml. rewrite bind_get. cbn [self]. rewrite Hmovie.
    cbn [negb]. unfold bind, ret, get, lift. cbn [self].
    rewrite Hbuild. reflexivity.
  - intros sec [<-|[<-|Hsec]].
    + unfold section_round_trip, section_AMS, section_App_Data,
        section_Content, section_Asset, section_Metadata.
      change (String.eqb "package" "package") with true. cbv iota.
      rewrite Fpm, Hpm. cbn [option_map].
      split; [exact Rp1|]. split; [exact Rp2|]. split; [reflexivity|].
      intros pairs key E. inversion E; subst. apply Rp3.
    + unfold section_round_trip, section_AMS, section_App_Data,
        section_Content, section_Asset, section_Metadata.
      change (String.eqb "title" "package") with false.
      change (String.eqb "title" "title") with true. cbv iota.
      rewrite Fta, Ftm, Hta, Htm. cbn [option_map].
      split; [exact Rt1|]. split; [exact Rt2|]. split; [reflexivity|].
      intros pairs key E. inversion E; subst. apply Rt3.
    + destruct (Hthree sec Hsec) as [N1 N2].
      apply asset_round_trip; [exact N1 | exact N2 | now apply Hassets|].
      unfold section_Asset. apply String.eqb_neq in N1, N2.
      rewrite N1, N2. now apply Fassets.
Qed.

Lemma load_write_round_trip_witness :
  well_formed sample_ADI = true /\
  exists s out,
    __init__ "adi.xml" sample_ADI = Ok s /\
    write_xml (sample_env ["Codec"]) false (mkWorld s [])
    = (Ok out, mkWorld s []) /\
    section_round_trip ["Codec"] sample_ADI out s "title" /\
    app_value "title" "Genre" s = Some (Multiple ["A"; "B"; "C"]).
Proof.
  split; [reflexivity|].
  destruct (load_write_round_trip (sample_env ["Codec"]) "adi.xml" sample_ADI
                                  [] eq_refl)
    as (s & out & Hinit & Hwrite & Hsec).
  exists s, out. split; [exact Hinit|]. split; [exact Hwrite|].
  assert (Ht : section_round_trip ["Codec"] sample_ADI out s "title")
    by (apply Hsec; cbn; tauto).
  split; [exact Ht|].
  destruct Ht as (_ & _ & _ & Hparsed).
  apply (Hparsed [("Type", "title"); ("Genre", "A"); ("Title", "Example");
                  ("Genre", "B"); ("Genre", "C")]).
  reflexivity.
Defined.

(** C1 as stated fails where the skip list names a key of the document:
    with "Codec" in the skip list, the movie section of the source has a
    Codec entry and the written one has none. *)
Lemma round_trip_skip_list_counterexample :
  let w := mkWorld sample_package [] in
  let out := match fst (write_xml (sample_env ["Codec"]) false w) with
             | Ok out => out
             | Raise _ => Elem "" [] []
             end in
  well_formed sample_ADI = true /\
  __init__ "adi.xml" sample_ADI = Ok sample_package /\
  write_xml (sample_env ["Codec"]) false w = (Ok out, w) /\
  section_App_Data sample_ADI "movie"
  = Some [("Type", "movie"); ("Codec", "MPEG2")] /\
  section_App_Data out "movie" = Some [("Type", "movie")] /\
  ~ option_rel (same_app_data [])
      (section_App_Data out "movie") (section_App_Data sample_ADI "movie").
Proof.
  cbv zeta. repeat (split; [vm_compute; reflexivity|]).
  replace (section_App_Data sample_ADI "movie")
    with (Some [("Type", "movie"); ("Codec", "MPEG2")])
    by (vm_compute; reflexivity).
  match goal with
  | |- ~ option_rel _ ?o _ =>
      replace o with (Some [("Type", "movie")]) by (vm_compute; reflexivity)
  end.
  intros [_ H]. specialize (H "Codec"). vm_compute in H. discriminate H.
Qed.

(** ** More on removing an optional asset *)

(** The section is absent: the call fails and nothing has changed. *)
Lemma remove_ae_absent (ae_type : string) (s : VodPackage) :
  dict_mem ae_type (D_ams s) = false ->
  _remove_ae ae_type s
  = (Raise (MissingElement
              ("Package does not content a " ++ ae_type ++ " element")), s).
Proof.
  unfold dict_mem, _remove_ae. intros H.
  destruct (dict_get ae_type (D_ams s)) eqn:E; [discriminate|].
  apply dict_del_None in E. now rewrite E.
Qed.

(** The section is in all three dictionaries: the call succeeds and the
    section is in none of them afterwards. *)
Lemma remove_ae_complete (ae_type : string) (s : VodPackage) :
  dict_wf (D_ams s) = true -> dict_wf (D_app s) = true ->
  dict_wf (D_content s) = true ->
  dict_mem ae_type (D_ams s) = true -> dict_mem ae_type (D_app s) = true ->
  dict_mem ae_type (D_content s) = true ->
  fst (_remove_ae ae_type s) = Ok tt /\
  dict_mem ae_type (D_ams (snd (_remove_ae ae_type s))) = false /\
  dict_mem ae_type (D_app (snd (_remove_ae ae_type s))) = false /\
  dict_mem ae_type (D_content (snd (_remove_ae ae_type s))) = false.
Proof.
  intros W1 W2 W3 M1 M2 M3. apply nodup_keys_NoDup in W1, W2, W3.
  unfold _remove_ae, dict_mem in *.
  destruct (dict_del ae_type (D_ams s)) as [ams|] eqn:E1;
    [|apply dict_del_None in E1; now rewrite E1 in M1].
  cbn [D_app set_D_ams].
  destruct (dict_del ae_type (D_app s)) as [app|] eqn:E2;
    [|apply dict_del_None in E2; now rewrite E2 in M2].
  cbn [D_content set_D_app set_D_ams].
  destruct (dict_del ae_type (D_content s)) as [content|] eqn:E3;
    [|apply dict_del_None in E3; now rewrite E3 in M3].
  cbn. rewrite (dict_get_del_same _ _ _ W1 E1), (dict_get_del_same _ _ _ W2 E2),
    (dict_get_del_same _ _ _ W3 E3). auto.
Qed.

(** The section is present but has no content reference: the call fails,
    and the section is gone from [D_ams] and [D_app]. *)
Lemma remove_ae_without_content (ae_type : string) (s : VodPackage) :
  dict_wf (D_ams s) = true ->
  dict_mem ae_type (D_ams s) = true -> dict_mem ae_type (D_app s) = true ->
  dict_mem ae_type (D_content s) = false ->
  fst (_remove_ae ae_type s)
  = Raise (MissingElement
             ("Package does not content a " ++ ae_type ++ " element")) /\
  dict_mem ae_type (D_ams (snd (_remove_ae ae_type s))) = false.
Proof.
  intros W1 M1 M2 M3. apply nodup_keys_NoDup in W1.
  unfold _remove_ae, dict_mem in *.
  destruct (dict_del ae_type (D_ams s)) as [ams|] eqn:E1;
    [|apply dict_del_None in E1; now rewrite E1 in M1].
  cbn [D_app set_D_ams].
  destruct (dict_del ae_type (D_app s)) as [app|] eqn:E2;
    [|apply dict_del_None in E2; now rewrite E2 in M2].
  cbn [D_content set_D_app set_D_ams].
  destruct (dict_get ae_type (D_content s)) eqn:E3; [discriminate|].
  apply dict_del_None in E3. rewrite E3. cbn.
  now rewrite (dict_get_del_same _ _ _ W1 E1).
Qed.

(** ** The checksum loop *)

Lemma md5_loop_feeds_all (chunk_bytes : Z) :
  chunk_bytes <> 0 ->
  forall fuel rest checksum,
    (length rest < fuel)%nat ->
    md5_loop fuel chunk_bytes rest checksum = Some (checksum ++ rest)%list.
Proof.
  intros Hc. induction fuel as [|fuel IH]; intros rest checksum Hf; [lia|].
  cbn [md5_loop]. unfold read. destruct (Z.ltb_spec chunk_bytes 0).
  - destruct rest as [|b rest]; [now rewrite app_nil_r|].
    destruct fuel as [|fuel]; [cbn in Hf; lia|].
    cbn [md5_loop]. unfold read. destruct (Z.ltb_spec chunk_bytes 0); [|lia].
    reflexivity.
  - destruct rest as [|b rest].
    + rewrite firstn_nil. now rewrite app_nil_r.
    + destruct (Z.to_nat chunk_bytes) as [|n] eqn:En; [lia|].
      cbn [firstn skipn]. rewrite IH.
      * rewrite <- app_assoc. cbn [app]. now rewrite firstn_skipn.
      * cbn [length] in Hf. pose proof (length_skipn n rest). lia.
Qed.

(** With a chunk size other than 0 the digest is that of the whole file. *)
Lemma md5_checksum_whole_file (env : Env) (path : string)
      (content : list Byte.byte) :
  fs env path = Some content ->
  md5_checksum env path = Ok (md5_hexdigest env content).
Proof.
  intros H. unfold md5_checksum, md5_checksum_chunked. rewrite H.
  rewrite md5_loop_feeds_all by (try discriminate; lia).
  reflexivity.
Qed.

(** ** What a successful rescan has done *)

Lemma bind_Ok_inv {S A B} (m : M S A) (k : A -> M S B) (s s' : S) (b : B) :
  bind m k s = (Ok b, s') ->
  exists a s1, m s = (Ok a, s1) /\ k a s1 = (Ok b, s').
Proof.
  unfold bind. destruct (m s) as [[a|e] s1]; [eauto | discriminate].
Qed.

Lemma on_self_probes {A} (m : M VodPackage A) (w : World) :
  probes (snd (on_self m w)) = probes w.
Proof. unfold on_self. now destruct (m (self w)). Qed.

Lemma on_self_Ok_inv {A} (m : M VodPackage A) (w w' : World) (a : A) :
  on_self m w = (Ok a, w') ->
  m (self w) = (Ok a, self w') /\ probes w' = probes w.
Proof.
  unfold on_self. destruct (m (self w)) as [r s]. intros H.
  inversion H; subst. auto.
Qed.

Lemma scan_video_probes (env : Env) (ae_type ae_path : string) (w : World) :
  probes (snd (_scan_video env ae_type ae_path w))
  = (probes w ++ [VideoProbe ae_path])%list.
Proof.
  unfold _scan_video, bind, log_probe, modify, lift.
  destruct (or_raise (check_video env ae_path) (ProbeFailure ae_path));
    [|reflexivity].
  match goal with
  | |- probes (snd (on_self ?m ?w0)) = _ =>
      exact (on_self_probes m w0)
  end.
Qed.

Lemma scan_image_probes (env : Env) (ae_path : string) (w : World) :
  probes (snd (_scan_image env ae_path w))
  = (probes w ++ [ImageProbe ae_path])%list.
Proof.
  unfold _scan_image, bind, log_probe, modify, lift.
  destruct (or_raise (check_picture env ae_path) (ProbeFailure ae_path));
    [|reflexivity].
  match goal with
  | |- probes (snd (on_self ?m ?w0)) = _ =>
      exact (on_self_probes m w0)
  end.
Qed.

Lemma same_but_app_refl (s : VodPackage) : same_but_app s s.
Proof. unfold same_but_app. now destruct s. Qed.

Lemma same_but_app_trans (s1 s2 s3 : VodPackage) :
  same_but_app s1 s2 -> same_but_app s2 s3 -> same_but_app s1 s3.
Proof.
  unfold same_but_app. destruct s1, s2, s3. cbn. intros H1 H2.
  inversion H1; inversion H2; subst. reflexivity.
Qed.

Lemma same_but_app_set (s : VodPackage) (d : dict (dict AppValue)) :
  same_but_app s (set_D_app d s).
Proof. unfold same_but_app. now destruct s. Qed.

Lemma same_but_app_fields (s s' : VodPackage) :
  same_but_app s s' ->
  xml_path s' = xml_path s /\ D_ams s' = D_ams s /\
  D_content s' = D_content s /\ has_preview s' = has_preview s /\
  has_poster s' = has_poster s.
Proof.
  unfold same_but_app. destruct s, s'. cbn. intros H. inversion H; subst.
  repeat split.
Qed.

Lemma set_app_same_but_app (s : VodPackage) (ae_type key : string)
      (value : AppValue) :
  same_but_app s (snd (set_app ae_type key value s)).
Proof.
  unfold set_app. destruct (dict_get ae_type (D_app s)); cbn;
    [apply same_but_app_set | apply same_but_app_refl].
Qed.

Lemma check_files_step_path (env : Env) (ae_type ae_name : string)
      (s s' : VodPackage) (p : string) :
  check_files_step env ae_type ae_name s = (Ok p, s') ->
  p = sibling_path env (xml_path s) ae_name /\ same_but_app s s'.
Proof.
  intros H. split.
  - unfold check_files_step in H. rewrite bind_get in H.
    destruct (negb (isfile env (sibling_path env (xml_path s) ae_name)));
      [discriminate|].
    apply bind_Ok_inv in H. destruct H as (size & s1 & _ & H).
    apply bind_Ok_inv in H. destruct H as ([] & s2 & _ & H).
    apply bind_Ok_inv in H. destruct H as (checksum & s3 & _ & H).
    apply bind_Ok_inv in H. destruct H as ([] & s4 & _ & H).
    now inversion H.
  - pose proof (keeps_check_files_step
                  env same_but_app same_but_app_refl same_but_app_trans
                  True
                  (fun _ s0 t k v _ => set_app_same_but_app s0 t k v)
                  ae_type ae_name I s) as [K _].
    now rewrite H in K.
Qed.

Lemma check_files_loop_path (env : Env) (items : list (string * string)) :
  forall ae_path s s' o,
    check_files_loop env items ae_path s = (Ok o, s') ->
    o = last_path env (xml_path s) items ae_path /\ same_but_app s s'.
Proof.
  induction items as [|[ae_type ae_name] items IH]; intros ae_path s s' o H.
  - inversion H; subst. split; [reflexivity | apply same_but_app_refl].
  - cbn [check_files_loop] in H. apply bind_Ok_inv in H.
    destruct H as (p & s1 & Hstep & H).
    apply check_files_step_path in Hstep. destruct Hstep as [-> Hs1].
    apply IH in H. destruct H as [-> Hs'].
    split; [|eapply same_but_app_trans; eassumption].
    destruct (same_but_app_fields _ _ Hs1) as (-> & _). reflexivity.
Qed.

(** X21: whatever the package holds, a successful [check_files] gives the
    file of the last entry of [D_content] to every probe it calls. *)
Lemma check_files_probes (env : Env) (w w' : World) :
  check_files env w = (Ok tt, w') ->
  exists ae_path,
    last_path env (xml_path (self w)) (D_content (self w)) None
    = Some ae_path /\
    probes w'
    = (probes w
       ++ VideoProbe ae_path
       :: (if has_preview (self w) then [VideoProbe ae_path] else [])
       ++ (if has_poster (self w) then [ImageProbe ae_path] else []))%list.
Proof.
  unfold check_files. intros H.
  apply bind_Ok_inv in H. destruct H as (o & w1 & Hloop & H).
  apply on_self_Ok_inv in Hloop. destruct Hloop as [Hloop Hp1].
  rewrite bind_get in Hloop. apply check_files_loop_path in Hloop.
  destruct Hloop as [-> Hs1].
  destruct (last_path env (xml_path (self w)) (D_content (self w)) None)
    as [ae_path|]; [|discriminate].
  exists ae_path. split; [reflexivity|].
  apply bind_Ok_inv in H. destruct H as ([] & w2 & Hmovie & H).
  rewrite bind_get in H.
  apply bind_Ok_inv in H. destruct H as ([] & w3 & Hpreview & H).
  rewrite bind_get in H.
  assert (K : forall t p w0, on_package same_but_app w0
                                        (snd (_scan_video env t p w0))).
  { intros t p w0.
    apply (keeps_scan_video env same_but_app same_but_app_refl
             same_but_app_trans True
             (fun _ s0 t0 k v _ => set_app_same_but_app s0 t0 k v) t p I). }
  pose proof (K "movie" ae_path w1) as K2. rewrite Hmovie in K2.
  pose proof (scan_video_probes env "movie" ae_path w1) as P2.
  rewrite Hmovie in P2. cbn [snd] in K2, P2.
  assert (F2 : same_but_app (self w) (self w2))
    by (eapply same_but_app_trans; eassumption).
  destruct (same_but_app_fields _ _ F2) as (_ & _ & _ & Hpv & _).
  rewrite Hpv in Hpreview.
  assert (F3 : same_but_app (self w) (self w3) /\
               probes w3 = (probes w2
                            ++ if has_preview (self w)
                               then [VideoProbe ae_path] else [])%list).
  { destruct (has_preview (self w)).
    - pose proof (K "preview" ae_path w2) as K3. rewrite Hpreview in K3.
      pose proof (scan_video_probes env "preview" ae_path w2) as P3.
      rewrite Hpreview in P3. cbn [snd] in K3, P3.
      split; [eapply same_but_app_trans; eassumption | exact P3].
    - inversion Hpreview; subst. split; [exact F2 | now rewrite app_nil_r]. }
  destruct F3 as [F3 P3].
  destruct (same_but_app_fields _ _ F3) as (_ & _ & _ & _ & Hpo).
  rewrite Hpo in H. rewrite Hp1 in P2.
  assert (P4 : probes w' = (probes w3
                            ++ if has_poster (self w)
                               then [ImageProbe ae_path] else [])%list).
  { destruct (has_poster (self w)).
    - pose proof (scan_image_probes env ae_path w3) as P4.
      now rewrite H in P4.
    - inversion H; subst. now rewrite app_nil_r. }
  rewrite P4, P3, P2, <- !app_assoc. reflexivity.
Qed.

Lemma check_files_probes_witness :
  let w := mkWorld (loaded "adi.xml" sample_ADI_movie_preview) [] in
  let r := check_files (sample_env []) w in
  fst r = Ok tt /\
  last_path (sample_env []) (xml_path (self w)) (D_content (self w)) None
  = Some "preview.mpg" /\
  probes (snd r) = [VideoProbe "preview.mpg"; VideoProbe "preview.mpg"].
Proof.
  cbv zeta.
  set (w := mkWorld (loaded "adi.xml" sample_ADI_movie_preview) []).
  assert (E : check_files (sample_env []) w
              = (Ok tt, snd (check_files (sample_env []) w)))
    by (vm_compute; reflexivity).
  split; [now rewrite E|].
  destruct (check_files_probes _ _ _ E) as (ae_path & Hlast & Hprobes).
  assert (L : last_path (sample_env []) (xml_path (self w))
                        (D_content (self w)) None = Some "preview.mpg")
    by (vm_compute; reflexivity).
  split; [exact L|].
  rewrite L in Hlast. inversion Hlast; subst ae_path.
  rewrite Hprobes.
  replace (has_preview (self w)) with true by (vm_compute; reflexivity).
  replace (has_poster (self w)) with false by (vm_compute; reflexivity).
  reflexivity.
Defined.

Lemma app_value_set_app_other_key (s : VodPackage) (ae_type key : string)
      (value : AppValue) (t k : string) :
  k <> key ->
  app_value t k (snd (set_app ae_type key value s)) = app_value t k s.
Proof.
  intros Hk. unfold set_app, app_value.
  destruct (dict_get ae_type (D_app s)) as [a|] eqn:Ea; [|reflexivity].
  cbn. destruct (String.eqb_spec t ae_type) as [->|Hne].
  - rewrite dict_get_set_same, Ea. now apply dict_get_set_other.
  - now rewrite dict_get_set_other.
Qed.

Lemma app_value_set_app_other_section (s : VodPackage) (ae_type key : string)
      (value : AppValue) (t k : string) :
  t <> ae_type ->
  app_value t k (snd (set_app ae_type key value s)) = app_value t k s.
Proof.
  intros Ht. unfold set_app, app_value.
  destruct (dict_get ae_type (D_app s)) as [a|] eqn:Ea; [|reflexivity].
  cbn. now rewrite dict_get_set_other.
Qed.

Lemma set_app_Ok_inv (s s' : VodPackage) (ae_type key : string)
      (value : AppValue) :
  set_app ae_type key value s = (Ok tt, s') ->
  s' = snd (set_app ae_type key value s) /\
  app_value ae_type key s' = Some value.
Proof.
  intros H. split; [now rewrite H|].
  unfold set_app, app_value in *.
  destruct (dict_get ae_type (D_app s)); [|discriminate].
  inversion H; subst. cbn. now rewrite !dict_get_set_same.
Qed.

(** What one round of the file loop stores, and what it leaves alone. *)
Lemma check_files_step_stores (env : Env) (ae_type ae_name : string)
      (s s' : VodPackage) (p : string) :
  check_files_step env ae_type ae_name s = (Ok p, s') ->
  (exists content,
      fs env p = Some content /\
      app_value ae_type "Content_FileSize" s'
      = Some (Single (str (Z.of_nat (length content)))) /\
      app_value ae_type "Content_CheckSum" s'
      = Some (Single (md5_hexdigest env content))) /\
  (forall t k, t <> ae_type -> app_value t k s' = app_value t k s).
Proof.
  intros H. pose proof (check_files_step_path _ _ _ _ _ _ H) as [Ep _].
  unfold check_files_step in H. rewrite bind_get in H. rewrite <- Ep in H.
  unfold isfile, getsize in H.
  destruct (fs env p) as [content|] eqn:Efs; [|discriminate].
  cbn [negb] in H.
  apply bind_Ok_inv in H. destruct H as (size & s1 & Hsize & H).
  inversion Hsize; subst size s1; clear Hsize.
  apply bind_Ok_inv in H. destruct H as ([] & s2 & Hset1 & H).
  apply bind_Ok_inv in H. destruct H as (checksum & s3 & Hsum & H).
  rewrite (md5_checksum_whole_file env p content Efs) in Hsum.
  inversion Hsum; subst checksum s3; clear Hsum.
  apply bind_Ok_inv in H. destruct H as ([] & s4 & Hset2 & H).
  inversion H; subst s4; clear H.
  apply set_app_Ok_inv in Hset1, Hset2.
  destruct Hset1 as [E2 V1]. destruct Hset2 as [E' V2]. split.
  - exists content. split; [reflexivity|]. split; [|exact V2].
    rewrite E', app_value_set_app_other_key by discriminate. exact V1.
  - intros t k Ht.
    rewrite E', app_value_set_app_other_section by exact Ht.
    rewrite E2. now apply app_value_set_app_other_section.
Qed.

Lemma check_files_loop_other (env : Env) (t : string)
      (items : list (string * string)) :
  ~ In t (map fst items) ->
  forall ae_path s s' o k,
    check_files_loop env items ae_path s = (Ok o, s') ->
    app_value t k s' = app_value t k s.
Proof.
  induction items as [|[ae_type ae_name] items IH];
    intros Hn ae_path s s' o k H.
  - now inversion H.
  - cbn [check_files_loop] in H. apply bind_Ok_inv in H.
    destruct H as (p & s1 & Hstep & H).
    apply check_files_step_stores in Hstep. destruct Hstep as [_ Hother].
    cbn [map fst] in Hn.
    rewrite (IH (fun X => Hn (or_intror X)) _ _ _ _ k H).
    apply Hother. intros ->. apply Hn. now left.
Qed.

Lemma check_files_loop_stores (env : Env) (items : list (string * string)) :
  NoDup (map fst items) ->
  forall ae_path s s' o,
    check_files_loop env items ae_path s = (Ok o, s') ->
    forall ae_type ae_name,
      In (ae_type, ae_name) items ->
      exists content,
        fs env (sibling_path env (xml_path s) ae_name) = Some content /\
        app_value ae_type "Content_FileSize" s'
        = Some (Single (str (Z.of_nat (length content)))) /\
        app_value ae_type "Content_CheckSum" s'
        = Some (Single (md5_hexdigest env content)).
Proof.
  induction items as [|[t0 n0] items IH]; intros ND ae_path s s' o H t n Hin;
    [destruct Hin|].
  cbn [map fst] in ND. inversion ND as [|? ? Hn ND']; subst.
  cbn [check_files_loop] in H. apply bind_Ok_inv in H.
  destruct H as (p & s1 & Hstep & H).
  pose proof (check_files_step_path _ _ _ _ _ _ Hstep) as [Ep Hs1].
  destruct (same_but_app_fields _ _ Hs1) as (Exml & _).
  destruct Hin as [E|Hin].
  - inversion E; subst t n.
    apply check_files_step_stores in Hstep.
    destruct Hstep as [(content & Efs & V1 & V2) _].
    exists content. rewrite <- Ep. split; [exact Efs|].
    now rewrite !(check_files_loop_other env t0 items Hn _ _ _ _ _ H).
  - rewrite <- Exml. exact (IH ND' _ _ _ _ H t n Hin).
Qed.

(** X22: for every section with a content reference, a successful
    [check_files] has stored the size and the checksum of that section's own
    file. *)
Lemma check_files_stores_sizes (env : Env) (w w' : World) :
  dict_wf (D_content (self w)) = true ->
  check_files env w = (Ok tt, w') ->
  forall ae_type ae_name,
    dict_get ae_type (D_content (self w)) = Some ae_name ->
    exists content,
      fs env (sibling_path env (xml_path (self w)) ae_name) = Some content /\
      app_value ae_type "Content_FileSize" (self w')
      = Some (Single (str (Z.of_nat (length content)))) /\
      app_value ae_type "Content_CheckSum" (self w')
      = Some (Single (md5_hexdigest env content)).
Proof.
  intros Hwf H t n Hget. apply nodup_keys_NoDup in Hwf.
  unfold check_files in H.
  apply bind_Ok_inv in H. destruct H as (o & w1 & Hloop & H).
  apply on_self_Ok_inv in Hloop. destruct Hloop as [Hloop _].
  rewrite bind_get in Hloop.
  destruct (check_files_loop_stores env _ Hwf _ _ _ _ Hloop t n
                                    (dict_get_In _ _ _ Hget))
    as (content & Efs & V1 & V2).
  exists content. split; [exact Efs|].
  destruct o as [ae_path|]; [|discriminate].
  set (keep := fun s s' : VodPackage =>
                 forall t k, In k ["Content_FileSize"; "Content_CheckSum"] ->
                             app_value t k s' = app_value t k s).
  assert (K : on_package keep w1 w').
  { assert (Hk : keeps (on_package keep) rescan_exn
                   (_scan_video env "movie" ae_path ;;
                    w0 <- get ;;
                    (if has_preview (self w0)
                     then _scan_video env "preview" ae_path else ret tt) ;;
                    w0 <- get ;;
                    (if has_poster (self w0)
                     then _scan_image env ae_path else ret tt))).
    { apply (keeps_check_files_scans env keep) with (scan_ok := True);
        [ intros s0 t0 k0 _; reflexivity
        | intros s1 s2 s3 H1 H2 t0 k0 Hk0; rewrite H2, H1; auto
        | | exact I ].
      intros _ s0 t0 key value Hkey t1 k1 Hk1.
      apply app_value_set_app_other_key. intros ->.
      cbn in Hkey, Hk1.
      repeat (destruct Hkey as [Hkey|Hkey];
              [subst; repeat (destruct Hk1 as [Hk1|Hk1];
                              [discriminate|]); destruct Hk1|]).
      destruct Hkey. }
    destruct (Hk w1) as [Hk1 _]. now rewrite H in Hk1. }
  unfold on_package, keep in K.
  rewrite !K by (cbn; tauto). auto.
Qed.

Lemma check_files_stores_sizes_witness :
  let w := mkWorld (loaded "adi.xml" sample_ADI_movie_preview) [] in
  let r := check_files (sample_env []) w in
  dict_wf (D_content (self w)) = true /\
  fst r = Ok tt /\
  dict_get "movie" (D_content (self w)) = Some "movie.mpg" /\
  app_value "movie" "Content_FileSize" (self (snd r)) = Some (Single "2").
Proof.
  cbv zeta.
  set (w := mkWorld (loaded "adi.xml" sample_ADI_movie_preview) []).
  assert (Hwf : dict_wf (D_content (self w)) = true)
    by (vm_compute; reflexivity).
  assert (E : check_files (sample_env []) w
              = (Ok tt, snd (check_files (sample_env []) w)))
    by (vm_compute; reflexivity).
  assert (G : dict_get "movie" (D_content (self w)) = Some "movie.mpg")
    by (vm_compute; reflexivity).
  split; [exact Hwf|]. split; [now rewrite E|]. split; [exact G|].
  destruct (check_files_stores_sizes _ _ _ Hwf E _ _ G)
    as (content & Efs & Vsize & _).
  rewrite Vsize.
  assert (F : fs (sample_env [])
                 (sibling_path (sample_env []) (xml_path (self w))
                               "movie.mpg")
              = Some [Byte.x00; Byte.x01]) by (vm_compute; reflexivity).
  rewrite F in Efs. inversion Efs; subst content. reflexivity.
Defined.

(** * Further properties *)

(** ** Dictionaries with the same keys and the same values *)

Lemma dict_ext {V} (d1 d2 : dict V) :
  NoDup (dict_keys d1) -> dict_keys d1 = dict_keys d2 ->
  (forall k, dict_get k d1 = dict_get k d2) -> d1 = d2.
Proof.
  revert d2. induction d1 as [|[k v] d1 IH]; intros [|[k2 v2] d2] ND Hk Hg;
    try discriminate; [reflexivity|].
  cbn in Hk. inversion Hk as [[E1 E2]]. subst k2.
  cbn in ND. inversion ND as [|? ? Hn ND']; subst.
  pose proof (Hg k) as Hh. cbn in Hh. rewrite String.eqb_refl in Hh.
  inversion Hh; subst v2. f_equal. apply IH; [assumption | assumption |].
  intros k'. specialize (Hg k'). cbn in Hg.
  destruct (String.eqb_spec k' k) as [E|Hne]; [subst k'|exact Hg].
  transitivity (@None V); [|symmetry]; apply dict_get_None;
    [|unfold dict_keys; rewrite <- E2]; exact Hn.
Qed.

Lemma dict_set_comm {V} (k1 k2 : string) (v1 v2 : V) (d : dict V) :
  k1 <> k2 -> In k1 (dict_keys d) ->
  dict_set k2 v2 (dict_set k1 v1 d) = dict_set k1 v1 (dict_set k2 v2 d).
Proof.
  intros Hne. induction d as [|[k0 v0] d IH]; cbn; intros Hin; [tauto|].
  destruct (String.eqb_spec k1 k0) as [->|N1].
  - apply String.eqb_neq in Hne. rewrite String.eqb_sym in Hne.
    cbn. rewrite Hne. cbn. now rewrite String.eqb_refl.
  - destruct (String.eqb_spec k2 k0) as [->|N2]; cbn.
    + rewrite String.eqb_refl. apply String.eqb_neq in N1. now rewrite N1.
    + apply String.eqb_neq in N1, N2. rewrite N1, N2. f_equal. apply IH.
      destruct Hin as [E|Hin]; [|exact Hin].
      apply String.eqb_neq in N1. congruence.
Qed.

Lemma dict_wf_keys {V W} (d : dict V) (d' : dict W) :
  dict_keys d' = dict_keys d -> dict_wf d = true -> dict_wf d' = true.
Proof. unfold dict_wf. now intros ->. Qed.

(** ** Marking a package as deleted *)

Lemma set_ams_keys (ae_type key value : string) (s : VodPackage) :
  dict_keys (D_ams (snd (set_ams ae_type key value s))) = dict_keys (D_ams s).
Proof.
  unfold set_ams. destruct (dict_get ae_type (D_ams s)) as [a|] eqn:E;
    [|reflexivity].
  cbn. apply dict_keys_set_present, dict_mem_In. unfold dict_mem. now rewrite E.
Qed.

Lemma make_delete_keys (s : VodPackage) :
  dict_keys (D_ams (snd (make_delete s))) = dict_keys (D_ams s).
Proof.
  set (R := fun s s' : VodPackage =>
              dict_keys (D_ams s') = dict_keys (D_ams s)).
  assert (K : keeps R (fun _ => True) make_delete).
  { assert (R_refl : forall s0, R s0 s0) by reflexivity.
    assert (R_trans : forall s1 s2 s3, R s1 s2 -> R s2 s3 -> R s1 s3)
      by (unfold R; congruence).
    unfold make_delete.
    apply keeps_bind; [exact R_trans | now apply keeps_get|]. intros s0.
    apply keeps_bind; [exact R_trans | |].
    - apply keeps_for_each; [exact R_refl | exact R_trans|].
      intros ae_type s1. split; [apply set_ams_keys | auto].
    - intros _. apply keeps_modify. intros s1. now destruct s1. }
  exact (proj1 (K s)).
Qed.

(** X1: [make_delete] never fails.  Every section of [D_ams] keeps its place
    and gets the attribute Verb = "DELETE", its other attributes are as they
    were; [is_delete] is set, and nothing else of the package changes: no
    version is advanced, [is_update] and the content references stay. *)
Theorem make_delete_marks_every_section (s : VodPackage) :
  exists s',
    make_delete s = (Ok tt, s') /\
    dict_keys (D_ams s') = dict_keys (D_ams s) /\
    (forall sec, dict_get sec (D_ams s')
                 = option_map (dict_set "Verb" "DELETE")
                              (dict_get sec (D_ams s))) /\
    (forall attrs k,
        dict_get "Verb" (dict_set "Verb" "DELETE" attrs) = Some "DELETE" /\
        (k <> "Verb" ->
         dict_get k (dict_set "Verb" "DELETE" attrs) = dict_get k attrs)) /\
    is_delete s' = true /\ is_update s' = is_update s /\
    same_but_ams s s'.
Proof.
  destruct (make_delete_runs s) as (d' & Hrun & Hget).
  pose proof (make_delete_keys s) as Hkeys. rewrite Hrun in Hkeys.
  eexists. split; [exact Hrun|]. split; [exact Hkeys|].
  split; [exact Hget|]. split.
  - intros attrs k. split; [apply dict_get_set_same|].
    intros Hk. now apply dict_get_set_other.
  - repeat split.
Qed.

Lemma make_delete_state (s : VodPackage) :
  dict_wf (D_ams s) = true ->
  exists d',
    make_delete s = (Ok tt, set_is_delete true (set_D_ams d' s)) /\
    dict_keys d' = dict_keys (D_ams s) /\
    (forall k, dict_get k d'
               = option_map (dict_set "Verb" "DELETE") (dict_get k (D_ams s))).
Proof.
  intros _. destruct (make_delete_runs s) as (d' & Hrun & Hget).
  pose proof (make_delete_keys s) as Hkeys. rewrite Hrun in Hkeys.
  exists d'. auto.
Qed.

(** X2: a second [make_delete] changes nothing. *)
Theorem make_delete_idempotent (s : VodPackage) :
  dict_wf (D_ams s) = true ->
  make_delete (snd (make_delete s)) = (Ok tt, snd (make_delete s)).
Proof.
  intros Hwf.
  destruct (make_delete_state s Hwf) as (d1 & Hrun1 & Hkeys1 & Hget1).
  rewrite Hrun1. cbn [snd].
  set (s1 := set_is_delete true (set_D_ams d1 s)).
  assert (Hwf1 : dict_wf (D_ams s1) = true)
    by exact (dict_wf_keys _ _ Hkeys1 Hwf).
  destruct (make_delete_state s1 Hwf1) as (d2 & Hrun2 & Hkeys2 & Hget2).
  rewrite Hrun2. f_equal.
  assert (E : d2 = d1).
  { apply dict_ext.
    - apply nodup_keys_NoDup. exact (dict_wf_keys _ _ Hkeys2 Hwf1).
    - exact Hkeys2.
    - intros k. rewrite Hget2. cbn [s1 D_ams set_is_delete set_D_ams].
      rewrite Hget1. destruct (dict_get k (D_ams s)) as [a|]; [|reflexivity].
      cbn. now rewrite dict_set_idem. }
  rewrite E. unfold s1. now destruct s.
Qed.

Lemma make_delete_idempotent_witness :
  dict_wf (D_ams sample_package) = true /\
  make_delete (snd (make_delete sample_package))
  = (Ok tt, snd (make_delete sample_package)).
Proof.
  split; [reflexivity|]. apply (make_delete_idempotent sample_package).
  reflexivity.
Defined.

(** ** Update and delete together *)

Lemma make_update_state (s : VodPackage) :
  dict_wf (D_ams s) = true ->
  (forall sec attrs, dict_get sec (D_ams s) = Some attrs ->
                     advances attrs = true) ->
  exists d',
    make_update s
    = (Ok tt, set_is_update true (set_D_content [] (set_D_ams d' s))) /\
    dict_keys d' = dict_keys (D_ams s) /\
    (forall k, dict_get k d' = option_map bumped (dict_get k (D_ams s))).
Proof.
  intros Hwf Hv. apply nodup_keys_NoDup in Hwf.
  destruct (make_update_loop s (dict_keys (D_ams s)) Hwf (D_ams s))
    as (d' & Hrun & Hkeys & Hget).
  { intros k Hk. apply dict_mem_In in Hk. unfold dict_mem in Hk.
    destruct (dict_get k (D_ams s)) as [attrs|] eqn:E; [|discriminate].
    exists attrs. split; [reflexivity | eauto]. }
  exists d'. split; [|split].
  - unfold make_update. rewrite bind_get.
    rewrite (bind_Ok _ _ _ (set_D_ams d' s) tt); [reflexivity|].
    rewrite <- Hrun. now destruct s.
  - exact Hkeys.
  - intros k. rewrite Hget.
    destruct (mem_string k (dict_keys (D_ams s))) eqn:E; [reflexivity|].
    apply mem_string_not_In, dict_get_None in E. now rewrite E.
Qed.

Lemma version_of_set_other (k v : string) (attrs : dict string) :
  k <> "Version_Major" -> version_of (dict_set k v attrs) = version_of attrs.
Proof.
  intros H. unfold version_of. rewrite dict_get_set_other; [reflexivity|].
  congruence.
Qed.

Lemma advances_set_other (k v : string) (attrs : dict string) :
  k <> "Version_Major" -> advances (dict_set k v attrs) = advances attrs.
Proof.
  intros H. unfold advances. now rewrite version_of_set_other.
Qed.

Lemma bumped_marked (attrs : dict string) :
  advances attrs = true ->
  dict_set "Verb" "DELETE" (bumped attrs)
  = bumped (dict_set "Verb" "DELETE" attrs).
Proof.
  intros Hv. destruct (advances_inv _ Hv) as (z & Ez & _). unfold bumped.
  rewrite version_of_set_other by discriminate. rewrite Ez.
  apply dict_set_comm; [discriminate|].
  apply dict_mem_In. unfold dict_mem.
  destruct (version_of_inv _ _ Ez) as (v & Hget & _). now rewrite Hget.
Qed.

(** X3: on a package that [make_update] can advance (every section has a
    [Version_Major] that [int] reads and whose successor [str] writes, both
    within the interpreter's limit of digits), [make_update] and
    [make_delete] can be called in either order: both orders succeed and
    leave the same package. *)
Theorem make_update_make_delete_commute (s : VodPackage) :
  dict_wf (D_ams s) = true ->
  (forall sec attrs, dict_get sec (D_ams s) = Some attrs ->
                     advances attrs = true) ->
  fst ((make_update ;; make_delete) s) = Ok tt /\
  (make_update ;; make_delete) s = (make_delete ;; make_update) s.
Proof.
  intros Hwf Hv.
  destruct (make_update_state s Hwf Hv) as (d1 & Hrun1 & Hkeys1 & Hget1).
  set (s1 := set_is_update true (set_D_content [] (set_D_ams d1 s))) in *.
  assert (Hwf1 : dict_wf (D_ams s1) = true)
    by exact (dict_wf_keys _ _ Hkeys1 Hwf).
  destruct (make_delete_state s1 Hwf1) as (d12 & Hrun12 & Hkeys12 & Hget12).
  destruct (make_delete_state s Hwf) as (d2 & Hrun2 & Hkeys2 & Hget2).
  set (s2 := set_is_delete true (set_D_ams d2 s)) in *.
  assert (Hwf2 : dict_wf (D_ams s2) = true)
    by exact (dict_wf_keys _ _ Hkeys2 Hwf).
  assert (Hv2 : forall sec attrs, dict_get sec (D_ams s2) = Some attrs ->
                                  advances attrs = true).
  { intros sec attrs H. cbn in H. rewrite Hget2 in H.
    destruct (dict_get sec (D_ams s)) as [a|] eqn:E; [|discriminate].
    inversion H; subst. rewrite advances_set_other by discriminate. eauto. }
  destruct (make_update_state s2 Hwf2 Hv2) as (d21 & Hrun21 & Hkeys21 & Hget21).
  rewrite (bind_Ok _ _ _ _ _ Hrun1), (bind_Ok _ _ _ _ _ Hrun2).
  rewrite Hrun12, Hrun21. split; [reflexivity|]. f_equal.
  assert (E : d12 = d21).
  { apply dict_ext.
    - apply nodup_keys_NoDup. exact (dict_wf_keys _ _ Hkeys12 Hwf1).
    - rewrite Hkeys12, Hkeys21.
      transitivity (dict_keys (D_ams s)); [exact Hkeys1 | now symmetry].
    - intros k. rewrite Hget12, Hget21. cbn. rewrite Hget1, Hget2.
      destruct (dict_get k (D_ams s)) as [a|] eqn:Ea; [|reflexivity].
      cbn. f_equal. apply bumped_marked. eauto. }
  rewrite E. unfold s1, s2. now destruct s.
Qed.

Lemma make_update_make_delete_commute_witness :
  fst ((make_update ;; make_delete) sample_package) = Ok tt /\
  (make_update ;; make_delete) sample_package
  = (make_delete ;; make_update) sample_package.
Proof.
  apply (make_update_make_delete_commute sample_package); [reflexivity|].
  intros sec attrs H. apply dict_get_In in H.
  assert (F : forallb (fun p => advances (snd p)) (D_ams sample_package)
              = true) by (vm_compute; reflexivity).
  rewrite forallb_forall in F. exact (F _ H).
Defined.

(** ** Removing an asset, case by case *)

Lemma dict_mem_del {V} (k : string) (d d' : dict V) :
  NoDup (dict_keys d) -> dict_del k d = Some d' ->
  dict_mem k d = true /\ dict_mem k d' = false /\
  forall k', k' <> k -> dict_get k' d' = dict_get k' d.
Proof.
  intros ND H. unfold dict_mem. rewrite (dict_get_del_same _ _ _ ND H).
  split; [|split; [reflexivity|]].
  - destruct (dict_get k d) eqn:E; [reflexivity|].
    apply dict_del_None in E. congruence.
  - intros k' Hk'. now apply (dict_get_del_other d k).
Qed.

Lemma dict_mem_del_None {V} (k : string) (d : dict V) :
  dict_del k d = None -> dict_mem k d = false.
Proof.
  intros H. apply dict_del_None in H. unfold dict_mem. now rewrite H.
Qed.

(** X4: what [_remove_ae] does, case by case.  It succeeds exactly when the
    section is in all three dictionaries, and otherwise raises the
    missing-element error.  In every case the section is gone from [D_ams]
    afterwards; it is deleted from [D_app] if it was in [D_ams], and from
    [D_content] if it was in [D_ams] and [D_app], so a failing call may have
    deleted part of the section.  The other sections and the flags are
    untouched. *)
Theorem remove_ae_cases (ae_type : string) (s : VodPackage) :
  dict_wf (D_ams s) = true -> dict_wf (D_app s) = true ->
  dict_wf (D_content s) = true ->
  let in_ams := dict_mem ae_type (D_ams s) in
  let in_app := dict_mem ae_type (D_app s) in
  let in_content := dict_mem ae_type (D_content s) in
  let s' := snd (_remove_ae ae_type s) in
  fst (_remove_ae ae_type s)
  = (if in_ams && in_app && in_content then Ok tt
     else Raise (remove_ae_error ae_type)) /\
  dict_mem ae_type (D_ams s') = false /\
  dict_mem ae_type (D_app s') = in_app && negb in_ams /\
  dict_mem ae_type (D_content s') = in_content && negb (in_ams && in_app) /\
  same_other_sections ae_type s s' /\
  xml_path s' = xml_path s /\
  has_preview s' = has_preview s /\ has_poster s' = has_poster s /\
  is_update s' = is_update s /\ is_delete s' = is_delete s.
Proof.
  intros W1 W2 W3. apply nodup_keys_NoDup in W1, W2, W3. cbv zeta.
  unfold _remove_ae, same_other_sections.
  fold (remove_ae_error ae_type).
  destruct (dict_del ae_type (D_ams s)) as [ams|] eqn:E1;
    [destruct (dict_mem_del _ _ _ W1 E1) as (M1 & N1 & O1);
     cbn [D_app set_D_ams];
     destruct (dict_del ae_type (D_app s)) as [app|] eqn:E2;
     [destruct (dict_mem_del _ _ _ W2 E2) as (M2 & N2 & O2);
      cbn [D_content set_D_app set_D_ams];
      destruct (dict_del ae_type (D_content s)) as [content|] eqn:E3;
      [destruct (dict_mem_del _ _ _ W3 E3) as (M3 & N3 & O3)
      |pose proof (dict_mem_del_None _ _ E3) as M3]
     |pose proof (dict_mem_del_None _ _ E2) as M2]
    |pose proof (dict_mem_del_None _ _ E1) as M1];
    cbn [fst snd D_ams D_app D_content set_D_ams set_D_app set_D_content
         xml_path has_preview has_poster is_update is_delete];
    repeat match goal with
           | H : dict_mem _ _ = _ |- _ => rewrite H
           end;
    cbn [andb negb]; rewrite ?andb_false_r, ?andb_true_r;
    repeat split; auto.
Qed.

Lemma remove_ae_cases_witness :
  let s := loaded "adi.xml" sample_ADI_preview_without_content in
  fst (_remove_ae "preview" s) = Raise (remove_ae_error "preview") /\
  dict_mem "preview" (D_app s) = true /\
  dict_mem "preview" (D_app (snd (_remove_ae "preview" s))) = false.
Proof.
  cbv zeta.
  destruct (remove_ae_cases
              "preview" (loaded "adi.xml" sample_ADI_preview_without_content)
              eq_refl eq_refl eq_refl) as (H1 & _ & H3 & _).
  split; [exact H1|]. split; [reflexivity | exact H3].
Defined.

Lemma remove_optional_twice_gen (ae_type : string)
      (clear : VodPackage -> VodPackage) (s : VodPackage) :
  (forall s0, D_ams (clear s0) = D_ams s0) ->
  dict_wf (D_ams s) = true -> dict_wf (D_app s) = true ->
  dict_wf (D_content s) = true ->
  dict_mem ae_type (D_ams s) = true -> dict_mem ae_type (D_app s) = true ->
  dict_mem ae_type (D_content s) = true ->
  let m := _remove_ae ae_type ;; modify clear in
  let s1 := clear (snd (_remove_ae ae_type s)) in
  m s = (Ok tt, s1) /\ m s1 = (Raise (remove_ae_error ae_type), s1).
Proof.
  intros Hclear W1 W2 W3 M1 M2 M3. cbv zeta.
  destruct (remove_ae_cases ae_type s W1 W2 W3) as (H1 & H2 & _).
  rewrite M1, M2, M3 in H1. cbn [andb] in H1.
  assert (E : (_remove_ae ae_type ;; modify clear) s
              = (Ok tt, clear (snd (_remove_ae ae_type s)))).
  { unfold bind. destruct (_remove_ae ae_type s) as [r s1]. cbn in H1.
    subst r. reflexivity. }
  split; [exact E|].
  apply bind_Raise. apply remove_ae_absent. rewrite Hclear. exact H2.
Qed.

(** X5: [remove_preview] and [remove_poster] on a package that holds the
    asset in all three dictionaries: the call succeeds, the asset is in none
    of them afterwards and its flag is false; a second call raises the
    missing-element error and leaves the package as the first call left
    it. *)
Theorem remove_optional_twice (s : VodPackage) :
  dict_wf (D_ams s) = true -> dict_wf (D_app s) = true ->
  dict_wf (D_content s) = true ->
  (dict_mem "preview" (D_ams s) = true ->
   dict_mem "preview" (D_app s) = true ->
   dict_mem "preview" (D_content s) = true ->
   let s1 := snd (remove_preview s) in
   fst (remove_preview s) = Ok tt /\
   has_preview s1 = false /\
   dict_mem "preview" (D_ams s1) = false /\
   dict_mem "preview" (D_app s1) = false /\
   dict_mem "preview" (D_content s1) = false /\
   same_other_sections "preview" s s1 /\
   remove_preview s1 = (Raise (remove_ae_error "preview"), s1)) /\
  (dict_mem "poster" (D_ams s) = true ->
   dict_mem "poster" (D_app s) = true ->
   dict_mem "poster" (D_content s) = true ->
   let s1 := snd (remove_poster s) in
   fst (remove_poster s) = Ok tt /\
   has_poster s1 = false /\
   dict_mem "poster" (D_ams s1) = false /\
   dict_mem "poster" (D_app s1) = false /\
   dict_mem "poster" (D_content s1) = false /\
   same_other_sections "poster" s s1 /\
   remove_poster s1 = (Raise (remove_ae_error "poster"), s1)).
Proof.
  intros W1 W2 W3. split; intros M1 M2 M3; cbv zeta.
  - destruct (remove_optional_twice_gen
                "preview" (set_has_preview false) s (fun _ => eq_refl)
                W1 W2 W3 M1 M2 M3) as [E1 E2].
    fold remove_preview in E1, E2. rewrite E1 in *. cbn [fst snd] in *.
    destruct (remove_ae_cases "preview" s W1 W2 W3)
      as (_ & H2 & H3 & H4 & H5 & _).
    rewrite M1, M2, M3 in *. cbn in H3, H4.
    repeat (split; [first [reflexivity | assumption]|]). exact E2.
  - destruct (remove_optional_twice_gen
                "poster" (set_has_poster false) s (fun _ => eq_refl)
                W1 W2 W3 M1 M2 M3) as [E1 E2].
    fold remove_poster in E1, E2. rewrite E1 in *. cbn [fst snd] in *.
    destruct (remove_ae_cases "poster" s W1 W2 W3)
      as (_ & H2 & H3 & H4 & H5 & _).
    rewrite M1, M2, M3 in *. cbn in H3, H4.
    repeat (split; [first [reflexivity | assumption]|]). exact E2.
Qed.

Lemma remove_optional_twice_witness :
  let s1 := snd (remove_poster sample_package) in
  fst (remove_poster sample_package) = Ok tt /\
  has_poster s1 = false /\
  remove_poster s1 = (Raise (remove_ae_error "poster"), s1).
Proof.
  cbv zeta.
  destruct (proj2 (remove_optional_twice sample_package
                                         eq_refl eq_refl eq_refl)
                  eq_refl eq_refl eq_refl)
    as (H1 & H2 & _ & _ & _ & _ & H7).
  split; [exact H1|]. split; [exact H2 | exact H7].
Defined.

(** ** The checksum and the chunk size *)

(** X6: [md5_checksum] of an existing file: with any positive chunk size the
    digest is that of the whole file; with chunk size 0 the first read is
    empty, the loop stops at once, and the digest is that of the empty
    input whatever the file holds. *)
Theorem md5_checksum_chunk_size (env : Env) (path : string)
        (content : list Byte.byte) :
  fs env path = Some content ->
  (forall chunk_bytes,
      0 < chunk_bytes ->
      md5_checksum_chunked env path chunk_bytes
      = Ok (md5_hexdigest env content)) /\
  md5_checksum env path = Ok (md5_hexdigest env content) /\
  md5_checksum_chunked env path 0 = Ok (md5_hexdigest env []).
Proof.
  intros H. split; [|split].
  - intros chunk_bytes Hc. unfold md5_checksum_chunked. rewrite H.
    rewrite md5_loop_feeds_all by lia. reflexivity.
  - now apply md5_checksum_whole_file.
  - unfold md5_checksum_chunked. rewrite H. cbn [md5_loop].
    unfold read. cbn. reflexivity.
Qed.

Lemma md5_checksum_chunk_size_witness :
  md5_checksum_chunked (sample_env []) "movie.mpg" 1
  = Ok (md5_hexdigest (sample_env []) [Byte.x00; Byte.x01]) /\
  md5_checksum_chunked (sample_env []) "movie.mpg" 0
  = Ok (md5_hexdigest (sample_env []) []).
Proof.
  destruct (md5_checksum_chunk_size (sample_env []) "movie.mpg"
                                    [Byte.x00; Byte.x01] eq_refl)
    as (H1 & _ & H3).
  split; [apply H1; lia | exact H3].
Defined.

(** ** Parsing App_Data: repeated names and missing attributes *)

(** X7: when every App_Data child has a Name and a Value, [_parse_App_Data]
    succeeds; a name of [_multiples] holds the list of its values in
    document order, and any other name holds the value of its LAST
    occurrence, earlier ones being overwritten. *)
Theorem parse_App_Data_last_value_wins (m : Element) :
  forallb named (findall "App_Data" m) = true ->
  exists D,
    _parse_App_Data m = Ok D /\ dict_wf D = true /\
    forall key,
      dict_get key D
      = match values_for key (app_data_pairs m) with
        | [] => None
        | vs => Some (if mem_string key _multiples then Multiple vs
                      else Single (last vs ""))
        end.
Proof. exact (parse_App_Data_spec m). Qed.

Lemma parse_App_Data_last_value_wins_witness :
  let m := Elem "Metadata" []
                [App_Data_elem "MOD" "Title" "First";
                 App_Data_elem "MOD" "Genre" "A";
                 App_Data_elem "MOD" "Title" "Second";
                 App_Data_elem "MOD" "Genre" "B"] in
  exists D,
    _parse_App_Data m = Ok D /\
    dict_get "Title" D = Some (Single "Second") /\
    dict_get "Genre" D = Some (Multiple ["A"; "B"]).
Proof.
  cbv zeta.
  destruct (parse_App_Data_last_value_wins
              (Elem "Metadata" []
                    [App_Data_elem "MOD" "Title" "First";
                     App_Data_elem "MOD" "Genre" "A";
                     App_Data_elem "MOD" "Title" "Second";
                     App_Data_elem "MOD" "Genre" "B"]) eq_refl)
    as (D & H & _ & Hget).
  exists D. split; [exact H|]. split; rewrite Hget; reflexivity.
Defined.

Lemma parse_step_named (D : dict AppValue) (e : Element) :
  multiples_are_lists D -> named e = true ->
  exists D', parse_App_Data_step D e = Ok D' /\ multiples_are_lists D'.
Proof.
  intros HD He. unfold named, dict_mem in He. apply andb_true_iff in He.
  unfold parse_App_Data_step, subscript.
  destruct (dict_get "Name" (attrib_of e)) as [name|];
    [|destruct He; discriminate].
  destruct (dict_get "Value" (attrib_of e)) as [value|];
    [|destruct He; discriminate].
  cbn [rbind].
  assert (Hset : forall x,
             (forall v, x = Single v -> mem_string name _multiples = false) ->
             multiples_are_lists (dict_set name x D)).
  { intros x Hx key v. destruct (String.eqb_spec key name) as [->|Hne].
    - rewrite dict_get_set_same. intros E. inversion E. eauto.
    - rewrite dict_get_set_other by exact Hne. apply HD. }
  destruct (mem_string name _multiples) eqn:Hm.
  - destruct (dict_get name D) as [[v|vs]|] eqn:E.
    + apply HD in E. congruence.
    + eexists. split; [reflexivity|]. apply Hset. discriminate.
    + eexists. split; [reflexivity|]. apply Hset. discriminate.
  - eexists. split; [reflexivity|]. apply Hset. auto.
Qed.

Lemma parse_step_unnamed (D : dict AppValue) (e : Element) :
  named e = false ->
  exists k, In k ["Name"; "Value"] /\
            parse_App_Data_step D e = Raise (KeyError k).
Proof.
  unfold named, dict_mem, parse_App_Data_step, subscript.
  destruct (dict_get "Name" (attrib_of e)) as [name|].
  - destruct (dict_get "Value" (attrib_of e)) as [value|]; [discriminate|].
    intros _. exists "Value". split; [cbn; tauto | reflexivity].
  - intros _. exists "Name". split; [cbn; tauto | reflexivity].
Qed.

Lemma parse_elements_unnamed (es : list Element) :
  forallb named es = false ->
  forall D, multiples_are_lists D ->
  exists k, In k ["Name"; "Value"] /\
            rfor_each es D parse_App_Data_step = Raise (KeyError k).
Proof.
  induction es as [|e es IH]; [discriminate|]. cbn [forallb rfor_each].
  intros H D HD. destruct (named e) eqn:He.
  - destruct (parse_step_named D e HD He) as (D' & -> & HD').
    cbn [rbind]. apply IH; assumption.
  - destruct (parse_step_unnamed D e He) as (k & Hk & ->).
    exists k. split; [exact Hk | reflexivity].
Qed.

(** X8: when some App_Data child of the Metadata element lacks its Name or
    its Value, [_parse_App_Data] raises KeyError for one of these two
    attribute names and returns no dictionary. *)
Theorem parse_App_Data_missing_attribute (m : Element) :
  forallb named (findall "App_Data" m) = false ->
  exists k, In k ["Name"; "Value"] /\
            _parse_App_Data m = Raise (KeyError k).
Proof.
  intros H. apply parse_elements_unnamed; [exact H|]. intros key v E.
  discriminate E.
Qed.

Lemma parse_App_Data_missing_attribute_witness :
  exists k, In k ["Name"; "Value"] /\
            _parse_App_Data
              (Elem "Metadata" []
                    [App_Data_elem "MOD" "Type" "title";
                     Elem "App_Data" [("App", "MOD"); ("Name", "Title")] []])
            = Raise (KeyError k).
Proof.
  apply (parse_App_Data_missing_attribute
           (Elem "Metadata" []
                 [App_Data_elem "MOD" "Type" "title";
                  Elem "App_Data" [("App", "MOD"); ("Name", "Title")] []])).
  reflexivity.
Defined.

(** ** Frames of the rescan *)

Section RescanSingle.

Variable env : Env.
Variable R : VodPackage -> VodPackage -> Prop.
Variable P : Exn -> Prop.
Hypothesis R_refl : forall s, R s s.
Hypothesis R_trans : forall s1 s2 s3, R s1 s2 -> R s2 s3 -> R s1 s3.
Hypothesis R_set :
  forall s ae_type key v,
    In key rescan_keys -> R s (snd (set_app ae_type key (Single v) s)).
Hypothesis P_KeyError : forall k, P (KeyError k).
Hypothesis P_ValueError : P ValueError.
Hypothesis P_IndexError : P IndexError.
Hypothesis P_InvalidMpeg : forall msg, P (InvalidMpeg msg).
Hypothesis P_ProbeFailure : forall path, P (ProbeFailure path).
Hypothesis P_IOError : forall path, P (IOError path).
Hypothesis P_missing_file :
  forall ae_type ae_path, P (missing_file_error ae_type ae_path).
Hypothesis P_unbound : P (UnboundLocalError "ae_path").

Let RW := on_package R.

Lemma RWs_refl : forall w, RW w w.
Proof. intros w. apply R_refl. Qed.

Lemma RWs_trans : forall w1 w2 w3, RW w1 w2 -> RW w2 w3 -> RW w1 w3.
Proof. intros w1 w2 w3. unfold RW, on_package. apply R_trans. Qed.

Lemma keeps_set_app_single (ae_type key v : string) :
  In key rescan_keys -> keeps R P (set_app ae_type key (Single v)).
Proof.
  intros Hk s. split; [now apply R_set|].
  unfold set_app. destruct (dict_get ae_type (D_app s)); cbn [fst].
  - discriminate.
  - intros e E. inversion E. apply P_KeyError.
Qed.

Ltac frame_leaf :=
  first
    [ apply keeps_ret; exact R_refl
    | apply keeps_get; exact R_refl
    | apply keeps_set_app_single; cbn; tauto
    | apply keeps_lift; [exact R_refl|];
      first [ apply raises_subscript; apply P_KeyError
            | apply raises_or_raise;
              first [exact P_ValueError | apply P_ProbeFailure]
            | apply raises_int; exact P_ValueError
            | apply raises_first_char; exact P_IndexError ] ].

Ltac frame_auto :=
  repeat first
    [ frame_leaf
    | apply keeps_bind; [ exact R_trans | | intros ? ]
    | match goal with
      | |- keeps _ _ (if ?b then _ else _) => destruct b
      | |- keeps _ _ (match ?o with Some _ => _ | None => _ end) => destruct o
      end ].

Lemma frame_scan_codec (ae_type commercial_name format_profile : string) :
  keeps R P (scan_codec ae_type commercial_name format_profile).
Proof.
  unfold scan_codec. frame_auto.
  apply keeps_raise; [exact R_refl | apply P_InvalidMpeg].
Qed.

Lemma frame_scan_video_info (ae_type : string)
      (mpeg_info : dict (dict string)) :
  keeps R P (scan_video_info env ae_type mpeg_info).
Proof.
  unfold scan_video_info. frame_auto.
  - apply frame_scan_codec.
  - apply keeps_lift; [exact R_refl|].
    match goal with
    | |- context [dict_get "Channel(s)" ?audio] =>
        destruct (dict_get "Channel(s)" audio)
    end; [apply raises_int_limited; exact P_ValueError | apply raises_Ok].
Qed.

Lemma frame_scan_image_info (img_info : dict (dict string)) :
  keeps R P (scan_image_info img_info).
Proof. unfold scan_image_info. frame_auto. Qed.

Lemma frame_scan_video (ae_type ae_path : string) :
  keeps RW P (_scan_video env ae_type ae_path).
Proof.
  unfold _scan_video.
  apply keeps_bind; [exact RWs_trans | apply keeps_log_probe, R_refl|].
  intros _. apply keeps_bind; [exact RWs_trans | |].
  - apply keeps_lift; [exact RWs_refl|]. apply raises_or_raise.
    apply P_ProbeFailure.
  - intros info. apply keeps_on_self, frame_scan_video_info.
Qed.

Lemma frame_scan_image (ae_path : string) :
  keeps RW P (_scan_image env ae_path).
Proof.
  unfold _scan_image.
  apply keeps_bind; [exact RWs_trans | apply keeps_log_probe, R_refl|].
  intros _. apply keeps_bind; [exact RWs_trans | |].
  - apply keeps_lift; [exact RWs_refl|]. apply raises_or_raise.
    apply P_ProbeFailure.
  - intros info. apply keeps_on_self, frame_scan_image_info.
Qed.

(** After the file loop: the scans. *)
Lemma frame_check_files_scans (ae_path : string) :
  keeps RW P
        (_scan_video env "movie" ae_path ;;
         w <- get ;;
         (if has_preview (self w) then _scan_video env "preview" ae_path
          else ret tt) ;;
         w <- get ;;
         (if has_poster (self w) then _scan_image env ae_path else ret tt)).
Proof.
  apply keeps_bind; [exact RWs_trans | apply frame_scan_video|]. intros _.
  apply keeps_bind; [exact RWs_trans | apply keeps_get; exact RWs_refl|].
  intros w1.
  apply keeps_bind; [exact RWs_trans | |].
  - destruct (has_preview (self w1));
      [apply frame_scan_video | apply keeps_ret; exact RWs_refl].
  - intros _.
    apply keeps_bind; [exact RWs_trans | apply keeps_get; exact RWs_refl|].
    intros w2.
    destruct (has_poster (self w2));
      [apply frame_scan_image | apply keeps_ret; exact RWs_refl].
Qed.

Lemma frame_check_files_step (ae_type ae_name : string) :
  keeps R P (check_files_step env ae_type ae_name).
Proof.
  unfold check_files_step. frame_auto.
  - apply keeps_raise; [exact R_refl | apply P_missing_file].
  - apply keeps_lift; [exact R_refl|]. intros e. unfold getsize.
    destruct (fs env _); [discriminate|]. intros E. inversion E.
    apply P_IOError.
  - apply keeps_lift; [exact R_refl|]. intros e.
    unfold md5_checksum, md5_checksum_chunked.
    destruct (fs env _); [destruct (md5_loop _ _ _ _); [discriminate|]|];
      intros E; inversion E; apply P_IOError.
Qed.

Lemma frame_check_files_loop (items : list (string * string)) :
  forall ae_path, keeps R P (check_files_loop env items ae_path).
Proof.
  induction items as [|[ae_type ae_name] items IH]; intros ae_path; simpl.
  - apply keeps_ret. exact R_refl.
  - apply keeps_bind; [exact R_trans | apply frame_check_files_step|].
    intros p. apply IH.
Qed.

Lemma frame_check_files : keeps RW P (check_files env).
Proof.
  unfold check_files.
  apply keeps_bind; [exact RWs_trans | |].
  - apply keeps_on_self.
    apply keeps_bind; [exact R_trans | apply keeps_get; exact R_refl|].
    intros s. apply frame_check_files_loop.
  - intros [ae_path|].
    + apply frame_check_files_scans.
    + apply keeps_raise; [exact RWs_refl | exact P_unbound].
Qed.

End RescanSingle.

Lemma rescan_frame_refl (s : VodPackage) : rescan_frame s s.
Proof. split; [apply same_but_app_refl | split; reflexivity]. Qed.

Lemma rescan_frame_trans (s1 s2 s3 : VodPackage) :
  rescan_frame s1 s2 -> rescan_frame s2 s3 -> rescan_frame s1 s3.
Proof.
  intros (A1 & B1 & C1) (A2 & B2 & C2). split; [|split].
  - eapply same_but_app_trans; eassumption.
  - congruence.
  - intros t k Hk. rewrite C2, C1; auto.
Qed.

Lemma set_app_keys (ae_type key : string) (value : AppValue)
      (s : VodPackage) :
  dict_keys (D_app (snd (set_app ae_type key value s))) = dict_keys (D_app s).
Proof.
  unfold set_app. destruct (dict_get ae_type (D_app s)) as [a|] eqn:E;
    [|reflexivity].
  cbn [snd D_app set_D_app].
  apply dict_keys_set_present, dict_mem_In. unfold dict_mem. now rewrite E.
Qed.

Lemma rescan_frame_set (s : VodPackage) (ae_type key : string)
      (value : AppValue) :
  In key rescan_keys ->
  rescan_frame s (snd (set_app ae_type key value s)).
Proof.
  intros Hk. split; [apply set_app_same_but_app|].
  split; [apply set_app_keys|].
  intros t k Hn. apply app_value_set_app_other_key. intros ->. auto.
Qed.

Lemma keeps_check_files_frame (env : Env) :
  keeps (on_package rescan_frame) rescan_exn (check_files env).
Proof.
  apply frame_check_files;
    try (intros; exact I);
    [ exact rescan_frame_refl | exact rescan_frame_trans
    | intros s t k v Hk; now apply rescan_frame_set
    | intros t p; cbn; eauto ].
Qed.

(** X9: whether it succeeds or fails, [check_files] changes nothing of the
    package but App_Data values: [D_ams], [D_content], the path and the
    flags are as before, no section is added to or removed from [D_app],
    and in a section only the ten names that a rescan stores can have
    changed.  What it raises is never TypeError or AttributeError, and a
    missing-element error only for a missing content file. *)
Theorem check_files_frame (env : Env) (w : World) :
  rescan_frame (self w) (self (snd (check_files env w))) /\
  forall e, fst (check_files env w) = Raise e -> rescan_exn e.
Proof. exact (keeps_check_files_frame env w). Qed.

(** ** [files_present] and the rescan *)

Lemma rescan_frame_fields (s s' : VodPackage) :
  rescan_frame s s' ->
  xml_path s' = xml_path s /\
  forall t, dict_mem t (D_app s') = dict_mem t (D_app s).
Proof.
  intros (A & B & _). destruct (same_but_app_fields _ _ A) as (E & _).
  split; [exact E|]. intros t.
  destruct (dict_mem t (D_app s)) eqn:M.
  - apply dict_mem_In. rewrite B. now apply dict_mem_In.
  - destruct (dict_mem t (D_app s')) eqn:M'; [|reflexivity].
    apply dict_mem_In in M'. rewrite B in M'. apply dict_mem_In in M'.
    congruence.
Qed.

Lemma check_files_step_frame (env : Env) (ae_type ae_name : string)
      (s : VodPackage) :
  rescan_frame s (snd (check_files_step env ae_type ae_name s)).
Proof.
  assert (K : keeps rescan_frame (fun _ => True)
                     (check_files_step env ae_type ae_name)).
  { apply frame_check_files_step;
      try (intros; exact I);
      [ exact rescan_frame_refl | exact rescan_frame_trans
      | intros s0 t k v Hk; now apply rescan_frame_set ]. }
  exact (proj1 (K s)).
Qed.

Lemma set_app_present (ae_type key : string) (value : AppValue)
      (s : VodPackage) :
  dict_mem ae_type (D_app s) = true ->
  exists s1, set_app ae_type key value s = (Ok tt, s1) /\
             dict_mem ae_type (D_app s1) = true.
Proof.
  unfold dict_mem, set_app.
  destruct (dict_get ae_type (D_app s)) as [a|]; [intros _ | discriminate].
  eexists. split; [reflexivity|]. cbn [D_app set_D_app].
  now rewrite dict_get_set_same.
Qed.

Lemma check_files_step_present (env : Env) (ae_type ae_name : string)
      (s : VodPackage) :
  isfile env (sibling_path env (xml_path s) ae_name) = true ->
  dict_mem ae_type (D_app s) = true ->
  fst (check_files_step env ae_type ae_name s)
  = Ok (sibling_path env (xml_path s) ae_name).
Proof.
  intros Hf Hm. unfold check_files_step. rewrite bind_get, Hf. cbn [negb].
  unfold isfile in Hf.
  destruct (fs env (sibling_path env (xml_path s) ae_name))
    as [content|] eqn:Efs; [|discriminate].
  unfold getsize. rewrite Efs. unfold bind at 1, lift at 1.
  destruct (set_app_present ae_type "Content_FileSize"
              (Single (str (Z.of_nat (length content)))) s Hm)
    as (s1 & E1 & Hm1).
  rewrite (bind_Ok _ _ _ _ _ E1).
  rewrite (md5_checksum_whole_file env _ content Efs).
  unfold bind at 1, lift at 1.
  destruct (set_app_present ae_type "Content_CheckSum"
              (Single (md5_hexdigest env content)) s1 Hm1)
    as (s2 & E2 & _).
  rewrite (bind_Ok _ _ _ _ _ E2). reflexivity.
Qed.

Lemma check_files_step_absent (env : Env) (ae_type ae_name : string)
      (s : VodPackage) :
  isfile env (sibling_path env (xml_path s) ae_name) = false ->
  check_files_step env ae_type ae_name s
  = (Raise (missing_file_error
              ae_type (sibling_path env (xml_path s) ae_name)), s).
Proof.
  intros Hf. unfold check_files_step. rewrite bind_get, Hf. reflexivity.
Qed.

Lemma check_files_loop_missing (env : Env) (items : list (string * string)) :
  forall o s,
    (forall item, In item items -> dict_mem (fst item) (D_app s) = true) ->
    forallb (content_present env (xml_path s)) items = false ->
    exists pre t n post,
      items = (pre ++ (t, n) :: post)%list /\
      forallb (content_present env (xml_path s)) pre = true /\
      isfile env (sibling_path env (xml_path s) n) = false /\
      fst (check_files_loop env items o s)
      = Raise (missing_file_error t (sibling_path env (xml_path s) n)) /\
      rescan_frame s (snd (check_files_loop env items o s)).
Proof.
  induction items as [|[t n] items IH]; intros o s Hm Hf; [discriminate|].
  cbn [forallb] in Hf. cbn [check_files_loop]. unfold bind.
  destruct (content_present env (xml_path s) (t, n)) eqn:Ep.
  - cbn [andb] in Hf. unfold content_present in Ep. cbn [snd] in Ep.
    pose proof (check_files_step_present
                  env t n s Ep (Hm (t, n) (or_introl eq_refl))) as Hstep.
    pose proof (check_files_step_frame env t n s) as Hframe.
    destruct (check_files_step env t n s) as [r s1]. cbn [fst snd] in *.
    subst r. destruct (rescan_frame_fields _ _ Hframe) as (Ex & Em).
    destruct (IH (Some (sibling_path env (xml_path s) n)) s1)
      as (pre & t' & n' & post & E & Hpre & Hmiss & Hrun & Hfr).
    { intros item Hin. rewrite Em. apply Hm. now right. }
    { now rewrite Ex. }
    rewrite Ex in *.
    exists ((t, n) :: pre), t', n', post. split; [now rewrite E|].
    split; [cbn [forallb]; unfold content_present at 1; cbn [snd];
            now rewrite Ep|].
    split; [exact Hmiss|]. split; [exact Hrun|].
    eapply rescan_frame_trans; eassumption.
  - unfold content_present in Ep. cbn [snd] in Ep.
    exists [], t, n, items. split; [reflexivity|]. split; [reflexivity|].
    split; [exact Ep|].
    rewrite (check_files_step_absent env t n s Ep). cbn [fst snd].
    split; [reflexivity | apply rescan_frame_refl].
Qed.

(** X10: when [files_present] says no (and every content reference belongs
    to a section of [D_app]), [check_files] raises the missing-element error
    for the first content reference whose file is not there; no probe has
    been called, and of the package only App_Data values have changed. *)
Theorem check_files_first_missing_file (env : Env) (s : VodPackage)
        (probed : list Probe) :
  files_present env s = false ->
  (forall item, In item (D_content s) ->
                dict_mem (fst item) (D_app s) = true) ->
  exists pre t n post,
    D_content s = (pre ++ (t, n) :: post)%list /\
    forallb (content_present env (xml_path s)) pre = true /\
    isfile env (sibling_path env (xml_path s) n) = false /\
    fst (check_files env (mkWorld s probed))
    = Raise (missing_file_error t (sibling_path env (xml_path s) n)) /\
    probes (snd (check_files env (mkWorld s probed))) = probed /\
    rescan_frame s (self (snd (check_files env (mkWorld s probed)))).
Proof.
  intros Hf Hm.
  destruct (check_files_loop_missing env (D_content s) None s Hm Hf)
    as (pre & t & n & post & E & Hpre & Hmiss & Hrun & Hfr).
  exists pre, t, n, post. repeat (split; [assumption|]).
  unfold check_files, bind, on_self, get. cbn [self probes fst].
  destruct (check_files_loop env (D_content s) None s) as [r s1].
  cbn [fst snd] in *. subst r. cbn. auto.
Qed.

Lemma check_files_first_missing_file_witness :
  let s := mkVodPackage "adi.xml" (D_ams sample_package)
                        (D_app sample_package)
                        [("movie", "movie.mpg"); ("preview", "lost.mpg");
                         ("poster", "poster.bmp")]
                        true true false false in
  fst (check_files (sample_env []) (mkWorld s []))
  = Raise (missing_file_error "preview" "lost.mpg") /\
  probes (snd (check_files (sample_env []) (mkWorld s []))) = [].
Proof.
  cbv zeta.
  destruct (check_files_first_missing_file
              (sample_env [])
              (mkVodPackage "adi.xml" (D_ams sample_package)
                            (D_app sample_package)
                            [("movie", "movie.mpg"); ("preview", "lost.mpg");
                             ("poster", "poster.bmp")]
                            true true false false) [] eq_refl)
    as (pre & t & n & post & E & Hpre & Hmiss & Hrun & Hp & _).
  - intros item Hin. cbn in Hin.
    repeat (destruct Hin as [<-|Hin]; [reflexivity|]). destruct Hin.
  - split; [|exact Hp]. rewrite Hrun. cbn [D_content xml_path] in *.
    destruct pre as [|x1 [|x2 pre]].
    + inversion E; subst. discriminate Hmiss.
    + inversion E; subst. reflexivity.
    + inversion E; subst. cbn in Hpre. discriminate Hpre.
Defined.

Lemma check_files_step_present_raises (env : Env) (ae_type ae_name : string)
      (s s' : VodPackage) (e : Exn) :
  isfile env (sibling_path env (xml_path s) ae_name) = true ->
  check_files_step env ae_type ae_name s = (Raise e, s') ->
  is_MissingElement e = false.
Proof.
  intros Hf. unfold check_files_step. rewrite bind_get, Hf. cbn [negb].
  set (P := fun e => is_MissingElement e = false).
  intros H.
  assert (K : keeps (fun _ _ : VodPackage => True) P
                (size <- lift (getsize env
                                 (sibling_path env (xml_path s) ae_name)) ;;
                 set_app ae_type "Content_FileSize" (Single (str size)) ;;
                 checksum <- lift (md5_checksum env
                                     (sibling_path env (xml_path s) ae_name)) ;;
                 set_app ae_type "Content_CheckSum" (Single checksum) ;;
                 ret (sibling_path env (xml_path s) ae_name))).
  { assert (Hset : forall k v, keeps (fun _ _ : VodPackage => True) P
                                     (set_app ae_type k v)).
    { intros k v s0. split; [exact I|]. unfold set_app.
      destruct (dict_get ae_type (D_app s0)); cbn [fst]; [discriminate|].
      intros e0 E. now inversion E. }
    apply keeps_bind; [auto | |intros size].
    - apply keeps_lift; [auto|]. intros e0. unfold getsize.
      destruct (fs env _); [discriminate|]. intros E. now inversion E.
    - apply keeps_bind; [auto | apply Hset | intros _].
      apply keeps_bind; [auto | |intros checksum].
      + apply keeps_lift; [auto|]. intros e0.
        unfold md5_checksum, md5_checksum_chunked.
        destruct (fs env _); [destruct (md5_loop _ _ _ _); [discriminate|]|];
          intros E; now inversion E.
      + apply keeps_bind; [auto | apply Hset | intros _].
        apply keeps_ret. auto. }
  destruct (K s) as [_ K2]. apply K2. now rewrite H.
Qed.

Lemma check_files_loop_present (env : Env) (items : list (string * string)) :
  forall o s s' e,
    forallb (content_present env (xml_path s)) items = true ->
    check_files_loop env items o s = (Raise e, s') ->
    is_MissingElement e = false.
Proof.
  induction items as [|[t n] items IH]; intros o s s' e Hf H;
    [discriminate|].
  cbn [forallb] in Hf. apply andb_true_iff in Hf. destruct Hf as [Hp Hf].
  unfold content_present in Hp. cbn [snd] in Hp.
  cbn [check_files_loop] in H. unfold bind in H.
  destruct (check_files_step env t n s) as [[p|e0] s1] eqn:Estep.
  - apply check_files_step_path in Estep. destruct Estep as [_ Hs1].
    destruct (same_but_app_fields _ _ Hs1) as (Ex & _).
    apply (IH _ _ _ _ ltac:(rewrite Ex; exact Hf) H).
  - inversion H; subst.
    exact (check_files_step_present_raises env t n s s' e Hp Estep).
Qed.

(** X11: when [files_present] says yes, [check_files] never raises a
    missing-element error: whatever goes wrong then comes from the
    dictionaries or from the probes. *)
Theorem check_files_files_present (env : Env) (w : World) :
  files_present env (self w) = true ->
  forall msg, fst (check_files env w) <> Raise (MissingElement msg).
Proof.
  intros Hf msg H.
  set (P := fun e => is_MissingElement e = false).
  assert (HP : P (MissingElement msg)); [|unfold P in HP; discriminate HP].
  unfold check_files in H.
  destruct (on_self (s <- get ;; check_files_loop env (D_content s) None) w)
    as [[o|e0] w1] eqn:Eloop.
  - rewrite (bind_Ok _ _ _ _ _ Eloop) in H.
    destruct o as [ae_path|]; [|discriminate H].
    unshelve refine (proj2 (frame_check_files_scans
                              env (fun _ _ => True) P _ _ _ _ _ _ _ _
                              ae_path w1) _ H);
      try (intros; exact I); intros; reflexivity.
  - rewrite (bind_Raise _ _ _ _ _ Eloop) in H.
    cbn [fst] in H. inversion H; subst e0.
    unfold on_self in Eloop. rewrite bind_get in Eloop.
    destruct (check_files_loop env (D_content (self w)) None (self w))
      as [r s1] eqn:El.
    inversion Eloop; subst.
    exact (check_files_loop_present env _ _ _ _ _ Hf El).
Qed.

Lemma check_files_files_present_witness :
  files_present (sample_env []) sample_package = true /\
  fst (check_files (sample_env []) (mkWorld sample_package []))
  <> Raise (MissingElement "Package's movie element is missing - movie.mpg").
Proof.
  split; [reflexivity|].
  apply (check_files_files_present (sample_env [])
                                   (mkWorld sample_package [])).
  reflexivity.
Defined.

(** ** After an update *)

Lemma update_frame_refl (s : VodPackage) : update_frame s s.
Proof.
  split; [reflexivity|]. split; [|repeat split].
  intros sec. destruct (dict_get sec (D_ams s)); cbn; auto.
Qed.

Lemma update_frame_trans (s1 s2 s3 : VodPackage) :
  update_frame s1 s2 -> update_frame s2 s3 -> update_frame s1 s3.
Proof.
  intros (A1 & B1 & C1) (A2 & B2 & C2). split; [congruence|]. split.
  - intros sec. specialize (B1 sec). specialize (B2 sec).
    destruct (dict_get sec (D_ams s1)), (dict_get sec (D_ams s2)),
      (dict_get sec (D_ams s3)); cbn in *; try tauto.
    intros k Hk. rewrite B2, B1; auto.
  - intuition congruence.
Qed.

Lemma set_ams_update_frame (ae_type value : string) (s : VodPackage) :
  update_frame s (snd (set_ams ae_type "Version_Major" value s)).
Proof.
  unfold set_ams. destruct (dict_get ae_type (D_ams s)) as [a|] eqn:E;
    [|apply update_frame_refl].
  cbn [snd]. split; [|split; [|repeat split]].
  - cbn [D_ams set_D_ams]. apply dict_keys_set_present, dict_mem_In.
    unfold dict_mem. now rewrite E.
  - intros sec. cbn [D_ams set_D_ams].
    destruct (String.eqb_spec sec ae_type) as [->|Hne].
    + rewrite dict_get_set_same, E. cbn. intros k Hk.
      now apply dict_get_set_other.
    + rewrite dict_get_set_other by exact Hne.
      destruct (dict_get sec (D_ams s)); cbn; auto.
Qed.

Lemma make_update_step_frame (ae_type : string) :
  keeps update_frame (fun _ => True) (make_update_step ae_type).
Proof.
  unfold make_update_step.
  apply keeps_bind; [exact update_frame_trans | |intros s0].
  { apply keeps_get. exact update_frame_refl. }
  apply keeps_bind; [exact update_frame_trans | |intros a].
  { apply keeps_lift; [exact update_frame_refl | intros e _; exact I]. }
  apply keeps_bind; [exact update_frame_trans | |intros old].
  { apply keeps_lift; [exact update_frame_refl | intros e _; exact I]. }
  apply keeps_bind; [exact update_frame_trans | |intros n].
  { apply keeps_lift; [exact update_frame_refl | intros e _; exact I]. }
  apply keeps_bind; [exact update_frame_trans | |intros new].
  { apply keeps_lift; [exact update_frame_refl | intros e _; exact I]. }
  intros s. split; [apply set_ams_update_frame | auto].
Qed.

(** What a successful [make_update] leaves. *)
Lemma make_update_Ok_inv (s s1 : VodPackage) :
  make_update s = (Ok tt, s1) ->
  update_frame s s1 /\ D_content s1 = [] /\ is_update s1 = true.
Proof.
  unfold make_update. rewrite bind_get. intros H.
  apply bind_Ok_inv in H. destruct H as ([] & s2 & Hloop & H).
  assert (K : update_frame s s2).
  { pose proof (keeps_for_each
                  update_frame (fun _ => True) update_frame_refl
                  update_frame_trans (dict_keys (D_ams s)) make_update_step
                  make_update_step_frame s) as [K _].
    now rewrite Hloop in K. }
  cbn in H. inversion H; subst s1. cbn.
  split; [|auto]. destruct K as (A & B & C). split; [exact A|].
  split; [exact B | exact C].
Qed.

(** X12: a package that [make_update] has turned into an update cannot be
    rescanned: the update has emptied [D_content], so [check_files], and
    with it [write_xml] with [rewrite] set, fails on the unbound loop
    variable; neither changes the package or calls a probe. *)
Theorem make_update_then_rescan (env : Env) (s s1 : VodPackage)
        (probed : list Probe) :
  make_update s = (Ok tt, s1) ->
  dict_mem "movie" (D_ams s) = true ->
  check_files env (mkWorld s1 probed)
  = (Raise (UnboundLocalError "ae_path"), mkWorld s1 probed) /\
  write_xml env true (mkWorld s1 probed)
  = (Raise (UnboundLocalError "ae_path"), mkWorld s1 probed).
Proof.
  intros H Hm. apply make_update_Ok_inv in H.
  destruct H as ((Hkeys & _) & Hc & _).
  assert (E : check_files env (mkWorld s1 probed)
              = (Raise (UnboundLocalError "ae_path"), mkWorld s1 probed)).
  { unfold check_files, bind, on_self, get. cbn [self]. rewrite Hc.
    reflexivity. }
  split; [exact E|].
  unfold write_xml. rewrite bind_get. cbn [self].
  assert (Hm1 : dict_mem "movie" (D_ams s1) = true)
    by (apply dict_mem_In; rewrite Hkeys; now apply dict_mem_In).
  rewrite Hm1. cbn [negb]. now rewrite (bind_Raise _ _ _ _ _ E).
Qed.

Lemma make_update_then_rescan_witness :
  let s1 := snd (make_update sample_package) in
  write_xml (sample_env []) true (mkWorld s1 [])
  = (Raise (UnboundLocalError "ae_path"), mkWorld s1 []).
Proof.
  cbv zeta.
  apply (make_update_then_rescan (sample_env []) sample_package
                                 (snd (make_update sample_package)) []);
    reflexivity.
Defined.

(** ** Listing the identifiers of an update *)

Lemma list_files_needs_content (s : VodPackage) (l : list string) :
  D_content s = [] -> list_files s = Ok l ->
  has_preview s = false /\ has_poster s = false.
Proof.
  intros Hc H. unfold list_files in H. rewrite Hc in H.
  repeat (apply rbind_Ok_inv in H;
          let x := fresh "x" in let E := fresh "E" in
          destruct H as (x & E & H)).
  destruct (has_preview s); [discriminate|].
  destruct (has_poster s); [discriminate|]. auto.
Qed.

(** X13: after a successful [make_update] of a package with a preview or a
    poster, [list_files] raises KeyError: the update has emptied
    [D_content], and the file name of a flagged asset is read from it
    without a check. *)
Theorem list_files_after_make_update (s s1 : VodPackage) :
  make_update s = (Ok tt, s1) ->
  has_preview s || has_poster s = true ->
  exists key, list_files s1 = Raise (KeyError key).
Proof.
  intros H Hflag. apply make_update_Ok_inv in H.
  destruct H as ((_ & _ & _ & _ & Hpv & Hpo & _) & Hc & _).
  destruct (list_files s1) as [l|e] eqn:E.
  - destruct (list_files_needs_content s1 l Hc E) as [F1 F2].
    rewrite <- Hpv, <- Hpo, F1, F2 in Hflag. discriminate.
  - assert (K : raises (fun e => exists key, e = KeyError key)
                       (list_files s1)).
    { unfold list_files.
      repeat first
        [ apply raises_Ok
        | apply raises_subscript; eauto
        | apply raises_rbind; [|intros ?]
        | match goal with
          | |- raises _ (if ?b then _ else _) => destruct b
          end ]. }
    destruct (K e E) as (key & ->). eauto.
Qed.

Lemma list_files_after_make_update_witness :
  exists key,
    list_files (snd (make_update sample_package)) = Raise (KeyError key).
Proof.
  apply (list_files_after_make_update sample_package
                                      (snd (make_update sample_package)));
    reflexivity.
Defined.

(** ** The flags of the optional assets *)

Lemma optional_flags_same (s s' : VodPackage) :
  dict_keys (D_ams s') = dict_keys (D_ams s) ->
  has_preview s' = has_preview s -> has_poster s' = has_poster s ->
  optional_flags_in_sync s = true -> optional_flags_in_sync s' = true.
Proof.
  intros Hk Hpv Hpo. unfold optional_flags_in_sync. rewrite Hpv, Hpo.
  assert (Hm : forall k, dict_mem k (D_ams s') = dict_mem k (D_ams s)).
  { intros k. destruct (dict_mem k (D_ams s)) eqn:M.
    - apply dict_mem_In. rewrite Hk. now apply dict_mem_In.
    - destruct (dict_mem k (D_ams s')) eqn:M'; [|reflexivity].
      apply dict_mem_In in M'. rewrite Hk in M'. apply dict_mem_In in M'.
      congruence. }
  now rewrite !Hm.
Qed.

Lemma make_update_keeps_frame (s : VodPackage) :
  dict_keys (D_ams (snd (make_update s))) = dict_keys (D_ams s) /\
  has_preview (snd (make_update s)) = has_preview s /\
  has_poster (snd (make_update s)) = has_poster s.
Proof.
  set (R := fun s s' : VodPackage =>
              dict_keys (D_ams s') = dict_keys (D_ams s) /\
              has_preview s' = has_preview s /\
              has_poster s' = has_poster s).
  assert (R_refl : forall s0, R s0 s0) by (intros s0; repeat split).
  assert (R_trans : forall s1 s2 s3, R s1 s2 -> R s2 s3 -> R s1 s3)
    by (unfold R; intuition congruence).
  assert (K : keeps R (fun _ => True) make_update).
  { unfold make_update.
    apply keeps_bind; [exact R_trans | now apply keeps_get|]. intros s0.
    apply keeps_bind; [exact R_trans | |intros _].
    - apply keeps_for_each; [exact R_refl | exact R_trans|].
      intros ae_type s1.
      destruct (make_update_step_frame ae_type s1)
        as [(A & _ & _ & _ & B & C & _) _].
      split; [split; [exact A | split; [exact B | exact C]] | auto].
    - apply keeps_bind; [exact R_trans | |intros _];
        apply keeps_modify; intros s1; now destruct s1. }
  exact (proj1 (K s)).
Qed.

Lemma remove_ae_Ok_ams (ae_type : string) (s : VodPackage) :
  dict_wf (D_ams s) = true ->
  fst (_remove_ae ae_type s) = Ok tt ->
  let s' := snd (_remove_ae ae_type s) in
  dict_mem ae_type (D_ams s') = false /\
  (forall k, k <> ae_type -> dict_mem k (D_ams s') = dict_mem k (D_ams s)) /\
  has_preview s' = has_preview s /\ has_poster s' = has_poster s.
Proof.
  intros W1. apply nodup_keys_NoDup in W1. unfold _remove_ae.
  destruct (dict_del ae_type (D_ams s)) as [ams|] eqn:E1; [|discriminate].
  destruct (dict_mem_del _ _ _ W1 E1) as (_ & N1 & O1).
  cbn [D_app set_D_ams].
  destruct (dict_del ae_type (D_app s)) as [app|]; [|discriminate].
  cbn [D_content set_D_app set_D_ams].
  destruct (dict_del ae_type (D_content s)) as [content|]; [|discriminate].
  intros _. cbn. split; [exact N1|]. split; [|auto].
  intros k Hk. unfold dict_mem. now rewrite O1.
Qed.

(** X14: [has_preview] and [has_poster] say whether [D_ams] holds the
    section.  This holds for every package that [__init__] builds; and
    [make_update], [make_delete] and [check_files] keep it whether they
    succeed or fail, [remove_preview] and [remove_poster] when they
    succeed. *)
Theorem optional_flags_stay_in_sync (env : Env) :
  (forall path ADI s,
      __init__ path ADI = Ok s -> optional_flags_in_sync s = true) /\
  (forall s,
      optional_flags_in_sync s = true ->
      optional_flags_in_sync (snd (make_update s)) = true /\
      optional_flags_in_sync (snd (make_delete s)) = true /\
      (forall probed,
          optional_flags_in_sync
            (self (snd (check_files env (mkWorld s probed)))) = true) /\
      (dict_wf (D_ams s) = true ->
       (fst (remove_preview s) = Ok tt ->
        optional_flags_in_sync (snd (remove_preview s)) = true) /\
       (fst (remove_poster s) = Ok tt ->
        optional_flags_in_sync (snd (remove_poster s)) = true))).
Proof.
  split.
  - intros path ADI s H. apply init_Ok_inv in H.
    destruct H as (pm & pa & papp & ta & tm & tams & tapp & version & _ & _
                   & _ & _ & _ & _ & _ & _ & _ & _ & Hpv & Hpo & _).
    unfold optional_flags_in_sync. rewrite Hpv, Hpo.
    now rewrite !Bool.eqb_reflx.
  - intros s H. split; [|split; [|split]].
    + destruct (make_update_keeps_frame s) as (A & B & C).
      exact (optional_flags_same _ _ A B C H).
    + pose proof (make_delete_keys s) as A.
      destruct (make_delete_runs s) as (d' & Hrun & _). rewrite Hrun in *.
      exact (optional_flags_same _ _ A eq_refl eq_refl H).
    + intros probed.
      destruct (keeps_check_files_frame env (mkWorld s probed))
        as ((A & _) & _).
      destruct (same_but_app_fields _ _ A) as (_ & E & _ & B & C).
      cbn [self] in *.
      apply (optional_flags_same s); [now rewrite E | exact B | exact C
                                      | exact H].
    + intros Hwf. unfold optional_flags_in_sync in *.
      apply andb_true_iff in H. destruct H as [H1 H2].
      apply Bool.eqb_prop in H1, H2.
      split; intros Hok.
      * unfold remove_preview, bind in *.
        pose proof (remove_ae_Ok_ams "preview" s Hwf) as K.
        destruct (_remove_ae "preview" s) as [[[]|e] s1];
          [|discriminate Hok].
        destruct (K eq_refl) as (N & O & _ & Hpo). cbn [snd] in *.
        cbn. rewrite N, Hpo, (O "poster") by discriminate.
        rewrite H2. now rewrite Bool.eqb_reflx.
      * unfold remove_poster, bind in *.
        pose proof (remove_ae_Ok_ams "poster" s Hwf) as K.
        destruct (_remove_ae "poster" s) as [[[]|e] s1];
          [|discriminate Hok].
        destruct (K eq_refl) as (N & O & Hpv & _). cbn [snd] in *.
        cbn. rewrite N, Hpv, (O "preview") by discriminate.
        rewrite H1. now rewrite Bool.eqb_reflx.
Qed.

(** ** The kinds of the App_Data values *)

Lemma In_dict_set {V} (k : string) (v : V) (d : dict V) (x : string * V) :
  In x (dict_set k v d) -> x = (k, v) \/ In x d.
Proof.
  induction d as [|[k0 v0] d IH]; cbn.
  - intros [<-|[]]. now left.
  - destruct (String.eqb_spec k k0) as [->|Hne]; cbn.
    + intros [<-|H]; auto.
    + intros [<-|H]; auto. destruct (IH H); auto.
Qed.

Lemma In_dict_del {V} (k : string) (d : dict V) :
  forall d' x, dict_del k d = Some d' -> In x d' -> In x d.
Proof.
  induction d as [|[k0 v0] d IH]; cbn; intros d' x H; [discriminate|].
  destruct (String.eqb k k0).
  - inversion H; subst. auto.
  - destruct (dict_del k d) as [d0|]; [|discriminate].
    inversion H; subst. cbn. intros [<-|Hin]; eauto.
Qed.

Lemma lists_under_multiples_set (k : string) (v : AppValue)
      (app : dict AppValue) :
  lists_under_multiples app = true -> item_typed [] (k, v) = true ->
  lists_under_multiples (dict_set k v app) = true.
Proof.
  unfold lists_under_multiples. rewrite !forallb_forall. intros H Hv x Hx.
  apply In_dict_set in Hx. destruct Hx as [->|Hx]; auto.
Qed.

Lemma parse_step_typed (D D' : dict AppValue) (e : Element) :
  lists_under_multiples D = true -> parse_App_Data_step D e = Ok D' ->
  lists_under_multiples D' = true.
Proof.
  intros HD H. unfold parse_App_Data_step in H.
  apply rbind_Ok_inv in H. destruct H as (key & _ & H).
  apply rbind_Ok_inv in H. destruct H as (value & _ & H).
  destruct (mem_string key _multiples) eqn:Hm.
  - assert (Ht : forall vs, item_typed [] (key, Multiple vs) = true)
      by (intros vs; unfold item_typed; cbn [fst snd mem_string orb];
          exact Hm).
    destruct (dict_get key D) as [[v|vs]|]; [discriminate| |];
      inversion H; subst; now apply lists_under_multiples_set.
  - inversion H; subst. now apply lists_under_multiples_set.
Qed.

Lemma parse_elements_typed (es : list Element) :
  forall D D', lists_under_multiples D = true ->
               rfor_each es D parse_App_Data_step = Ok D' ->
               lists_under_multiples D' = true.
Proof.
  induction es as [|e es IH]; intros D D' HD H.
  - inversion H; subst. exact HD.
  - cbn [rfor_each] in H. apply rbind_Ok_inv in H.
    destruct H as (D1 & Hstep & H).
    exact (IH _ _ (parse_step_typed _ _ _ HD Hstep) H).
Qed.

Lemma parse_App_Data_typed (m : Element) (D : dict AppValue) :
  _parse_App_Data m = Ok D -> lists_under_multiples D = true.
Proof. apply parse_elements_typed. reflexivity. Qed.

Lemma sections_typed_set (t : string) (a : dict AppValue)
      (app : dict (dict AppValue)) :
  forallb (fun sa => lists_under_multiples (snd sa)) app = true ->
  lists_under_multiples a = true ->
  forallb (fun sa => lists_under_multiples (snd sa)) (dict_set t a app) = true.
Proof.
  rewrite !forallb_forall. intros H Ha x Hx.
  apply In_dict_set in Hx. destruct Hx as [->|Hx]; auto.
Qed.

Lemma init_assets_typed (assets : list Element) :
  forall ams app content ams' app' content',
    forallb (fun sa => lists_under_multiples (snd sa)) app = true ->
    rfor_each assets (ams, app, content) init_asset_step
    = Ok (ams', app', content') ->
    forallb (fun sa => lists_under_multiples (snd sa)) app' = true.
Proof.
  induction assets as [|a assets IH];
    intros ams app content ams' app' content' Ht H.
  - inversion H; subst. exact Ht.
  - cbn [rfor_each] in H. apply rbind_Ok_inv in H.
    destruct H as ([[ams1 app1] content1] & Hstep & H).
    apply init_asset_step_inv in Hstep.
    destruct Hstep as (m & el & t & parsed & _ & _ & _ & Hp & E & _).
    inversion E; subst.
    apply (IH _ _ _ _ _ _ (sections_typed_set _ _ _ Ht
                             (parse_App_Data_typed _ _ Hp)) H).
Qed.

Lemma init_app_typed (path : string) (ADI : Element) (s : VodPackage) :
  __init__ path ADI = Ok s -> app_typed s = true.
Proof.
  intros H. apply init_Ok_inv in H.
  destruct H as (pm & pa & papp & ta & tm & tams & tapp & version & _ & _
                 & Hpp & _ & _ & _ & Htp & Hloop & _).
  unfold app_typed.
  refine (init_assets_typed _ _ _ _ _ _ _ _ Hloop).
  cbn [forallb snd]. rewrite (parse_App_Data_typed _ _ Hpp).
  now rewrite (parse_App_Data_typed _ _ Htp).
Qed.

Lemma set_app_single_typed (ae_type key v : string) (s : VodPackage) :
  app_typed s = true ->
  app_typed (snd (set_app ae_type key (Single v) s)) = true.
Proof.
  unfold set_app, app_typed.
  destruct (dict_get ae_type (D_app s)) as [a|] eqn:E; [|auto].
  cbn [snd D_app set_D_app]. intros H. apply sections_typed_set; [exact H|].
  apply lists_under_multiples_set; [|reflexivity].
  rewrite forallb_forall in H. apply (H (ae_type, a)).
  now apply dict_get_In.
Qed.

Lemma check_files_typed (env : Env) (w : World) :
  app_typed (self w) = true ->
  app_typed (self (snd (check_files env w))) = true.
Proof.
  set (R := fun s s' : VodPackage => app_typed s = true -> app_typed s' = true).
  assert (K : keeps (on_package R) (fun _ => True) (check_files env)).
  { apply frame_check_files; try (intros; exact I); unfold R; auto.
    intros s t k v _. apply set_app_single_typed. }
  exact (proj1 (K w)).
Qed.

Lemma make_update_D_app (s : VodPackage) :
  D_app (snd (make_update s)) = D_app s.
Proof.
  set (R := fun s s' : VodPackage => D_app s' = D_app s).
  assert (R_refl : forall s0, R s0 s0) by reflexivity.
  assert (R_trans : forall s1 s2 s3, R s1 s2 -> R s2 s3 -> R s1 s3)
    by (unfold R; congruence).
  assert (K : keeps R (fun _ => True) make_update).
  { unfold make_update.
    apply keeps_bind; [exact R_trans | now apply keeps_get|]. intros s0.
    apply keeps_bind; [exact R_trans | |intros _].
    - apply keeps_for_each; [exact R_refl | exact R_trans|].
      intros ae_type s1.
      destruct (make_update_step_frame ae_type s1)
        as [(_ & _ & _ & A & _) _].
      split; [exact A | auto].
    - apply keeps_bind; [exact R_trans | |intros _];
        apply keeps_modify; intros s1; now destruct s1. }
  exact (proj1 (K s)).
Qed.

Lemma remove_ae_typed (ae_type : string) (s : VodPackage) :
  app_typed s = true -> app_typed (snd (_remove_ae ae_type s)) = true.
Proof.
  intros H. unfold _remove_ae.
  destruct (dict_del ae_type (D_ams s)) as [ams|]; [|exact H].
  cbn [D_app set_D_ams].
  destruct (dict_del ae_type (D_app s)) as [app|] eqn:E; [|exact H].
  assert (H' : forallb (fun sa => lists_under_multiples (snd sa)) app = true).
  { unfold app_typed in H. rewrite forallb_forall in *. intros x Hx.
    apply H. exact (In_dict_del _ _ _ _ E Hx). }
  cbn [D_content set_D_app set_D_ams].
  destruct (dict_del ae_type (D_content s)); exact H'.
Qed.

Lemma remove_optional_typed (ae_type : string)
      (clear : VodPackage -> VodPackage) (s : VodPackage) :
  (forall s0, D_app (clear s0) = D_app s0) ->
  app_typed s = true ->
  app_typed (snd ((_remove_ae ae_type ;; modify clear) s)) = true.
Proof.
  intros Hc H. pose proof (remove_ae_typed ae_type s H) as K.
  unfold bind. destruct (_remove_ae ae_type s) as [[[]|e] s1]; cbn [snd] in *.
  - unfold modify. cbn [snd]. unfold app_typed in *. now rewrite Hc.
  - exact K.
Qed.

(** X15: in every package that [__init__] builds, a list is held only for an
    App_Data name of [_multiples]; and every method that changes the
    package keeps it so, whether it succeeds or fails. *)
Theorem app_data_kinds_invariant (env : Env) :
  (forall path ADI s, __init__ path ADI = Ok s -> app_typed s = true) /\
  (forall s,
      app_typed s = true ->
      app_typed (snd (make_update s)) = true /\
      app_typed (snd (make_delete s)) = true /\
      app_typed (snd (remove_preview s)) = true /\
      app_typed (snd (remove_poster s)) = true /\
      forall probed,
        app_typed (self (snd (check_files env (mkWorld s probed)))) = true).
Proof.
  split; [exact init_app_typed|]. intros s H.
  split; [|split; [|split; [|split]]].
  - unfold app_typed in *. now rewrite make_update_D_app.
  - destruct (make_delete_runs s) as (d' & -> & _). exact H.
  - apply remove_optional_typed; [reflexivity | exact H].
  - apply remove_optional_typed; [reflexivity | exact H].
  - intros probed. now apply check_files_typed.
Qed.

Lemma app_data_kinds_invariant_witness :
  app_typed sample_package = true /\
  app_typed (self (snd (check_files (sample_env [])
                                    (mkWorld sample_package [])))) = true.
Proof.
  assert (H : app_typed sample_package = true)
    by exact (proj1 (app_data_kinds_invariant (sample_env []))
                    "adi.xml" sample_ADI sample_package eq_refl).
  split; [exact H|].
  apply (proj2 (app_data_kinds_invariant (sample_env [])) sample_package H).
Defined.

(** ** Writing never fails on the kind of a value *)

Lemma raises_rfor_each_In {A B} (P : Exn -> Prop) (xs : list A)
      (body : B -> A -> Result B) :
  (forall acc x, In x xs -> raises P (body acc x)) ->
  forall acc, raises P (rfor_each xs acc body).
Proof.
  induction xs as [|x xs IH]; intros H acc; cbn [rfor_each].
  - apply raises_Ok.
  - apply raises_rbind; [apply H; now left|].
    intros a. apply IH. intros acc' y Hy. apply H. now right.
Qed.

Section BuildTyped.

Variable env : Env.
Variable s : VodPackage.
Hypothesis s_typed : app_typed s = true.

Lemma raises_write_element_Ok (key v : string) (parent : Element) :
  raises is_KeyError (write_App_Data_element s key (Ok v) parent).
Proof.
  unfold write_App_Data_element.
  apply raises_rbind; [apply raises_subscript; red; eauto | intros package].
  apply raises_rbind; [apply raises_subscript; red; eauto | intros product].
  apply raises_rbind; [apply raises_Ok | intros v']. apply raises_Ok.
Qed.

Lemma raises_write_item_typed (parent : Element) (item : string * AppValue) :
  item_typed [] item = true ->
  raises is_KeyError (write_App_Data_item env s parent item).
Proof.
  destruct item as [key value]. unfold item_typed, write_App_Data_item.
  cbn [fst snd mem_string orb]. intros Ht.
  destruct (mem_string key (param_skip env)); [apply raises_Ok|].
  destruct (mem_string key _multiples).
  - apply raises_rfor_each. intros acc v. apply raises_write_element_Ok.
  - destruct value as [v|vs]; [|discriminate].
    apply raises_write_element_Ok.
Qed.

Lemma raises_write_Metadata_typed (ae_type : string) :
  raises is_KeyError (write_Metadata env s ae_type).
Proof.
  unfold write_Metadata, _write_App_Data.
  apply raises_rbind; [apply raises_subscript; red; eauto | intros attrs].
  unfold subscript.
  destruct (dict_get ae_type (D_app s)) as [app|] eqn:E;
    [|intros e H; inversion H; red; eauto].
  cbn [rbind]. apply raises_rfor_each_In. intros acc x Hx.
  apply raises_write_item_typed.
  apply (proj1 (sorted_items_In _ _)) in Hx.
  unfold app_typed in s_typed. rewrite forallb_forall in s_typed.
  specialize (s_typed (ae_type, app) (dict_get_In _ _ _ E)).
  cbn [snd] in s_typed. unfold lists_under_multiples in s_typed.
  rewrite forallb_forall in s_typed. now apply s_typed.
Qed.

Lemma raises_build_ADI_typed : raises is_KeyError (build_ADI env s).
Proof.
  unfold build_ADI.
  apply raises_rbind; [apply raises_write_Metadata_typed | intros pm].
  apply raises_rbind; [apply raises_write_Metadata_typed | intros tm].
  apply raises_rbind; [|intros ta; apply raises_Ok].
  apply raises_rfor_each. intros acc ae_type. unfold write_asset_element.
  destruct (negb (dict_mem ae_type (D_ams s))); [apply raises_Ok|].
  apply raises_rbind; [apply raises_write_Metadata_typed | intros m].
  apply raises_Ok.
Qed.

End BuildTyped.

(** X16: on a package in which a list is held only for a name of
    [_multiples], [write_xml] never fails on the kind of a value: whatever
    it raises, with or without a rescan, is neither TypeError nor
    AttributeError. *)
Theorem write_xml_never_TypeError (env : Env) (s : VodPackage)
        (rewrite : bool) (probed : list Probe) (e : Exn) :
  app_typed s = true ->
  fst (write_xml env rewrite (mkWorld s probed)) = Raise e ->
  e <> TypeError /\ e <> AttributeError.
Proof.
  intros Ht. unfold write_xml. rewrite bind_get. cbn [self].
  destruct (dict_mem "movie" (D_ams s)); cbn [negb].
  - destruct rewrite.
    + pose proof (check_files_typed env (mkWorld s probed) Ht) as Ht1.
      destruct (keeps_check_files_frame env (mkWorld s probed)) as [_ Hexn].
      unfold bind at 1.
      destruct (check_files env (mkWorld s probed)) as [[[]|e1] w1];
        cbn [fst snd] in *.
      * rewrite bind_get. unfold lift. cbn [fst]. intros H.
        destruct (raises_build_ADI_typed env (self w1) Ht1 e H) as (k & ->).
        repeat split; discriminate.
      * intros H. inversion H; subst e1. specialize (Hexn e eq_refl).
        repeat split; intros ->; exact Hexn.
    + unfold bind at 1, ret at 1. rewrite bind_get. unfold lift.
      cbn [fst self]. intros H.
      destruct (raises_build_ADI_typed env s Ht e H) as (k & ->).
      repeat split; discriminate.
  - unfold raise. cbn [fst]. intros H. inversion H; subst.
    repeat split; discriminate.
Qed.

Lemma write_xml_never_TypeError_witness :
  let s := snd (make_update sample_package) in
  app_typed s = true /\
  fst (write_xml (sample_env []) true (mkWorld s []))
  = Raise (UnboundLocalError "ae_path") /\
  UnboundLocalError "ae_path" <> TypeError.
Proof.
  cbv zeta. split; [reflexivity|]. split; [reflexivity|].
  apply (write_xml_never_TypeError
           (sample_env []) (snd (make_update sample_package)) true []
           (UnboundLocalError "ae_path")); reflexivity.
Defined.

(** ** What a successful video scan has stored *)

Lemma lift_Ok_inv {S A} (r : Result A) (s s' : S) (a : A) :
  lift r s = (Ok a, s') -> r = Ok a /\ s' = s.
Proof. unfold lift. intros H. inversion H. auto. Qed.

Lemma set_app_Ok_facts (s s' : VodPackage) (ae_type key : string)
      (value : AppValue) :
  set_app ae_type key value s = (Ok tt, s') ->
  app_value ae_type key s' = Some value /\
  (forall t k, k <> key -> app_value t k s' = app_value t k s) /\
  (forall t k, t <> ae_type -> app_value t k s' = app_value t k s).
Proof.
  intros H. destruct (set_app_Ok_inv _ _ _ _ _ H) as [E V].
  split; [exact V|]. subst s'. split; intros t k Hk.
  - now apply app_value_set_app_other_key.
  - now apply app_value_set_app_other_section.
Qed.

Lemma scan_codec_other_keys (ae_type commercial_name format_profile : string)
      (s : VodPackage) (t k : string) :
  k <> "Codec" ->
  app_value t k (snd (scan_codec ae_type commercial_name format_profile s))
  = app_value t k s.
Proof.
  intros Hk. unfold scan_codec.
  destruct (String.eqb commercial_name "MPEG-2 Video");
    [now apply app_value_set_app_other_key|].
  destruct (String.eqb commercial_name "AVC").
  - unfold bind, lift. destruct (first_char format_profile); [|reflexivity].
    now apply app_value_set_app_other_key.
  - rewrite bind_get. unfold bind, lift, raise.
    now destruct (subscript (D_content s) ae_type).
Qed.

(** The first part of [_scan_video]: the run time. *)
Lemma scan_run_time_Ok_inv (ae_type : string) (h m sec : string)
      (s s1 : VodPackage) :
  (if String.eqb ae_type "movie" then
     set_app "title" "Run_Time" (Single (h ++ ":" ++ m ++ ":" ++ sec)) ;;
     set_app "title" "Display_Run_Time" (Single (h ++ ":" ++ m))
   else if String.eqb ae_type "preview" then
     set_app "preview" "Run_Time" (Single (h ++ ":" ++ m ++ ":" ++ sec))
   else ret tt) s = (Ok tt, s1) ->
  (ae_type = "movie" ->
   app_value "title" "Run_Time" s1 = Some (Single (h ++ ":" ++ m ++ ":" ++ sec))
   /\ app_value "title" "Display_Run_Time" s1
      = Some (Single (h ++ ":" ++ m))) /\
  (ae_type = "preview" ->
   app_value "preview" "Run_Time" s1
   = Some (Single (h ++ ":" ++ m ++ ":" ++ sec))) /\
  (ae_type <> "movie" -> ae_type <> "preview" -> s1 = s).
Proof.
  destruct (String.eqb_spec ae_type "movie") as [->|N1].
  - intros H. apply bind_Ok_inv in H. destruct H as ([] & s0 & H1 & H2).
    apply set_app_Ok_facts in H1, H2.
    destruct H1 as (V1 & _). destruct H2 as (V2 & O2 & _).
    split; [|split; [discriminate | congruence]].
    intros _. split; [|exact V2]. rewrite O2 by discriminate. exact V1.
  - destruct (String.eqb_spec ae_type "preview") as [->|N2].
    + intros H. apply set_app_Ok_facts in H. destruct H as (V & _).
      split; [discriminate|]. split; [auto | congruence].
    + intros H. inversion H; subst.
      split; [congruence|]. split; [congruence | auto].
Qed.

(** Everything that a successful [scan_video_info] has read and stored. *)
Lemma scan_video_info_Ok_inv (env : Env) (ae_type : string)
      (mpeg_info : dict (dict string)) (s s' : VodPackage) :
  scan_video_info env ae_type mpeg_info s = (Ok tt, s') ->
  exists general video audio duration d s1 channels height scan_type
         initial frame_rate fr bit_rate br,
    dict_get "General" mpeg_info = Some general /\
    dict_get "Video" mpeg_info = Some video /\
    dict_get "Audio" mpeg_info = Some audio /\
    dict_get "Duration" general = Some duration /\
    round_float_div_1000 env duration = Some d /\
    (if String.eqb ae_type "movie" then
       set_app "title" "Run_Time"
               (Single (run_time (d / 3600) (d mod 3600 / 60)
                                 (d mod 3600 mod 60))) ;;
       set_app "title" "Display_Run_Time"
               (Single (display_run_time (d / 3600) (d mod 3600 / 60)))
     else if String.eqb ae_type "preview" then
       set_app "preview" "Run_Time"
               (Single (run_time (d / 3600) (d mod 3600 / 60)
                                 (d mod 3600 mod 60)))
     else ret tt) s = (Ok tt, s1) /\
    (forall t k, In k ["Run_Time"; "Display_Run_Time"] ->
                 app_value t k s' = app_value t k s1) /\
    channels_of audio = Some channels /\
    app_value ae_type "Audio_Type" s'
    = Some (Single (if 1 <? channels then "Stereo" else "Mono")) /\
    dict_get "Height" video = Some height /\
    dict_get "Scan type" video = Some scan_type /\
    first_char scan_type = Ok initial /\
    app_value ae_type "Resolution" s'
    = Some (Single (height ++ lower initial)) /\
    dict_get "Frame rate" video = Some frame_rate /\
    round_float env frame_rate = Some fr /\
    app_value ae_type "Frame_Rate" s' = Some (Single (str fr)) /\
    dict_get "Overall bit rate" general = Some bit_rate /\
    round_float_div_1000 env bit_rate = Some br /\
    app_value ae_type "Bit_Rate" s' = Some (Single (str br)).
Proof.
  unfold scan_video_info. intros H.
  apply bind_Ok_inv in H. destruct H as (general & ? & E & H).
  apply lift_Ok_inv in E. destruct E as [Eg ->].
  apply subscript_Ok_inv in Eg.
  apply bind_Ok_inv in H. destruct H as (duration & ? & E & H).
  apply lift_Ok_inv in E. destruct E as [Ed ->].
  apply subscript_Ok_inv in Ed.
  apply bind_Ok_inv in H. destruct H as (d & ? & E & H).
  apply lift_Ok_inv in E. destruct E as [Er ->].
  assert (Er' : round_float_div_1000 env duration = Some d)
    by (destruct (round_float_div_1000 env duration);
        [now inversion Er | discriminate]).
  clear Er.
  apply bind_Ok_inv in H. destruct H as ([] & s1 & Hrun & H).
  apply bind_Ok_inv in H. destruct H as (video & ? & E & H).
  apply lift_Ok_inv in E. destruct E as [Ev ->].
  apply subscript_Ok_inv in Ev.
  apply bind_Ok_inv in H. destruct H as (cname & ? & E & H).
  apply lift_Ok_inv in E. destruct E as [_ ->].
  apply bind_Ok_inv in H. destruct H as (video2 & ? & E & H).
  apply lift_Ok_inv in E. destruct E as [Ev2 ->].
  apply subscript_Ok_inv in Ev2. rewrite Ev in Ev2. inversion Ev2; subst video2.
  clear Ev2.
  apply bind_Ok_inv in H. destruct H as (profile & ? & E & H).
  apply lift_Ok_inv in E. destruct E as [_ ->].
  apply bind_Ok_inv in H. destruct H as ([] & s2 & Hcodec & H).
  assert (O2 : forall t k, k <> "Codec" ->
                           app_value t k s2 = app_value t k s1).
  { intros t k Hk.
    pose proof (scan_codec_other_keys ae_type cname profile s1 t k Hk) as K.
    now rewrite Hcodec in K. }
  clear Hcodec.
  apply bind_Ok_inv in H. destruct H as (audio & ? & E & H).
  apply lift_Ok_inv in E. destruct E as [Ea ->].
  apply subscript_Ok_inv in Ea.
  apply bind_Ok_inv in H. destruct H as (channels & ? & E & H).
  apply lift_Ok_inv in E. destruct E as [Ec ->].
  assert (Ec' : channels_of audio = Some channels).
  { unfold channels_of.
    destruct (dict_get "Channel(s)" audio) as [c|]; [|now inversion Ec].
    now apply int_limited_Ok_inv in Ec. }
  clear Ec.
  apply bind_Ok_inv in H. destruct H as ([] & s3 & Haudio & H).
  apply set_app_Ok_facts in Haudio. destruct Haudio as (V3 & O3 & _).
  apply bind_Ok_inv in H. destruct H as (video3 & ? & E & H).
  apply lift_Ok_inv in E. destruct E as [Ev3 ->].
  apply subscript_Ok_inv in Ev3. rewrite Ev in Ev3. inversion Ev3; subst video3.
  clear Ev3.
  apply bind_Ok_inv in H. destruct H as (height & ? & E & H).
  apply lift_Ok_inv in E. destruct E as [Eh ->].
  apply subscript_Ok_inv in Eh.
  apply bind_Ok_inv in H. destruct H as (video4 & ? & E & H).
  apply lift_Ok_inv in E. destruct E as [Ev4 ->].
  apply subscript_Ok_inv in Ev4. rewrite Ev in Ev4. inversion Ev4; subst video4.
  clear Ev4.
  apply bind_Ok_inv in H. destruct H as (scan_type & ? & E & H).
  apply lift_Ok_inv in E. destruct E as [Est ->].
  apply subscript_Ok_inv in Est.
  apply bind_Ok_inv in H. destruct H as (initial & ? & E & H).
  apply lift_Ok_inv in E. destruct E as [Ei ->].
  apply bind_Ok_inv in H. destruct H as ([] & s4 & Hres & H).
  apply set_app_Ok_facts in Hres. destruct Hres as (V4 & O4 & _).
  apply bind_Ok_inv in H. destruct H as (video5 & ? & E & H).
  apply lift_Ok_inv in E. destruct E as [Ev5 ->].
  apply subscript_Ok_inv in Ev5. rewrite Ev in Ev5. inversion Ev5; subst video5.
  clear Ev5.
  apply bind_Ok_inv in H. destruct H as (frame_rate & ? & E & H).
  apply lift_Ok_inv in E. destruct E as [Efr ->].
  apply subscript_Ok_inv in Efr.
  apply bind_Ok_inv in H. destruct H as (fr & ? & E & H).
  apply lift_Ok_inv in E. destruct E as [Efr2 ->].
  assert (Efr' : round_float env frame_rate = Some fr)
    by (destruct (round_float env frame_rate);
        [now inversion Efr2 | discriminate]).
  clear Efr2.
  apply bind_Ok_inv in H. destruct H as ([] & s5 & Hfr & H).
  apply set_app_Ok_facts in Hfr. destruct Hfr as (V5 & O5 & _).
  apply bind_Ok_inv in H. destruct H as (general2 & ? & E & H).
  apply lift_Ok_inv in E. destruct E as [Eg2 ->].
  apply subscript_Ok_inv in Eg2. rewrite Eg in Eg2.
  inversion Eg2; subst general2. clear Eg2.
  apply bind_Ok_inv in H. destruct H as (bit_rate & ? & E & H).
  apply lift_Ok_inv in E. destruct E as [Ebr ->].
  apply subscript_Ok_inv in Ebr.
  apply bind_Ok_inv in H. destruct H as (br & ? & E & H).
  apply lift_Ok_inv in E. destruct E as [Ebr2 ->].
  assert (Ebr' : round_float_div_1000 env bit_rate = Some br)
    by (destruct (round_float_div_1000 env bit_rate);
        [now inversion Ebr2 | discriminate]).
  clear Ebr2.
  apply set_app_Ok_facts in H. destruct H as (V6 & O6 & _).
  exists general, video, audio, duration, d, s1, channels, height, scan_type,
    initial, frame_rate, fr, bit_rate, br.
  repeat (split; [first [assumption | reflexivity]|]).
  split.
  { intros t k [<-|[<-|[]]];
      rewrite O6, O5, O4, O3, O2 by discriminate; reflexivity. }
  split; [exact Ec'|].
  split; [rewrite O6, O5, O4 by discriminate; exact V3|].
  repeat (split; [first [assumption | reflexivity]|]).
  split; [rewrite O6, O5 by discriminate; exact V4|].
  repeat (split; [first [assumption | reflexivity]|]).
  split; [rewrite O6 by discriminate; exact V5|].
  repeat (split; [first [assumption | reflexivity]|]).
  exact V6.
Qed.

(** [format(n, "02")] reads back as [n]. *)
Lemma int_opt_format02 (n : Z) : int_opt (format02 n) = Some n.
Proof.
  unfold format02. destruct ((0 <=? n) && (n <? 10)) eqn:E;
    [|apply int_opt_str].
  apply andb_true_iff in E. destruct E as [E1 E2].
  apply Z.leb_le in E1. apply Z.ltb_lt in E2.
  assert (H : exists k : nat, (k < 10)%nat /\ n = Z.of_nat k)
    by (exists (Z.to_nat n); lia).
  destruct H as (k & Hk & ->).
  do 10 (destruct k as [|k]; [vm_compute; reflexivity|]).
  lia.
Qed.

(** X17: the run time that a successful video scan stores.  The duration in
    seconds [d] (the rounded thousandth of the probe's Duration) is split
    into hours, minutes below 60 and seconds below 60, each printed with two
    digits at least and reading back as the number.  For the movie the
    "HH:MM:SS" and "HH:MM" strings go to the TITLE section (Run_Time and
    Display_Run_Time); for the preview "HH:MM:SS" goes to the preview
    section; for any other asset type no run time is stored. *)
Theorem scan_video_run_time (env : Env) (ae_type : string)
        (mpeg_info : dict (dict string)) (s s' : VodPackage) :
  scan_video_info env ae_type mpeg_info s = (Ok tt, s') ->
  exists general duration d h m sec,
    dict_get "General" mpeg_info = Some general /\
    dict_get "Duration" general = Some duration /\
    round_float_div_1000 env duration = Some d /\
    d = 3600 * h + 60 * m + sec /\ 0 <= m < 60 /\ 0 <= sec < 60 /\
    int (format02 h) = Ok h /\ int (format02 m) = Ok m /\
    int (format02 sec) = Ok sec /\
    (ae_type = "movie" ->
     app_value "title" "Run_Time" s' = Some (Single (run_time h m sec)) /\
     app_value "title" "Display_Run_Time" s'
     = Some (Single (display_run_time h m))) /\
    (ae_type = "preview" ->
     app_value "preview" "Run_Time" s' = Some (Single (run_time h m sec))) /\
    (ae_type <> "movie" -> ae_type <> "preview" ->
     forall t k, In k ["Run_Time"; "Display_Run_Time"] ->
                 app_value t k s' = app_value t k s).
Proof.
  intros H. apply scan_video_info_Ok_inv in H.
  destruct H as (general & video & audio & duration & d & s1 & channels
                 & height & scan_type & initial & frame_rate & fr & bit_rate
                 & br & Eg & _ & _ & Ed & Er & Hrun & Hkeep & _).
  exists general, duration, d, (d / 3600), (d mod 3600 / 60),
    (d mod 3600 mod 60).
  apply scan_run_time_Ok_inv in Hrun. destruct Hrun as (Rm & Rp & Ro).
  repeat (split; [first [assumption | reflexivity]|]).
  split.
  { pose proof (Z.div_mod d 3600 ltac:(lia)).
    pose proof (Z.div_mod (d mod 3600) 60 ltac:(lia)). lia. }
  split.
  { pose proof (Z.mod_pos_bound d 3600 ltac:(lia)).
    split; [apply Z.div_pos; lia | apply Z.div_lt_upper_bound; lia]. }
  split; [apply Z.mod_pos_bound; lia|].
  unfold int. rewrite !int_opt_format02.
  repeat (split; [reflexivity|]).
  split; [|split].
  - intros E. destruct (Rm E) as [V1 V2].
    rewrite !Hkeep by (cbn; tauto). auto.
  - intros E. rewrite Hkeep by (cbn; tauto). auto.
  - intros N1 N2 t k Hk. rewrite Hkeep by exact Hk. now rewrite (Ro N1 N2).
Qed.

Lemma scan_video_run_time_witness :
  let r := scan_video_info (sample_env []) "movie"
                           (sample_mpeg_info "MPEG-2 Video" "Main@Main")
                           sample_package in
  fst r = Ok tt /\
  app_value "title" "Run_Time" (snd r) = Some (Single "01:01:01") /\
  app_value "title" "Display_Run_Time" (snd r) = Some (Single "01:01").
Proof.
  cbv zeta.
  assert (E : scan_video_info (sample_env []) "movie"
                              (sample_mpeg_info "MPEG-2 Video" "Main@Main")
                              sample_package
              = (Ok tt,
                 snd (scan_video_info
                        (sample_env []) "movie"
                        (sample_mpeg_info "MPEG-2 Video" "Main@Main")
                        sample_package)))
    by (vm_compute; reflexivity).
  split; [now rewrite E|].
  destruct (scan_video_run_time _ _ _ _ _ E)
    as (general & duration & d & h & m & sec & Eg & Ed & Er & Hd & Hm & Hs
        & _ & _ & _ & Hmovie & _).
  vm_compute in Eg. inversion Eg; subst general.
  vm_compute in Ed. inversion Ed; subst duration.
  vm_compute in Er. inversion Er; subst d.
  assert (h = 1 /\ m = 1 /\ sec = 1) as (-> & -> & ->) by lia.
  exact (Hmovie eq_refl).
Defined.

(** X18: what else a successful video scan stores in the section of the
    asset: Audio_Type is "Stereo" for more than one channel and "Mono"
    otherwise, also when the probe gives no channel count; Resolution is the
    height followed by the lower-cased first letter of the scan type;
    Frame_Rate is the rounded frame rate and Bit_Rate the rounded thousandth
    of the overall bit rate, both in decimal. *)
Theorem scan_video_stores (env : Env) (ae_type : string)
        (mpeg_info : dict (dict string)) (s s' : VodPackage) :
  scan_video_info env ae_type mpeg_info s = (Ok tt, s') ->
  exists general video audio channels height scan_type initial
         frame_rate fr bit_rate br,
    dict_get "General" mpeg_info = Some general /\
    dict_get "Video" mpeg_info = Some video /\
    dict_get "Audio" mpeg_info = Some audio /\
    channels_of audio = Some channels /\
    app_value ae_type "Audio_Type" s'
    = Some (Single (if 1 <? channels then "Stereo" else "Mono")) /\
    dict_get "Height" video = Some height /\
    dict_get "Scan type" video = Some scan_type /\
    first_char scan_type = Ok initial /\
    app_value ae_type "Resolution" s'
    = Some (Single (height ++ lower initial)) /\
    dict_get "Frame rate" video = Some frame_rate /\
    round_float env frame_rate = Some fr /\
    app_value ae_type "Frame_Rate" s' = Some (Single (str fr)) /\
    dict_get "Overall bit rate" general = Some bit_rate /\
    round_float_div_1000 env bit_rate = Some br /\
    app_value ae_type "Bit_Rate" s' = Some (Single (str br)).
Proof.
  intros H. apply scan_video_info_Ok_inv in H.
  destruct H as (general & video & audio & duration & d & s1 & channels
                 & height & scan_type & initial & frame_rate & fr & bit_rate
                 & br & Eg & Ev & Ea & _ & _ & _ & _ & H).
  exists general, video, audio, channels, height, scan_type, initial,
    frame_rate, fr, bit_rate, br.
  repeat (split; [assumption|]). exact H.
Qed.

Lemma scan_video_stores_witness :
  let r := scan_video_info (sample_env []) "movie"
                           (sample_mpeg_info "MPEG-2 Video" "Main@Main")
                           sample_package in
  fst r = Ok tt /\
  app_value "movie" "Audio_Type" (snd r) = Some (Single "Stereo") /\
  app_value "movie" "Resolution" (snd r) = Some (Single "1080p").
Proof.
  cbv zeta.
  assert (E : scan_video_info (sample_env []) "movie"
                              (sample_mpeg_info "MPEG-2 Video" "Main@Main")
                              sample_package
              = (Ok tt,
                 snd (scan_video_info
                        (sample_env []) "movie"
                        (sample_mpeg_info "MPEG-2 Video" "Main@Main")
                        sample_package)))
    by (vm_compute; reflexivity).
  split; [now rewrite E|].
  destruct (scan_video_stores _ _ _ _ _ E)
    as (general & video & audio & channels & height & scan_type & initial
        & frame_rate & fr & bit_rate & br & _ & Ev & Ea & Ec & Vaudio & Eh
        & Est & Ei & Vres & _).
  vm_compute in Ea. inversion Ea; subst audio.
  vm_compute in Ec. inversion Ec; subst channels.
  vm_compute in Ev. inversion Ev; subst video.
  vm_compute in Eh. inversion Eh; subst height.
  vm_compute in Est. inversion Est; subst scan_type.
  vm_compute in Ei. inversion Ei; subst initial.
  split; [exact Vaudio | exact Vres].
Defined.

(** ** The tree of a successful write *)

Lemma write_Metadata_Ok_inv (env : Env) (s : VodPackage) (ae_type : string)
      (out : Element) :
  (forall sec attrs, dict_get sec (D_ams s) = Some attrs ->
                     dict_wf attrs = true) ->
  write_Metadata env s ae_type = Ok out ->
  exists attrs app,
    dict_get ae_type (D_ams s) = Some attrs /\
    dict_get ae_type (D_app s) = Some app /\
    out = built_Metadata (param_skip env) (product_or_empty s) attrs app /\
    (emitted_pairs (param_skip env) app <> [] -> package_product s <> None) /\
    forallb (item_typed (param_skip env)) (sorted_items app) = true.
Proof.
  intros Hwf H. unfold write_Metadata in H.
  apply rbind_Ok_inv in H. destruct H as (attrs & Ha & H).
  apply subscript_Ok_inv in Ha.
  apply write_App_Data_Ok_inv in H.
  destruct H as (app & Happ & Eout & Hprod & Ht).
  exists attrs, app. repeat (split; [assumption|]).
  split; [|auto]. rewrite Eout, (write_AMS_sorted attrs (Hwf _ _ Ha)).
  reflexivity.
Qed.

Lemma write_asset_element_Ok_inv (env : Env) (s : VodPackage)
      (ae_type : string) (title_Asset out : Element) :
  (forall sec attrs, dict_get sec (D_ams s) = Some attrs ->
                     dict_wf attrs = true) ->
  write_asset_element env s title_Asset ae_type = Ok out ->
  out = add_children title_Asset (section_built (param_skip env) s ae_type) /\
  length (section_built (param_skip env) s ae_type)
  = (if dict_mem ae_type (D_ams s) then 1 else 0)%nat.
Proof.
  intros Hwf. unfold write_asset_element, section_built, dict_mem.
  destruct (dict_get ae_type (D_ams s)) as [attrs|] eqn:Ea; cbn [negb].
  - intros H. apply rbind_Ok_inv in H. destruct H as (m & Hm & H).
    apply (write_Metadata_Ok_inv env s ae_type m Hwf) in Hm.
    destruct Hm as (attrs' & app & Ea' & Happ & -> & _).
    rewrite Ea in Ea'. inversion Ea'; subst attrs'. rewrite Happ.
    split; [|reflexivity]. inversion H; subst out.
    destruct title_Asset. unfold built_Asset.
    now destruct (dict_get ae_type (D_content s)).
  - intros H. inversion H; subst. now rewrite add_children_nil.
Qed.

Lemma build_ADI_Ok_inv (env : Env) (s : VodPackage) (out : Element) :
  (forall sec attrs, dict_get sec (D_ams s) = Some attrs ->
                     dict_wf attrs = true) ->
  build_ADI env s = Ok out ->
  exists pattrs papp tattrs tapp,
    dict_get "package" (D_ams s) = Some pattrs /\
    dict_get "package" (D_app s) = Some papp /\
    dict_get "title" (D_ams s) = Some tattrs /\
    dict_get "title" (D_app s) = Some tapp /\
    out = written_tree (param_skip env) s pattrs tattrs papp tapp /\
    forall t, In t ["movie"; "preview"; "poster"] ->
              length (section_built (param_skip env) s t)
              = (if dict_mem t (D_ams s) then 1 else 0)%nat.
Proof.
  intros Hwf H. unfold build_ADI in H.
  apply rbind_Ok_inv in H. destruct H as (pm & Hpm & H).
  apply (write_Metadata_Ok_inv env s _ _ Hwf) in Hpm.
  destruct Hpm as (pattrs & papp & Ea & Happ & -> & _).
  apply rbind_Ok_inv in H. destruct H as (tm & Htm & H).
  apply (write_Metadata_Ok_inv env s _ _ Hwf) in Htm.
  destruct Htm as (tattrs & tapp & Eta & Htapp & -> & _).
  apply rbind_Ok_inv in H. destruct H as (ta & Hta & H).
  cbn [rfor_each] in Hta.
  apply rbind_Ok_inv in Hta. destruct Hta as (ta1 & H1 & Hta).
  apply (write_asset_element_Ok_inv env s _ _ _ Hwf) in H1.
  destruct H1 as [-> L1].
  apply rbind_Ok_inv in Hta. destruct Hta as (ta2 & H2 & Hta).
  apply (write_asset_element_Ok_inv env s _ _ _ Hwf) in H2.
  destruct H2 as [-> L2].
  apply rbind_Ok_inv in Hta. destruct Hta as (ta3 & H3 & Hta).
  apply (write_asset_element_Ok_inv env s _ _ _ Hwf) in H3.
  destruct H3 as [-> L3].
  inversion Hta; subst ta. inversion H; subst out.
  exists pattrs, papp, tattrs, tapp. repeat (split; [assumption|]).
  split.
  - unfold written_tree. now rewrite <- app_assoc.
  - intros t [<-|[<-|[<-|[]]]]; assumption.
Qed.

(** X19: whenever [write_xml] without rescan succeeds, it has left the
    package and the probe log alone, the movie section exists, and the tree
    is exactly this: an ADI element with the package's Metadata and one
    title Asset; the title Asset has the title's Metadata and then one
    Asset element for each of movie, preview and poster that is in [D_ams],
    in this order.  A Metadata element is an AMS element with the section's
    attributes in sorted order, followed by the App_Data elements of the
    section.  A section of [D_ams] under any other name is not written. *)
Theorem write_xml_writes_exactly (env : Env) (s : VodPackage)
        (probed : list Probe) (out : Element) (w' : World) :
  (forall sec attrs, dict_get sec (D_ams s) = Some attrs ->
                     dict_wf attrs = true) ->
  write_xml env false (mkWorld s probed) = (Ok out, w') ->
  w' = mkWorld s probed /\ dict_mem "movie" (D_ams s) = true /\
  exists pattrs papp tattrs tapp,
    dict_get "package" (D_ams s) = Some pattrs /\
    dict_get "package" (D_app s) = Some papp /\
    dict_get "title" (D_ams s) = Some tattrs /\
    dict_get "title" (D_app s) = Some tapp /\
    out = written_tree (param_skip env) s pattrs tattrs papp tapp /\
    forall t, In t ["movie"; "preview"; "poster"] ->
              length (section_built (param_skip env) s t)
              = (if dict_mem t (D_ams s) then 1 else 0)%nat.
Proof.
  intros Hwf H. unfold write_xml in H. rewrite bind_get in H. cbn [self] in H.
  destruct (dict_mem "movie" (D_ams s)); [|discriminate H].
  cbn [negb] in H. unfold bind at 1, ret at 1 in H. rewrite bind_get in H.
  unfold lift in H. cbn [self] in H.
  destruct (build_ADI env s) as [out'|] eqn:E; [|discriminate H].
  inversion H; subst. split; [reflexivity|]. split; [reflexivity|].
  exact (build_ADI_Ok_inv env s out Hwf E).
Qed.


Lemma write_xml_writes_exactly_witness :
  let env := sample_env [] in
  let s := sample_package in
  let out := match fst (write_xml env false (mkWorld s [])) with
             | Ok out => out
             | Raise _ => Elem "" [] []
             end in
  (forall sec attrs, dict_get sec (D_ams s) = Some attrs ->
                     dict_wf attrs = true) /\
  write_xml env false (mkWorld s []) = (Ok out, mkWorld s []) /\
  exists pattrs papp tattrs tapp,
    out = written_tree (param_skip env) s pattrs tattrs papp tapp.
Proof.
  cbv zeta.
  assert (Hwf : forall sec attrs,
             dict_get sec (D_ams sample_package) = Some attrs ->
             dict_wf attrs = true).
  { intros sec attrs H. apply dict_get_In in H.
    assert (F : forallb (fun p => dict_wf (snd p)) (D_ams sample_package)
                = true) by (vm_compute; reflexivity).
    rewrite forallb_forall in F. exact (F _ H). }
  split; [exact Hwf|].
  match goal with
  | |- ?l = ?r /\ _ => assert (E : l = r) by (vm_compute; reflexivity)
  end.
  split; [exact E|].
  destruct (write_xml_writes_exactly _ _ _ _ _ Hwf E)
    as (_ & _ & pattrs & papp & tattrs & tapp & _ & _ & _ & _ & Eout & _).
  exists pattrs, papp, tattrs, tapp. exact Eout.
Defined.

(** ** The order of the dictionaries does not show *)

Lemma leb_antisym (a b : string) :
  String.leb a b = true -> String.leb b a = true -> a = b.
Proof.
  unfold String.leb. rewrite (String.compare_antisym b a).
  destruct (String.compare a b) eqn:E; cbn; try discriminate.
  intros _ _. now apply String.compare_eq_iff.
Qed.

Lemma sorted_unique {V} (l1 : list (string * V)) :
  forall l2,
    StronglySorted key_le l1 -> StronglySorted key_le l2 ->
    Permutation l1 l2 -> NoDup (map fst l1) -> l1 = l2.
Proof.
  induction l1 as [|x l1 IH]; intros l2 S1 S2 HP ND.
  - apply Permutation_nil in HP. now subst.
  - destruct l2 as [|y l2];
      [apply Permutation_sym, Permutation_nil in HP; discriminate|].
    inversion S1 as [|? ? S1' F1]; subst.
    inversion S2 as [|? ? S2' F2]; subst.
    cbn [map] in ND. inversion ND as [|? ? Hn ND']; subst.
    assert (Exy : x = y).
    { assert (Hx : In x (y :: l2))
        by (eapply Permutation_in; [exact HP | now left]).
      assert (Hy : In y (x :: l1))
        by (eapply Permutation_in; [symmetry; exact HP | now left]).
      destruct Hx as [Hx|Hx]; [now symmetry|].
      destruct Hy as [Hy|Hy]; [assumption|].
      rewrite Forall_forall in F1, F2.
      pose proof (leb_antisym _ _ (F1 y Hy) (F2 x Hx)) as Ek.
      exfalso. apply Hn. rewrite Ek. now apply in_map. }
    subst y. f_equal. apply IH; try assumption.
    now apply Permutation_cons_inv in HP.
Qed.

Lemma sorted_items_canonical {V} (d d' : list (string * V)) :
  NoDup (map fst d) -> Permutation d d' -> sorted_items d = sorted_items d'.
Proof.
  intros ND HP. apply sorted_unique.
  - apply sorted_items_sorted.
  - apply sorted_items_sorted.
  - rewrite !sorted_items_perm. exact HP.
  - now apply sorted_items_keys_NoDup.
Qed.

Lemma dict_wf_perm {V} (d d' : dict V) :
  Permutation d' d -> dict_wf d = true -> dict_wf d' = true.
Proof.
  unfold dict_wf. rewrite !nodup_keys_NoDup. intros HP.
  apply Permutation_NoDup. apply Permutation_map. now symmetry.
Qed.

Lemma dict_get_perm {V} (d d' : dict V) (k : string) :
  Permutation d' d -> dict_wf d = true -> dict_get k d' = dict_get k d.
Proof.
  intros HP Hwf. pose proof (dict_wf_perm d d' HP Hwf) as Hwf'.
  apply nodup_keys_NoDup in Hwf, Hwf'.
  destruct (dict_get k d) as [v|] eqn:E.
  - apply In_dict_get; [exact Hwf'|].
    eapply Permutation_in; [symmetry; exact HP|]. now apply dict_get_In.
  - apply dict_get_None. apply dict_get_None in E. intros H. apply E.
    unfold dict_keys in *.
    eapply Permutation_in; [apply Permutation_map; exact HP | exact H].
Qed.

Lemma rfor_each_ext {A B} (xs : list A) (f g : B -> A -> Result B) :
  (forall acc x, f acc x = g acc x) ->
  forall acc, rfor_each xs acc f = rfor_each xs acc g.
Proof.
  intros H. induction xs as [|x xs IH]; intros acc; cbn [rfor_each];
    [reflexivity|].
  rewrite H. destruct (g acc x); cbn [rbind]; auto.
Qed.

Section OrderIndependent.

Variable env : Env.
Variables s s' : VodPackage.
Hypothesis s_wf : sections_wf s.
Hypothesis s_same : same_up_to_order s s'.

Lemma write_element_order (key : string) (value : Result string)
      (parent : Element) :
  write_App_Data_element s' key value parent
  = write_App_Data_element s key value parent.
Proof.
  unfold write_App_Data_element, subscript.
  destruct s_same as (H & _). specialize (H "package").
  destruct (dict_get "package" (D_ams s')) as [p'|],
      (dict_get "package" (D_ams s)) as [p|] eqn:E; cbn in H;
    try contradiction; [|reflexivity].
  cbn [rbind]. now rewrite (dict_get_perm p p' _ H (proj1 s_wf _ _ E)).
Qed.

Lemma write_item_order (parent : Element) (item : string * AppValue) :
  write_App_Data_item env s' parent item
  = write_App_Data_item env s parent item.
Proof.
  destruct item as [key value]. unfold write_App_Data_item.
  destruct (mem_string key (param_skip env)); [reflexivity|].
  destruct (mem_string key _multiples).
  - apply rfor_each_ext. intros acc v. apply write_element_order.
  - apply write_element_order.
Qed.

Lemma write_Metadata_order (ae_type : string) :
  write_Metadata env s' ae_type = write_Metadata env s ae_type.
Proof.
  unfold write_Metadata, _write_App_Data, subscript.
  destruct s_same as (H1 & H2 & _).
  specialize (H1 ae_type). specialize (H2 ae_type).
  destruct (dict_get ae_type (D_ams s')) as [a'|],
      (dict_get ae_type (D_ams s)) as [a|] eqn:Ea; cbn in H1;
    try contradiction; [|reflexivity].
  cbn [rbind].
  pose proof (proj1 s_wf _ _ Ea) as Wa.
  rewrite (write_AMS_sorted a Wa).
  rewrite (write_AMS_sorted a' (dict_wf_perm _ _ H1 Wa)).
  rewrite (sorted_items_canonical a a')
    by first [now apply nodup_keys_NoDup | now symmetry].
  destruct (dict_get ae_type (D_app s')) as [p'|],
      (dict_get ae_type (D_app s)) as [p|] eqn:Ep; cbn in H2;
    try contradiction; [|reflexivity].
  cbn [rbind].
  rewrite (sorted_items_canonical p p')
    by first [apply nodup_keys_NoDup; exact (proj2 s_wf _ _ Ep)
             | now symmetry].
  apply rfor_each_ext. intros acc x. apply write_item_order.
Qed.

Lemma write_asset_element_order (title_Asset : Element) (ae_type : string) :
  write_asset_element env s' title_Asset ae_type
  = write_asset_element env s title_Asset ae_type.
Proof.
  unfold write_asset_element. rewrite write_Metadata_order.
  destruct s_same as (H1 & _ & H3). rewrite H3.
  specialize (H1 ae_type). unfold dict_mem.
  destruct (dict_get ae_type (D_ams s')), (dict_get ae_type (D_ams s));
    cbn in H1; try contradiction; reflexivity.
Qed.

Lemma build_ADI_order : build_ADI env s' = build_ADI env s.
Proof.
  unfold build_ADI. rewrite !write_Metadata_order.
  destruct (write_Metadata env s "package"); [|reflexivity]. cbn [rbind].
  destruct (write_Metadata env s "title"); [|reflexivity]. cbn [rbind].
  f_equal. apply rfor_each_ext. intros acc t. apply write_asset_element_order.
Qed.

End OrderIndependent.

(** X20: what [write_xml] writes does not depend on the order in which the
    dictionaries list their entries: two packages that hold the same
    sections with the same attributes, App_Data and content references give
    the same outcome, tree or exception. *)
Theorem write_xml_order_independent (env : Env) (s s' : VodPackage)
        (probed : list Probe) :
  sections_wf s -> same_up_to_order s s' ->
  fst (write_xml env false (mkWorld s' probed))
  = fst (write_xml env false (mkWorld s probed)).
Proof.
  intros Hwf Hsame. unfold write_xml. rewrite !bind_get. cbn [self].
  assert (Hm : dict_mem "movie" (D_ams s') = dict_mem "movie" (D_ams s)).
  { destruct Hsame as (H1 & _). specialize (H1 "movie"). unfold dict_mem.
    destruct (dict_get "movie" (D_ams s')), (dict_get "movie" (D_ams s));
      cbn in H1; try contradiction; reflexivity. }
  rewrite Hm. destruct (dict_mem "movie" (D_ams s)); [|reflexivity].
  cbn [negb]. unfold bind at 1 3, ret at 1 2. rewrite !bind_get.
  unfold lift. cbn [fst self]. now apply build_ADI_order.
Qed.

Lemma dict_get_map_values {V W} (f : V -> W) (k : string) (d : dict V) :
  dict_get k (map (fun p => (fst p, f (snd p))) d)
  = option_map f (dict_get k d).
Proof.
  induction d as [|[k' v] d IH]; cbn [map dict_get fst snd option_map];
    [reflexivity|].
  now destruct (String.eqb k k').
Qed.

Lemma option_rel_rev {A} (o : option (list A)) :
  option_rel (@Permutation A) (option_map (@rev A) o) o.
Proof.
  destruct o as [l|]; cbn; [|exact I]. symmetry. apply Permutation_rev.
Qed.

Lemma sections_wf_forallb (s : VodPackage) :
  forallb (fun p => dict_wf (snd p)) (D_ams s) = true ->
  forallb (fun p => dict_wf (snd p)) (D_app s) = true ->
  sections_wf s.
Proof.
  intros Ha Hp. rewrite forallb_forall in Ha, Hp. split.
  - intros sec attrs H. apply dict_get_In in H. exact (Ha _ H).
  - intros sec app H. apply dict_get_In in H. exact (Hp _ H).
Qed.

Lemma write_xml_order_independent_witness :
  let env := sample_env [] in
  let s := sample_package in
  let s' := set_D_app (map (fun p => (fst p, rev (snd p))) (D_app s))
              (set_D_ams (map (fun p => (fst p, rev (snd p))) (D_ams s)) s) in
  sections_wf s /\ same_up_to_order s s' /\
  dict_get "package" (D_ams s') <> dict_get "package" (D_ams s) /\
  fst (write_xml env false (mkWorld s' []))
  = fst (write_xml env false (mkWorld s [])).
Proof.
  cbv zeta.
  assert (Hwf : sections_wf sample_package)
    by (apply sections_wf_forallb; vm_compute; reflexivity).
  match goal with
  | |- _ /\ same_up_to_order _ ?s' /\ _ =>
      assert (Hsame : same_up_to_order sample_package s')
  end.
  { unfold same_up_to_order, set_D_app, set_D_ams.
    cbn [D_ams D_app D_content].
    split; [|split]; intros sec; rewrite ?dict_get_map_values;
      [apply option_rel_rev | apply option_rel_rev | reflexivity]. }
  split; [exact Hwf|]. split; [exact Hsame|]. split.
  - unfold set_D_app, set_D_ams. cbn [D_ams]. rewrite dict_get_map_values.
    assert (E : option_map (map fst) (dict_get "package" (D_ams sample_package))
                <> option_map (map fst)
                     (option_map (@rev _)
                        (dict_get "package" (D_ams sample_package))))
      by (vm_compute; discriminate).
    intros H. apply E. symmetry.
    exact (f_equal (option_map (map fst)) H).
  - exact (write_xml_order_independent _ _ _ [] Hwf Hsame).
Defined.

(** ** Loading a document that repeats an asset class *)

Lemma last_such_cons {A} (p : A -> bool) (a : A) (l : list A) :
  last_such p (a :: l)
  = match last_such p l with
    | Some x => Some x
    | None => if p a then Some a else None
    end.
Proof.
  unfold last_such. cbn [rev]. generalize (rev l) as r.
  induction r as [|x r IH]; cbn [app List.find]; [reflexivity|].
  now destruct (p x).
Qed.

Lemma init_assets_last (assets : list Element) :
  forall ams0 app0 content0 ams app content,
    rfor_each assets (ams0, app0, content0) init_asset_step
    = Ok (ams, app, content) ->
    forall k,
      dict_get k ams
      = match last_such (has_class k) assets with
        | Some a => option_map attrib_of (asset_AMS a)
        | None => dict_get k ams0
        end /\
      dict_get k app
      = match last_such (has_class k) assets with
        | Some a => asset_App_Data a
        | None => dict_get k app0
        end /\
      dict_get k content
      = match last_such (with_content k) assets with
        | Some a => asset_content a
        | None => dict_get k content0
        end.
Proof.
  induction assets as [|a assets IH];
    intros ams0 app0 content0 ams app content H k.
  - inversion H; subst. repeat split.
  - cbn [rfor_each] in H. apply rbind_Ok_inv in H.
    destruct H as ([[ams1 app1] content1] & Hstep & H).
    apply init_asset_step_inv in Hstep.
    destruct Hstep as (m & el & t & parsed & Hm & Hel & Ht & Hp & E & _).
    inversion E; subst ams1 app1 content1. clear E.
    destruct (IH _ _ _ _ _ _ H k) as (I1 & I2 & I3).
    rewrite !last_such_cons.
    assert (Hc : has_class k a = String.eqb t k)
      by (unfold has_class; now rewrite Ht).
    assert (Ha : option_map attrib_of (asset_AMS a) = Some (attrib_of el))
      by (unfold asset_AMS; now rewrite Hm, Hel).
    assert (Hd : asset_App_Data a = Some parsed)
      by (unfold asset_App_Data; now rewrite Hm, Hp).
    split; [|split].
    + rewrite I1. destruct (last_such (has_class k) assets); [reflexivity|].
      rewrite Hc. destruct (String.eqb_spec t k) as [->|Hne].
      * now rewrite dict_get_set_same.
      * apply dict_get_set_other. congruence.
    + rewrite I2. destruct (last_such (has_class k) assets); [reflexivity|].
      rewrite Hc. destruct (String.eqb_spec t k) as [->|Hne].
      * now rewrite dict_get_set_same.
      * apply dict_get_set_other. congruence.
    + rewrite I3. destruct (last_such (with_content k) assets); [reflexivity|].
      unfold with_content. rewrite Hc.
      destruct (asset_content a) as [v|] eqn:Ec; pose proof Ec as Ec';
        unfold asset_content in Ec.
      * destruct (find "Content" a) as [c|]; [|discriminate Ec]. rewrite Ec.
        rewrite andb_true_r. destruct (String.eqb_spec t k) as [->|Hne].
        -- cbv iota. rewrite Ec'. apply dict_get_set_same.
        -- apply dict_get_set_other. congruence.
      * rewrite andb_false_r.
        destruct (find "Content" a) as [c|]; [rewrite Ec|]; reflexivity.
Qed.

(** X23: a document may repeat an asset class; [__init__] then keeps one
    section for it, silently.  [D_ams] and [D_app] hold the attributes and
    the App_Data of the LAST asset element of the class, but [D_content]
    holds the content file of the last asset element of the class that HAS a
    Content child, which may be an earlier element.  A name that no asset
    element has as its class, the package and the title apart, has no
    section. *)
Theorem init_repeated_asset_class (path : string) (ADI : Element)
        (s : VodPackage) :
  __init__ path ADI = Ok s ->
  forall k,
    match last_such (has_class k) (asset_elements ADI) with
    | Some a =>
        dict_mem k (D_ams s) = true /\
        dict_get k (D_ams s) = option_map attrib_of (asset_AMS a) /\
        dict_get k (D_app s) = asset_App_Data a
    | None =>
        k <> "package" -> k <> "title" ->
        dict_get k (D_ams s) = None /\ dict_get k (D_app s) = None
    end /\
    dict_get k (D_content s)
    = match last_such (with_content k) (asset_elements ADI) with
      | Some a => asset_content a
      | None => None
      end.
Proof.
  intros H k. apply init_Ok_inv in H.
  destruct H as (pm & pa & papp & ta & tm & tams & tapp & version & _ & _ & _
                 & Hta & _ & _ & _ & Hloop & _).
  unfold asset_elements. rewrite Hta.
  destruct (init_assets_last _ _ _ _ _ _ _ Hloop k) as (I1 & I2 & I3).
  split; [|exact I3].
  destruct (last_such (has_class k) (findall "Asset" ta)) as [a|] eqn:E.
  - split; [|split; assumption].
    unfold last_such in E. apply find_some in E. destruct E as [_ E].
    unfold dict_mem. rewrite I1. unfold has_class, asset_class in E.
    destruct (asset_AMS a); [reflexivity | discriminate E].
  - intros N1 N2. rewrite I1, I2. cbn [dict_get].
    apply String.eqb_neq in N1, N2. now rewrite N1, N2.
Qed.

Lemma init_repeated_asset_class_witness :
  let s := loaded "adi.xml" sample_ADI_two_movies in
  __init__ "adi.xml" sample_ADI_two_movies = Ok s /\
  option_map (dict_get "Asset_ID") (dict_get "movie" (D_ams s))
  = Some (Some "MOVI0002") /\
  dict_get "movie" (D_app s) = Some [] /\
  dict_get "movie" (D_content s) = Some "first.mpg".
Proof.
  cbv zeta.
  assert (E : __init__ "adi.xml" sample_ADI_two_movies
              = Ok (loaded "adi.xml" sample_ADI_two_movies))
    by (vm_compute; reflexivity).
  split; [exact E|].
  destruct (init_repeated_asset_class _ _ _ E "movie") as [H1 H2].
  assert (L1 : last_such (has_class "movie")
                         (asset_elements sample_ADI_two_movies)
               = Some (Elem "Asset" []
                            [Elem "Metadata" []
                                  [sample_AMS "movie" "MOVI0002"]]))
    by (vm_compute; reflexivity).
  assert (L2 : last_such (with_content "movie")
                         (asset_elements sample_ADI_two_movies)
               = Some (Elem "Asset" []
                            [Elem "Metadata" []
                               [sample_AMS "movie" "MOVI0001";
                                App_Data_elem "MOD" "Codec" "MPEG2"];
                             Elem "Content" [("Value", "first.mpg")] []]))
    by (vm_compute; reflexivity).
  rewrite L1 in H1. rewrite L2 in H2. destruct H1 as (_ & A1 & A2).
  rewrite A1, A2, H2. repeat split; vm_compute; reflexivity.
Defined.

(** ** An update that fails half way *)

Lemma for_each_app {S A} (xs ys : list A) (body : A -> M S unit) (s : S) :
  for_each (xs ++ ys) body s
  = match for_each xs body s with
    | (Ok _, s1) => for_each ys body s1
    | (Raise e, s1) => (Raise e, s1)
    end.
Proof.
  revert s. induction xs as [|x xs IH]; intros s; cbn [app for_each];
    [reflexivity|].
  unfold bind. destruct (body x s) as [[[]|e] s1]; [apply IH | reflexivity].
Qed.

Lemma dict_get_app {V} (k : string) (d1 d2 : dict V) :
  dict_get k (d1 ++ d2)%list
  = match dict_get k d1 with
    | Some v => Some v
    | None => dict_get k d2
    end.
Proof.
  induction d1 as [|[k' v] d1 IH]; cbn [app dict_get]; [reflexivity|].
  now destruct (String.eqb k k').
Qed.

(** X24: [make_update] is not atomic.  Take the first section of [D_ams]
    that cannot be advanced: its [Version_Major] is missing (KeyError), or is
    an ASCII string that [int] refuses, or is an integer whose successor
    [str] refuses (ValueError).  Then [make_update] raises that error; the
    sections before it have been advanced and stay so, that section and the
    later ones are as they were, [D_content] has not been emptied and
    [is_update] has not been set. *)
Theorem make_update_not_atomic (s : VodPackage) (pre post : dict (dict string))
        (t : string) (attrs : dict string) :
  dict_wf (D_ams s) = true ->
  D_ams s = (pre ++ (t, attrs) :: post)%list ->
  (forall item, In item pre -> advances (snd item) = true) ->
  advances attrs = false ->
  (forall v, dict_get "Version_Major" attrs = Some v -> is_ascii v = true) ->
  let s' := snd (make_update s) in
  fst (make_update s) = Raise (version_error attrs) /\
  D_ams s'
  = (map (fun item => (fst item, bumped (snd item))) pre
     ++ (t, attrs) :: post)%list /\
  D_content s' = D_content s /\ is_update s' = is_update s /\
  D_app s' = D_app s /\ is_delete s' = is_delete s.
Proof.
  intros Hwf Hd Hpre Hv _. cbv zeta.
  apply nodup_keys_NoDup in Hwf.
  assert (Hkeys : dict_keys (D_ams s)
                  = (dict_keys pre ++ t :: dict_keys post)%list)
    by (rewrite Hd; unfold dict_keys; now rewrite map_app).
  assert (NDpre : NoDup (dict_keys pre)).
  { rewrite Hkeys in Hwf. now apply NoDup_app_remove_r in Hwf. }
  assert (Ht : ~ In t (dict_keys pre)).
  { rewrite Hkeys in Hwf. apply NoDup_remove_2 in Hwf. intros H. apply Hwf.
    apply in_or_app. now left. }
  destruct (make_update_loop s (dict_keys pre) NDpre (D_ams s))
    as (d' & Hrun & Hk' & Hget).
  { intros k Hk. apply in_map_iff in Hk. destruct Hk as ([k0 a] & <- & Hin).
    exists a. split; [|exact (Hpre _ Hin)].
    apply In_dict_get; [exact Hwf|]. rewrite Hd. apply in_or_app. now left. }
  assert (Es : set_D_ams (D_ams s) s = s) by now destruct s.
  rewrite Es in Hrun.
  assert (Hstep : make_update_step t (set_D_ams d' s)
                  = (Raise (version_error attrs), set_D_ams d' s)).
  { apply make_update_step_fails; [|exact Hv]. cbn [D_ams set_D_ams].
    assert (N : dict_get t pre = None) by now apply dict_get_None.
    rewrite Hget. apply mem_string_not_In in Ht. rewrite Ht.
    rewrite Hd, dict_get_app, N. cbn [dict_get]. now rewrite String.eqb_refl. }
  assert (Hall : make_update s = (Raise (version_error attrs), set_D_ams d' s)).
  { unfold make_update. rewrite bind_get. apply bind_Raise.
    rewrite Hkeys, for_each_app, Hrun. cbn [for_each].
    now apply bind_Raise. }
  rewrite Hall. cbn [fst snd]. split; [reflexivity|].
  split; [|destruct s; repeat split].
  cbn [D_ams set_D_ams]. apply dict_ext.
  - now rewrite Hk'.
  - rewrite Hk', Hkeys. unfold dict_keys. rewrite map_app, map_map.
    reflexivity.
  - intros k. rewrite Hget, Hd, !dict_get_app, dict_get_map_values.
    destruct (dict_get k pre) as [a|] eqn:E.
    + assert (Hin : In k (dict_keys pre))
        by (apply dict_mem_In; unfold dict_mem; now rewrite E).
      apply mem_string_In in Hin. now rewrite Hin.
    + apply dict_get_None, mem_string_not_In in E. now rewrite E.
Qed.

Lemma make_update_not_atomic_witness :
  let s := loaded "adi.xml" sample_ADI_title_without_version in
  let pre := [("package", attrib_of (sample_AMS "package" "PACK0001"))] in
  let attrs := [("Asset_ID", "TITL0001"); ("Asset_Class", "title")] in
  let post := [("movie", attrib_of (sample_AMS "movie" "MOVI0001"))] in
  D_ams s = (pre ++ ("title", attrs) :: post)%list /\
  fst (make_update s) = Raise (KeyError "Version_Major") /\
  D_ams (snd (make_update s))
  = (map (fun item => (fst item, bumped (snd item))) pre
     ++ ("title", attrs) :: post)%list /\
  D_content (snd (make_update s)) = [("movie", "movie.mpg")] /\
  is_update (snd (make_update s)) = false.
Proof.
  cbv zeta.
  set (s := loaded "adi.xml" sample_ADI_title_without_version).
  assert (Hwf : dict_wf (D_ams s) = true) by (vm_compute; reflexivity).
  assert (Hd : D_ams s
               = ([("package", attrib_of (sample_AMS "package" "PACK0001"))]
                  ++ ("title", [("Asset_ID", "TITL0001");
                                ("Asset_Class", "title")])
                  :: [("movie", attrib_of (sample_AMS "movie" "MOVI0001"))])
                 %list)
    by (vm_compute; reflexivity).
  assert (Hpre : forall item,
             In item [("package",
                       attrib_of (sample_AMS "package" "PACK0001"))] ->
             advances (snd item) = true)
    by (intros item [<-|[]]; vm_compute; reflexivity).
  assert (Hv : advances [("Asset_ID", "TITL0001");
                         ("Asset_Class", "title")] = false)
    by (vm_compute; reflexivity).
  assert (Ha : forall v,
             dict_get "Version_Major" [("Asset_ID", "TITL0001");
                                       ("Asset_Class", "title")] = Some v ->
             is_ascii v = true)
    by (intros v H; vm_compute in H; discriminate H).
  destruct (make_update_not_atomic s _ _ _ _ Hwf Hd Hpre Hv Ha)
    as (F & A & C & U & _).
  split; [exact Hd|]. split; [exact F|]. split; [exact A|].
  rewrite C, U. split; vm_compute; reflexivity.
Defined.
